(** * OUTBOUND.B4UBIZ: attendance board and digital-signage server

    A shallow embedding of the two programs of the repository:

    - [Board]: the single-file React board
      (outbound_b_4_ubiz_attendance_app.jsx, first document).  Its
      [FIREBASE_CONFIG] holds placeholders, so the module runs on the
      localStorage-backed mock database [makeMockDB]; the mock, the wrappers
      around it and the five record operations are embedded here.
    - [Server]: the Express/socket.io server (second document of the same
      file): the in-memory [outbounds] and [systemLogs] arrays, the handlers
      that change them, the log endpoint and [getStatusSummary].

    Conventions.  A JavaScript object whose properties are only read by name
    (a document, the store) is a [gmap string _]; an object whose key order
    is observable (a collection of the mock store, enumerated by
    [Object.keys]) is an association list in the order of enumeration: array
    indices first, ascending, then the other keys in the order of creation.
    [undefined] is the absence of a JSON value, so a JavaScript value is an
    [option json].  Every reading of the clock or of [Math.random] is an
    explicit argument, and so is the time zone of the host. *)

From Stdlib Require Import ZArith NArith List Bool Lia Sorted Ascii.
From stdpp Require Import base option list strings gmap fin_maps pretty sorting.

(** ** JavaScript runtime: dates *)

Module JsDate.

Local Open Scope Z_scope.

Definition msPerDay : Z := 86400000.
Definition msPerHour : Z := 3600000.

(** Gregorian date of a day number counted from 1970-01-01. *)
Definition civil (days : Z) : Z * Z * Z :=
  let z := days + 719468 in
  let era := z / 146097 in
  let doe := z - era * 146097 in
  let yoe := (doe - doe / 1460 + doe / 36524 - doe / 146096) / 365 in
  let doy := doe - (365 * yoe + yoe / 4 - yoe / 100) in
  let mp := (5 * doy + 2) / 153 in
  let d := doy - (153 * mp + 2) / 5 + 1 in
  let m := if mp <? 10 then mp + 3 else mp - 9 in
  let y := yoe + era * 400 + (if m <=? 2 then 1 else 0) in
  (y, m, d).

Fixpoint zeros (n : nat) : string :=
  match n with
  | O => EmptyString
  | S k => "0" +:+ zeros k
  end.

Definition pad (width : nat) (s : string) : string :=
  zeros (width - String.length s) +:+ s.

Definition digits (width : nat) (n : Z) : string := pad width (pretty (Z.abs n)).

Definition year_text (y : Z) : string :=
  if (0 <=? y) && (y <=? 9999) then digits 4 y
  else (if y <? 0 then "-" else "+") +:+ digits 6 y.

(** [new Date(t).toISOString()], [t] in milliseconds since the epoch. *)
Definition toISOString (t : Z) : string :=
  let '(y, m, d) := civil (t / msPerDay) in
  let r := t mod msPerDay in
  year_text y +:+ "-" +:+ digits 2 m +:+ "-" +:+ digits 2 d +:+ "T" +:+
  digits 2 (r / msPerHour) +:+ ":" +:+ digits 2 (r mod msPerHour / 60000) +:+ ":" +:+
  digits 2 (r mod 60000 / 1000) +:+ "." +:+ digits 3 (r mod 1000) +:+ "Z".

(** Local-time readings of a [Date].  [zone t] is the offset of the
    host's local time from UTC at the instant [t], in milliseconds east of
    UTC: the time-zone rules of the host fix it, and it differs between
    instants that lie on either side of a daylight-saving change. *)
Definition localDay (zone : Z -> Z) (t : Z) : Z := (t + zone t) / msPerDay.

(** [getHours()] *)
Definition getHours (zone : Z -> Z) (t : Z) : Z := (t + zone t) mod msPerDay / msPerHour.

(** [getDay()]: 0 is Sunday, 6 is Saturday; 1970-01-01 was a Thursday. *)
Definition getDay (zone : Z -> Z) (t : Z) : Z := (localDay zone t + 4) mod 7.

(** [a.toDateString() === b.toDateString()]: the text names the local
    calendar day and nothing else, each date read at its own offset. *)
Definition sameDateString (zone : Z -> Z) (a b : Z) : bool :=
  bool_decide (localDay zone a = localDay zone b).

(** A host whose zone has one offset all year. *)
Definition fixed_zone (offset : Z) : Z -> Z := fun _ => offset.

End JsDate.

(** ** JavaScript values and objects *)

(** The JSON values that occur in the documents of the store.  [JIso t] is
    the string [JsDate.toISOString t]: every timestamp the board stores is
    produced by [new Date().toISOString()], and is kept here with the instant
    it renders so that timestamps can be compared. *)
Inductive json :=
  | JNull
  | JStr (s : string)
  | JIso (t : Z).

#[global] Instance json_eq_dec : EqDecision json.
Proof. solve_decision. Defined.

(** A JavaScript value: [None] is [undefined]. *)
Abbreviation jsval := (option json).

(** A parsed JSON object, and an object in memory (whose properties may hold
    [undefined]). *)
Abbreviation jobj := (gmap string json).
Abbreviation mobj := (gmap string (option json)).

(** ToBoolean. *)
Definition truthy (v : jsval) : bool :=
  match v with
  | None | Some JNull => false
  | Some (JStr s) => bool_decide (s ≠ EmptyString)
  | Some (JIso _) => true
  end.

(** The string a string-valued [json] stands for. *)
Definition text_of (v : json) : string :=
  match v with
  | JNull => "null"
  | JStr s => s
  | JIso t => JsDate.toISOString t
  end.

(** [o.k]: a missing property reads as [undefined]. *)
Definition prop (o : mobj) (k : string) : jsval := mjoin (o !! k).

(** [Object.assign({}, a, b)]: the properties of [b] win.  The properties
    are copied by assignment, so a property named "__proto__" (which a parsed
    document can have) is not copied: assigning it sets the prototype of the
    new object, or does nothing. *)
Definition Object_assign (a b : mobj) : mobj := delete "__proto__" (b ∪ a).

(** The object literal [{ ...a, ...b }]: here the properties are defined,
    also one named "__proto__". *)
Definition spread (a b : mobj) : mobj := b ∪ a.

(** [JSON.parse] and [JSON.stringify] on an object: parsing yields defined
    properties only, printing drops the properties that hold [undefined]. *)
Definition parse_obj (o : jobj) : mobj := Some <$> o.
Definition stringify_obj (o : mobj) : jobj := omap id o.

(** *** Objects whose keys are enumerated

    A plain object (prototype [Object.prototype]) as the list of its own
    properties in the order of [Object.keys]: the keys that are array indices
    first, in ascending order, then the other keys in the order in which the
    properties were created. *)

(** The value of a string of decimal digits. *)
Fixpoint numeral (s : string) (acc : N) : option N :=
  match s with
  | EmptyString => Some acc
  | String c s' =>
      let d := N_of_ascii c in
      if (48 <=? d)%N && (d <=? 57)%N then numeral s' (10 * acc + (d - 48))%N else None
  end.

(** The array index a key stands for: the key is the canonical numeral of
    an integer below 2^32 - 1. *)
Definition array_index (k : string) : option N :=
  match numeral k 0 with
  | Some n => if bool_decide (pretty n = k) && (n <? 4294967295)%N then Some n else None
  | None => None
  end.

(** [k] is enumerated ahead of [k'] wherever the two properties were
    created. *)
Definition precedes (k k' : string) : Prop :=
  match array_index k, array_index k' with
  | Some n, Some m => (n < m)%N
  | Some _, None => True
  | None, Some _ => False
  | None, None => True
  end.

(** The own property [k], if there is one. *)
Fixpoint coll_get {V : Type} (c : list (string * V)) (k : string) : option V :=
  match c with
  | [] => None
  | (k', v) :: c' => if decide (k' = k) then Some v else coll_get c' k
  end.

(** A new value for the own property [k]: the property stays where it is. *)
Fixpoint coll_replace {V : Type} (c : list (string * V)) (k : string) (v : V)
    : list (string * V) :=
  match c with
  | [] => []
  | (k', w) :: c' => if decide (k' = k) then (k', v) :: c' else (k', w) :: coll_replace c' k v
  end.

(** A new property whose key is the array index [n]: ahead of the first
    property that is not a smaller array index. *)
Fixpoint coll_insert_index {V : Type} (c : list (string * V)) (n : N) (k : string) (v : V)
    : list (string * V) :=
  match c with
  | [] => [(k, v)]
  | (k', w) :: c' =>
      match array_index k' with
      | Some m => if (m <? n)%N then (k', w) :: coll_insert_index c' n k v else (k, v) :: c
      | None => (k, v) :: c
      end
  end.

(** A new property. *)
Definition coll_create {V : Type} (c : list (string * V)) (k : string) (v : V)
    : list (string * V) :=
  match array_index k with
  | Some n => coll_insert_index c n k v
  | None => c ++ [(k, v)]
  end.

(** CreateDataProperty, by which [JSON.parse] builds an object: the key
    "__proto__" is a key like any other. *)
Definition coll_define {V : Type} (c : list (string * V)) (k : string) (v : V)
    : list (string * V) :=
  if coll_get c k is Some _ then coll_replace c k v else coll_create c k v.

(** The assignment [c[k] = v] of an object [v].  An own property gets the
    new value.  Otherwise the key is looked up in [Object.prototype]:
    "__proto__" is an accessor there, whose setter makes [v] the prototype of
    [c] and creates no property; every other key creates one. *)
Definition coll_put {V : Type} (c : list (string * V)) (k : string) (v : V)
    : list (string * V) :=
  if coll_get c k is Some _ then coll_replace c k v
  else if decide (k = "__proto__") then c
  else coll_create c k v.

(** The keys every plain object inherits from [Object.prototype]. *)
Definition Object_prototype_keys : list string := [
  "constructor"; "__defineGetter__"; "__defineSetter__"; "hasOwnProperty";
  "__lookupGetter__"; "__lookupSetter__"; "isPrototypeOf"; "propertyIsEnumerable";
  "toString"; "valueOf"; "__proto__"; "toLocaleString"
].

(** The value read by [c[k]], as far as the mock database looks at it (its
    truth value, its own enumerable properties and its property [returnAt]):
    the document under [k] when [c] has the property; for an inherited key a
    member of [Object.prototype] (a function, or [Object.prototype] itself
    for "__proto__"), which is truthy and has no enumerable property of its
    own and no [returnAt], here the empty object; [undefined] otherwise. *)
Definition coll_read (c : list (string * gmap string (option json))) (k : string)
    : option (gmap string (option json)) :=
  match coll_get c k with
  | Some d => Some d
  | None => if bool_decide (k ∈ Object_prototype_keys) then Some ∅ else None
  end.

(** The object [JSON.parse] builds from the members of an object in the
    text, taken in the order of the text: a key that occurs again gives the
    property a new value. *)
Definition parse_members {V : Type} (members : list (string * V)) : list (string * V) :=
  foldl (fun c m => coll_define c m.1 m.2) [] members.

(** An object in enumeration order: no key twice, array indices first and
    ascending. *)
Definition enumerated {V : Type} (c : list (string * V)) : Prop :=
  NoDup c.*1 /\ StronglySorted precedes c.*1.

(** The whole store: collection name -> document id -> document.

    [jstore] is the JSON text in localStorage, held by the members of each
    collection in the order of the text; a key can occur more than once
    there and an array index can stand anywhere.  [mstore] is the object
    [readStore] returns.  [JSON.parse] builds each collection member by
    member; [JSON.stringify] prints the own properties in enumeration order
    and leaves out those that hold [undefined].  The order of the fields
    inside a document, and of the collections inside the store, is not
    observable: the program reads them by name only. *)
Abbreviation jstore := (gmap string (list (string * gmap string json))).
Abbreviation mstore := (gmap string (list (string * gmap string (option json)))).

Definition parse_store (s : jstore) : mstore :=
  (fun members => parse_members (prod_map id parse_obj <$> members)) <$> s.
Definition stringify_store (s : mstore) : jstore := fmap (M := list) (prod_map id stringify_obj) <$> s.

(** What the code can throw. *)
Inductive exn := TypeError (msg : string).

Inductive result (A : Type) :=
  | Ok (a : A)
  | Throw (e : exn).
Arguments Ok {A} a.
Arguments Throw {A} e.

(** ** The board (React component over the mock database) *)

Module Board.

(** *** Configuration and the choice of the mock database *)

Record firebase_config := {
  apiKey : string;
  authDomain : string;
  projectId : string;
  storageBucket : string;
  messagingSenderId : string;
  appId : string
}.

Definition FIREBASE_CONFIG : firebase_config := {|
  apiKey := "YOUR_FIREBASE_API_KEY";
  authDomain := "YOUR_FIREBASE_AUTH_DOMAIN";
  projectId := "YOUR_FIREBASE_PROJECT_ID";
  storageBucket := "YOUR_FIREBASE_STORAGE_BUCKET";
  messagingSenderId := "YOUR_FIREBASE_MSG_SENDER_ID";
  appId := "YOUR_FIREBASE_APP_ID"
|}.

Definition EMPLOYEES : list string := ["Kim"; "Lee"; "Park"; "Choi"; "Jung"; "Han"; "Yoon"].

Definition isFirebaseConfigValid (cfg : firebase_config) : bool :=
  bool_decide (projectId cfg ≠ EmptyString) && negb (String.prefix "YOUR_" (projectId cfg)) &&
  bool_decide (apiKey cfg ≠ EmptyString) && negb (String.prefix "YOUR_" (apiKey cfg)).

(** Module initialisation: with an invalid configuration the [else] branch
    sets [useMockDb = true].  (With a valid one the flag depends on the
    Firebase SDK, which is not part of the repository.) *)
Definition useMockDb : bool :=
  if isFirebaseConfigValid FIREBASE_CONFIG then false else true.

(** *** Clock and random readings of one operation, in program order *)

Record clock := {
  now : Z;        (* new Date() at the top of markOut / markReturn *)
  stamp : Z;      (* serverTimestamp() stored in lastUpdated / createdAt *)
  doc_ms : Z;     (* Date.now() inside a generated document id *)
  log_stamp : Z;  (* serverTimestamp() stored in the log entry *)
  log_ms : Z;     (* Date.now() inside the log id *)
  log_rand : Z    (* Math.floor(Math.random() * 1000) inside the log id *)
}.

(** An operation all of whose readings fall in the millisecond [t]. *)
Definition clock_at (t rnd : Z) : clock :=
  {| now := t; stamp := t; doc_ms := t; log_stamp := t; log_ms := t; log_rand := rnd |}.

(** *** makeMockDB *)

Definition empty_store : mstore :=
  <["outbound_records" := []]> (<["outbound_logs" := []]> ∅).

(** [localStorage.getItem(STORAGE_KEY)]: [None] when the item is missing,
    empty or no JSON text ([readStore] answers all three with the default
    store), and otherwise a JSON text of the shape [writeStore] gives it,
    an object of collections of documents, the keys in any order. *)
Definition readStore (ls : option jstore) : mstore :=
  match ls with
  | None => empty_store
  | Some raw => parse_store raw
  end.

Definition writeStore (store : mstore) : option jstore :=
  Some (stringify_store store).

Definition ensure (ls : option jstore) : option jstore :=
  let s := readStore ls in
  let s := if s !! "outbound_records" is None then <["outbound_records" := []]> s else s in
  let s := if s !! "outbound_logs" is None then <["outbound_logs" := []]> s else s in
  writeStore s.

Record colRef := { mockCollection : string }.
Record docRef := { col : string; doc_id : string }.

Definition collectionMock (name : string) : colRef := {| mockCollection := name |}.

Definition docMock (c : colRef) (id : string) : docRef :=
  {| col := mockCollection c; doc_id := id |}.

Definition getDataSnapshotForCollection (colName : string) (ls : option jstore)
  : list (string * mobj) :=
  default [] (readStore ls !! colName).

(** A document handed to a snapshot listener: [{ id, data: () => ... }]. *)
Record docSnap := { snap_id : string; snap_data : mobj }.

Definition buildSnap (colName : string) (ls : option jstore) : list docSnap :=
  (fun d => {| snap_id := fst d; snap_data := snd d |}) <$> getDataSnapshotForCollection colName ls.

(** [onSnapshotMock]: the closure variables of one subscription, with the
    two timers it starts.  The zero-delay timeout fires once; the interval
    stays armed until [clearInterval]. *)
Record subscription := {
  colName : string;
  stopped : bool;
  timeout_armed : bool;
  interval_armed : bool
}.

Inductive timer := InitialTimeout | PollInterval.

#[global] Instance timer_eq_dec : EqDecision timer.
Proof. solve_decision. Defined.

Definition onSnapshotMock (queryObj : colRef) : subscription :=
  {| colName := if bool_decide (mockCollection queryObj ≠ EmptyString) then mockCollection queryObj else "null";
     stopped := false;
     timeout_armed := true;
     interval_armed := true |}.

(** The function [onSnapshotMock] returns. *)
Definition unsubscribe (sub : subscription) : subscription :=
  {| colName := colName sub;
     stopped := true;
     timeout_armed := timeout_armed sub;
     interval_armed := false |}.

(** A timer of the subscription comes due while the store is [ls]; [cb] is
    the listener, acting on the subscriber's state.  A timer that is not
    armed does not come due. *)
Definition fire {S : Type} (cb : list docSnap -> S -> S) (t : timer) (ls : option jstore)
    (st : subscription * S) : subscription * S :=
  let '(sub, s) := st in
  match t with
  | InitialTimeout =>
      if timeout_armed sub
      then ({| colName := colName sub; stopped := stopped sub;
               timeout_armed := false; interval_armed := interval_armed sub |},
            cb (buildSnap (colName sub) ls) s)
      else st
  | PollInterval =>
      if interval_armed sub
      then (if stopped sub then st else (sub, cb (buildSnap (colName sub) ls) s))
      else st
  end.

(** A run of timers coming due, each with the store it finds. *)
Definition fire_all {S : Type} (cb : list docSnap -> S -> S)
    (due : list (timer * option jstore)) (st : subscription * S) : subscription * S :=
  foldl (fun st ev => fire cb ev.1 ev.2 st) st due.

(** [docRef.id || data.name || `doc_${Date.now()}`] *)
Definition target_id (ref : docRef) (data : mobj) (ms : Z) : string :=
  if bool_decide (doc_id ref ≠ EmptyString) then doc_id ref
  else match prop data "name" with
       | Some v => if truthy (Some v) then text_of v else "doc_" +:+ pretty ms
       | None => "doc_" +:+ pretty ms
       end.

Definition setDocMock (ref : docRef) (data : mobj) (ms : Z) (ls : option jstore)
  : option jstore :=
  let store := readStore ls in
  let c := default [] (store !! col ref) in
  let id := target_id ref data ms in
  let c := coll_put c id (Object_assign (default ∅ (coll_read c id)) data) in
  writeStore (<[col ref := c]> store).

Definition log_id (ms rnd : Z) : string :=
  "log_" +:+ pretty ms +:+ "_" +:+ pretty rnd.

Definition addDocMock (c : colRef) (data : mobj) (ms rnd : Z) (ls : option jstore)
  : option jstore * string :=
  let store := readStore ls in
  let cl := default [] (store !! mockCollection c) in
  let id := log_id ms rnd in
  let cl := coll_put cl id (Object_assign data {[ "id" := Some (JStr id) ]}) in
  (writeStore (<[mockCollection c := cl]> store), id).

Definition serverTimestampMock (t : Z) : jsval := Some (JIso t).

(** The snapshot [tx.get] resolves to: [{ exists: !!data, data: () => data }]. *)
Record snapshot := { snap_exists : bool; data : option mobj }.

(** The transaction object.  Its methods close over the [store] that
    [runTransactionMock] read; here they take it and return it. *)
Record tx := {
  tx_get : docRef -> mstore -> snapshot;
  tx_set : docRef -> mobj -> mstore -> mstore;
  tx_update : docRef -> mobj -> mstore -> mstore
}.

(** A value in argument position of [runTransaction]. *)
Inductive arg :=
  | ArgUndefined
  | ArgDb
  | ArgFn (f : tx -> mstore -> result mstore).

Definition mock_tx (ms : Z) : tx := {|
  tx_get := fun ref store =>
    let d := default [] (store !! col ref) in
    let data := coll_read d (doc_id ref) in
    {| snap_exists := bool_decide (is_Some data); data := data |};
  tx_set := fun ref newData store =>
    let c := default [] (store !! col ref) in
    let id := target_id ref newData ms in
    <[col ref := coll_put c id (Object_assign (default ∅ (coll_read c id)) newData)]> store;
  tx_update := fun ref fields store =>
    let c := default [] (store !! col ref) in
    let id := doc_id ref in
    <[col ref := coll_put c id (Object_assign (default ∅ (coll_read c id)) fields)]> store
|}.

(** [async function runTransactionMock(dbRef, updateFn)]: calling an
    [updateFn] that is not a function throws before anything is written. *)
Definition runTransactionMock (dbRef updateFn : arg) (ms : Z) (ls : option jstore)
  : result (option jstore) :=
  let store := readStore ls in
  match updateFn with
  | ArgFn f =>
      match f (mock_tx ms) store with
      | Ok store => Ok (writeStore store)
      | Throw e => Throw e
      end
  | _ => Throw (TypeError "updateFn is not a function")
  end.

Definition queryMock (c : colRef) : colRef := c.

(** [orderByMock] and [limitMock] take no argument and return [null]. *)
Definition orderByMock : jsval := Some JNull.
Definition limitMock : jsval := Some JNull.

(** *** The wrappers.  [useMockDb] is [true] (see [useMockDb_true]), so each
    wrapper takes its second branch, [mockDB.f(...)]. *)

Definition collection (name : string) : colRef := collectionMock name.

(** [doc(collectionName, id)], the two-argument call every caller makes. *)
Definition doc (c id : string) : docRef := docMock (collectionMock c) id.

Definition setDoc := setDocMock.
Definition addDoc := addDocMock.
Definition onSnapshot := onSnapshotMock.
Definition serverTimestamp := serverTimestampMock.

(** [mockDB.runTransaction(...args)]: the arguments are passed on as they
    came, so the first one lands in [dbRef] and the second in [updateFn];
    a missing argument is [undefined]. *)
Definition runTransaction (args : list arg) (ms : Z) (ls : option jstore)
  : result (option jstore) :=
  runTransactionMock (nth 0 args ArgUndefined) (nth 1 args ArgUndefined) ms ls.

(** [mockDB.query(...args)]: [queryMock] looks at its first argument only. *)
Definition query (c : colRef) (constraints : list jsval) : colRef := queryMock c.
Definition orderBy (field direction : string) : jsval := orderByMock.
Definition limit (n : Z) : jsval := limitMock.

(** *** The component: what an operation can change *)

Record world := {
  localStorage : option jstore;   (* the item under STORAGE_KEY *)
  console : list exn;             (* console.error *)
  alerts : list string            (* alert *)
}.

Definition stored (ls : option jstore) (w : world) : world :=
  {| localStorage := ls; console := console w; alerts := alerts w |}.

Definition failed (e : exn) (msg : string) (w : world) : world :=
  {| localStorage := localStorage w; console := console w ++ [e]; alerts := alerts w ++ [msg] |}.

Definition statusForRecord (r : option mobj) : string :=
  match r with
  | None => "unregistered"
  | Some r =>
      if bool_decide (prop r "status" = Some (JStr "in")) then "in"
      else if bool_decide (prop r "status" = Some (JStr "out")) then "out"
      else if bool_decide (prop r "status" = Some (JStr "returned")) then "returned"
      else if truthy (prop r "late") then "late"
      else "unregistered"
  end.

Definition writeLog (text : string) (k : clock) (w : world) : world :=
  let entry : mobj :=
    <["text" := Some (JStr text)]> (<["ts" := serverTimestamp (log_stamp k)]> ∅) in
  stored (fst (addDoc (collection "outbound_logs") entry (log_ms k) (log_rand k)
                      (localStorage w))) w.

(** The value of [snap && snap.exists ? snap.data() : (snap || null)]:
    [snap] is an object, hence truthy, so the expression is the document
    when the snapshot exists and the snapshot object itself otherwise. *)
Inductive prior :=
  | PriorDoc (d : mobj)
  | PriorSnapshot (s : snapshot)
  | PriorNull.

Definition prior_of (snap : snapshot) : prior :=
  if snap_exists snap
  then match data snap with Some d => PriorDoc d | None => PriorNull end
  else PriorSnapshot snap.

(** [data ? data.returnAt : null]; a snapshot object has the properties
    [exists] and [data] only. *)
Definition prior_returnAt (p : prior) : jsval :=
  match p with
  | PriorDoc d => prop d "returnAt"
  | PriorSnapshot _ => None
  | PriorNull => Some JNull
  end.

(** The object literal [newData] of [markOut], given the value read for
    [returnAt]. *)
Definition newData (name place : string) (k : clock) (returnAt : jsval) : mobj :=
  <["name" := Some (JStr name)]> (
  <["outAt" := Some (JIso (now k))]> (
  <["returnAt" := returnAt]> (
  <["place" := Some (JStr (if bool_decide (place ≠ EmptyString) then place else "(unspecified)"))]> (
  <["status" := Some (JStr "out")]> (
  <["lastUpdated" := serverTimestamp (stamp k)]> ∅))))).

(** The function [markOut] hands to [runTransaction]. *)
Definition markOut_update (name place : string) (k : clock) (ref : docRef)
  : tx -> mstore -> result mstore :=
  fun t store =>
    let snap := tx_get t ref store in
    let data := prior_of snap in
    Ok (tx_set t ref (newData name place k (prior_returnAt data)) store).

Definition markOut (name place : string) (k : clock) (w : world) : world :=
  let ref := doc "outbound_records" name in
  match runTransaction [ArgFn (markOut_update name place k ref)] (doc_ms k) (localStorage w) with
  | Ok ls =>
      writeLog (name +:+ " marked OUT at " +:+ JsDate.toISOString (now k) +:+ " to " +:+ place)
               k (stored ls w)
  | Throw e => failed e "Failed to mark out - try again" w
  end.

(** The two object literals of [markReturn]: the document it creates and
    the fields it updates. *)
Definition returned_doc (name : string) (k : clock) : mobj :=
  <["name" := Some (JStr name)]> (
  <["outAt" := Some JNull]> (
  <["returnAt" := Some (JIso (now k))]> (
  <["place" := Some JNull]> (
  <["status" := Some (JStr "returned")]> (
  <["lastUpdated" := serverTimestamp (stamp k)]> ∅))))).

Definition returned_fields (k : clock) : mobj :=
  <["returnAt" := Some (JIso (now k))]> (
  <["status" := Some (JStr "returned")]> (
  <["lastUpdated" := serverTimestamp (stamp k)]> ∅)).

(** The function [markReturn] hands to [runTransaction]. *)
Definition markReturn_update (name : string) (k : clock) (ref : docRef)
  : tx -> mstore -> result mstore :=
  fun t store =>
    let snap := tx_get t ref store in
    if negb (snap_exists snap)
    then Ok (tx_set t ref (returned_doc name k) store)
    else Ok (tx_update t ref (returned_fields k) store).

Definition markReturn (name : string) (k : clock) (w : world) : world :=
  let ref := doc "outbound_records" name in
  match runTransaction [ArgFn (markReturn_update name k ref)] (doc_ms k) (localStorage w) with
  | Ok ls =>
      writeLog (name +:+ " RETURNED at " +:+ JsDate.toISOString (now k)) k (stored ls w)
  | Throw e => failed e "Failed to mark return - try again" w
  end.

Definition cleared (name : string) (k : clock) : mobj :=
  <["name" := Some (JStr name)]> (
  <["outAt" := Some JNull]> (
  <["returnAt" := Some JNull]> (
  <["place" := Some JNull]> (
  <["status" := Some (JStr "unregistered")]> (
  <["lastUpdated" := serverTimestamp (stamp k)]> ∅))))).

(** The fields [deleteRecord] writes. *)
Definition cleared_fields : list string :=
  ["name"; "outAt"; "returnAt"; "place"; "status"; "lastUpdated"].

Definition deleteRecord (name : string) (k : clock) (w : world) : world :=
  let ref := doc "outbound_records" name in
  let w := stored (setDoc ref (cleared name k) (doc_ms k) (localStorage w)) w in
  writeLog (name +:+ " record cleared") k w.

Definition addEmployee (name : string) (k : clock) (w : world) : world :=
  if bool_decide (name = EmptyString) then w
  else
    let w := stored (setDoc (doc "outbound_records" name) (
               <["name" := Some (JStr name)]> (
               <["status" := Some (JStr "unregistered")]> (
               <["createdAt" := serverTimestamp (stamp k)]> ∅))) (doc_ms k) (localStorage w)) w in
    writeLog ("Admin added employee " +:+ name) k w.

Definition removeEmployee (name : string) (k : clock) (w : world) : world :=
  let w := stored (setDoc (doc "outbound_records" name) (
             <["status" := Some (JStr "removed")]> (
             <["lastUpdated" := serverTimestamp (stamp k)]> ∅)) (doc_ms k) (localStorage w)) w in
  writeLog ("Admin removed employee " +:+ name) k w.

(** *** The two subscriptions of the component *)

Definition records_query : colRef := query (collection "outbound_records") [].

(** "subscribe logs (last 50 entries)" *)
Definition logs_query : colRef :=
  query (collection "outbound_logs") [orderBy "ts" "desc"; limit 50].

(** The listeners: [setRecords(map)] and [setLogs(arr)]. *)
Definition records_listener (snap : list docSnap) (_ : list (string * mobj))
  : list (string * mobj) :=
  foldl (fun m d => coll_put m (snap_id d) (snap_data d)) [] snap.

Definition logs_listener (snap : list docSnap) (_ : list mobj) : list mobj :=
  (fun d => spread {[ "id" := Some (JStr (snap_id d)) ]} (snap_data d)) <$> snap.

(** What the log listener receives from a poll of the store [ls]. *)
Definition logs_feed (ls : option jstore) : list mobj :=
  logs_listener (buildSnap (colName (onSnapshot logs_query)) ls) [].

(** The instant in the [ts] field of a delivered log entry. *)
Definition entry_time (e : mobj) : Z :=
  match prop e "ts" with
  | Some (JIso t) => t
  | _ => 0%Z
  end.

(** *** The five operations as one labelled step *)

Inductive op :=
  | MarkOut (name place : string)
  | MarkReturn (name : string)
  | DeleteRecord (name : string)
  | AddEmployee (name : string)
  | RemoveEmployee (name : string).

Definition run (o : op) (k : clock) (w : world) : world :=
  match o with
  | MarkOut name place => markOut name place k w
  | MarkReturn name => markReturn name k w
  | DeleteRecord name => deleteRecord name k w
  | AddEmployee name => addEmployee name k w
  | RemoveEmployee name => removeEmployee name k w
  end.

Definition run_all (l : list (op * clock)) (w : world) : world :=
  foldl (fun w ok => run (fst ok) (snd ok) w) w l.

(** The component starts after [makeMockDB] ran [ensure] on an empty
    localStorage. *)
Definition initial : world :=
  {| localStorage := ensure None; console := []; alerts := [] |}.

(** *** Reading the stored state *)

(** The documents of a collection as [readStore] finds them in
    localStorage, in the order of [Object.keys]. *)
Definition stored_docs (colName : string) (ls : option jstore) : list (string * jobj) :=
  match ls with
  | Some s => parse_members (default [] (s !! colName))
  | None => []
  end.

Definition record_of (ls : option jstore) (id : string) : option jobj :=
  coll_get (stored_docs "outbound_records" ls) id.

(** The stored form of [Object.assign({}, old || {}, data)]. *)
Definition merged (old : option jobj) (data : mobj) : jobj :=
  stringify_obj (Object_assign (parse_obj (default ∅ old)) data).

(** The stored form of the entry [writeLog] adds. *)
Definition log_entry (text : string) (k : clock) : jobj :=
  stringify_obj (Object_assign
    (<["text" := Some (JStr text)]> (<["ts" := serverTimestamp (log_stamp k)]> ∅))
    {[ "id" := Some (JStr (log_id (log_ms k) (log_rand k))) ]}).

(** The id under which an operation on employee [name] writes. *)
Definition written_id (name : string) (k : clock) : string :=
  if bool_decide (name ≠ EmptyString) then name else "doc_" +:+ pretty (doc_ms k).

(** *** The record invariant *)

(** [v != null] *)
Definition present (v : jsval) : bool :=
  match v with
  | None | Some JNull => false
  | Some _ => true
  end.

(** [returnAt >= outAt] when both are timestamps. *)
Definition not_before (outAt returnAt : jsval) : bool :=
  match outAt, returnAt with
  | Some (JIso a), Some (JIso b) => (a <=? b)%Z
  | _, _ => true
  end.

Definition record_ok (r : jobj) : bool :=
  (if bool_decide (r !! "status" = Some (JStr "out")) then present (r !! "outAt") else true) &&
  (if bool_decide (r !! "status" = Some (JStr "returned"))
   then present (r !! "returnAt") && not_before (r !! "outAt") (r !! "returnAt")
   else true).

(** The name a document carries, when it carries one that is not empty,
    is the id it is stored under. *)
Definition named_by (id : string) (r : jobj) : bool :=
  match r !! "name" with
  | Some (JStr n) => bool_decide (n = EmptyString) || bool_decide (n = id)
  | _ => true
  end.

Definition doc_ok (d : string * jobj) : bool := record_ok d.2 && named_by d.1 d.2.

(** At most one record per employee id (no id twice, and no document under
    another employee's id), and every record well formed. *)
Definition invariant_of (ls : option jstore) : Prop :=
  NoDup (stored_docs "outbound_records" ls).*1 /\
  Forall (fun d => doc_ok d = true) (stored_docs "outbound_records" ls).

Definition invariant (w : world) : Prop := invariant_of (localStorage w).

(** No stored [outAt] is later than [t]. *)
Definition out_by (t : Z) (ls : option jstore) : Prop :=
  Forall (fun d => not_before (d.2 !! "outAt") (Some (JIso t)) = true)
         (stored_docs "outbound_records" ls).

(** *** Login by PIN and the summary counters *)

(** [DEMO_PINS], in the order of the object literal.  (A name that is a
    member of [Object.prototype] reads as a function, which is never
    [===] to the typed PIN: it behaves as a missing name.) *)
Definition DEMO_PINS : list (string * string) := [
  ("Kim", "1111"); ("Lee", "2222"); ("Park", "3333"); ("Choi", "4444");
  ("Jung", "5555"); ("Han", "6666"); ("Yoon", "7777"); ("admin", "0000")
].

(** The state of the component that the login handlers touch. *)
Record ui := {
  selectedName : option string;            (* null or the chosen name *)
  pin : string;
  currentUser : option (string * string);  (* {name, uid} *)
  isAdminMode : bool;
  showAdminPanel : bool
}.

Definition alert (msg : string) (w : world) : world :=
  {| localStorage := localStorage w; console := console w; alerts := alerts w ++ [msg] |}.

Definition handleSelectName (name : string) (u : ui) : ui :=
  {| selectedName := Some name; pin := EmptyString; currentUser := currentUser u;
     isAdminMode := isAdminMode u; showAdminPanel := showAdminPanel u |}.

Definition handleSubmitPin (k : clock) (st : ui * world) : ui * world :=
  let '(u, w) := st in
  match selectedName u with
  | None => st
  | Some name =>
      if bool_decide (name = EmptyString) then st
      else if match coll_get DEMO_PINS name with
              | Some p => bool_decide (p ≠ EmptyString) && bool_decide (p = pin u)
              | None => false
              end
      then ({| selectedName := None; pin := EmptyString;
               currentUser := Some (name, "user_" +:+ name);
               isAdminMode := isAdminMode u; showAdminPanel := showAdminPanel u |},
            writeLog (name +:+ " logged in (PIN)") k w)
      else if bool_decide (name = "admin") &&
              bool_decide (Some (pin u) = coll_get DEMO_PINS "admin")
      then ({| selectedName := selectedName u; pin := pin u;
               currentUser := Some ("admin", "admin");
               isAdminMode := true; showAdminPanel := true |},
            writeLog "admin logged in" k w)
      else (u, alert "Wrong PIN" w)
  end.

(** [stats]: the counters of the summary line, over the [records] state. *)
Record counters := {
  inCount : nat;
  outCount : nat;
  returnedCount : nat;
  unreg : nat
}.

Definition count_record (c : counters) (r : mobj) : counters :=
  if negb (truthy (prop r "status")) || bool_decide (prop r "status" = Some (JStr "unregistered"))
  then {| inCount := inCount c; outCount := outCount c;
          returnedCount := returnedCount c; unreg := S (unreg c) |}
  else if bool_decide (prop r "status" = Some (JStr "in"))
  then {| inCount := S (inCount c); outCount := outCount c;
          returnedCount := returnedCount c; unreg := unreg c |}
  else if bool_decide (prop r "status" = Some (JStr "out"))
  then {| inCount := inCount c; outCount := S (outCount c);
          returnedCount := returnedCount c; unreg := unreg c |}
  else if bool_decide (prop r "status" = Some (JStr "returned"))
  then {| inCount := inCount c; outCount := outCount c;
          returnedCount := S (returnedCount c); unreg := unreg c |}
  else c.

Definition stats (records : list (string * mobj)) : counters :=
  foldl (fun c d => count_record c d.2)
        {| inCount := 0; outCount := 0; returnedCount := 0; unreg := 0 |} records.

(** The [records] state after a poll of the store [ls]. *)
Definition records_feed (ls : option jstore) : list (string * mobj) :=
  records_listener (buildSnap (colName (onSnapshot records_query)) ls) [].

(** The stored state after an operation that merges [data] into the
    document [id] and then logs the entry [e] under [lid], as a function
    of the state before. *)
Definition after_setDoc_and_log (id : string) (data : mobj) (lid : string) (e : jobj)
    (ls : option jstore) : option jstore :=
  Some (<["outbound_logs" := coll_put (stored_docs "outbound_logs" ls) lid e]>
       (<["outbound_records" :=
            coll_put (stored_docs "outbound_records" ls) id
              (merged (coll_get (stored_docs "outbound_records" ls) id) data)]>
          (stringify_store (readStore ls)))).

(** Either of the two operations that go through [runTransaction]. *)
Definition is_mark (o : op) : bool :=
  match o with
  | MarkOut _ _ | MarkReturn _ => true
  | _ => false
  end.

(** A status that [stats] counts in none of its four counters. *)
Definition uncounted (r : mobj) : bool :=
  truthy (prop r "status") &&
  negb (bool_decide (prop r "status" = Some (JStr "unregistered"))) &&
  negb (bool_decide (prop r "status" = Some (JStr "in"))) &&
  negb (bool_decide (prop r "status" = Some (JStr "out"))) &&
  negb (bool_decide (prop r "status" = Some (JStr "returned"))).

Definition counted_total (c : counters) : nat :=
  inCount c + outCount c + returnedCount c + unreg c.

(** The statuses the operations leave, as the component runs them. *)
Definition idle (d : string * jobj) : Prop :=
  d.2 !! "status" = Some (JStr "unregistered") \/ d.2 !! "status" = Some (JStr "removed").

End Board.

(** ** The server (Express handlers over in-memory arrays) *)

Module Server.

Local Open Scope Z_scope.

Record user := {
  u_id : Z;
  u_name : string;
  u_password : string;
  u_role : string;
  u_department : string
}.

Definition users : list user := [
  {| u_id := 1; u_name := "김민수"; u_password := "1234"; u_role := "employee"; u_department := "영업팀" |};
  {| u_id := 2; u_name := "이지연"; u_password := "1234"; u_role := "employee"; u_department := "마케팅팀" |};
  {| u_id := 3; u_name := "박성훈"; u_password := "1234"; u_role := "employee"; u_department := "개발팀" |};
  {| u_id := 4; u_name := "정유진"; u_password := "1234"; u_role := "employee"; u_department := "디자인팀" |};
  {| u_id := 5; u_name := "최태영"; u_password := "1234"; u_role := "employee"; u_department := "영업팀" |};
  {| u_id := 6; u_name := "한소희"; u_password := "1234"; u_role := "employee"; u_department := "관리팀" |};
  {| u_id := 7; u_name := "윤도현"; u_password := "1234"; u_role := "admin"; u_department := "관리팀" |}
].

(** An element of [outbounds].  Dates are milliseconds since the epoch.
    [outTime] is [new Date(outTime)] of whatever the request carried: [None]
    is the Invalid Date that a missing or unreadable [outTime] gives.
    [expectedReturnTime] is [null] or such a date.  [inTime] is absent
    until the record is returned. *)
Record outbound := {
  o_id : Z;
  o_userId : Z;
  o_userName : string;
  o_department : string;
  o_outTime : option Z;
  o_expectedReturnTime : option (option Z);
  o_location : string;
  o_status : string;
  o_createdAt : Z;
  o_inTime : option Z
}.

(** An element of [systemLogs]. *)
Record log := {
  l_userId : Z;
  l_userName : string;
  l_action : string;
  l_timestamp : Z;
  l_ip : string
}.

Record state := {
  outbounds : list outbound;
  systemLogs : list log
}.

Definition start : state := {| outbounds := []; systemLogs := [] |}.

(** [req.user], the payload of the verified token. *)
Record session := { s_id : Z; s_name : string; s_role : string }.

Inductive response (A : Type) :=
  | Json (a : A)
  | Status (code : Z) (error : string).
Arguments Json {A} a.
Arguments Status {A} code error.

Definition STATUS_COLORS (status : string) : string :=
  if bool_decide (status = "office") then "#4285F4"
  else if bool_decide (status = "outbound") then "#FBBC05"
  else if bool_decide (status = "returned") then "#9AA0A6"
  else if bool_decide (status = "absent") then "#EA4335"
  else if bool_decide (status = "vacation") then "#8E44AD"
  else EmptyString.

(** [POST /api/outbounds].  The handler runs synchronously; its readings of
    the clock ([Date.now()], [new Date()]) are the one instant [now]. *)
Definition post_outbounds (who : session) (location : string) (outTime : option Z)
    (expectedReturnTime : option (option Z)) (ip : string) (now : Z) (st : state)
  : state * response outbound :=
  let outbound := {|
    o_id := now;
    o_userId := s_id who;
    o_userName := s_name who;
    o_department := default EmptyString (u_department <$> find (fun u => bool_decide (u_id u = s_id who)) users);
    o_outTime := outTime;
    o_expectedReturnTime := expectedReturnTime;
    o_location := location;
    o_status := "outbound";
    o_createdAt := now;
    o_inTime := None |} in
  ({| outbounds := outbounds st ++ [outbound];
      systemLogs := systemLogs st ++ [
        {| l_userId := s_id who; l_userName := s_name who;
           l_action := "outbound_created: " +:+ location;
           l_timestamp := now; l_ip := ip |}] |},
   Json outbound).

(** [outbound.inTime = new Date(); outbound.status = 'returned'] on the
    element [find] returned: the first one with the id. *)
Fixpoint mark_returned (id now : Z) (l : list outbound) : list outbound :=
  match l with
  | [] => []
  | o :: l' =>
      if bool_decide (o_id o = id)
      then {| o_id := o_id o; o_userId := o_userId o; o_userName := o_userName o;
              o_department := o_department o; o_outTime := o_outTime o;
              o_expectedReturnTime := o_expectedReturnTime o; o_location := o_location o;
              o_status := "returned"; o_createdAt := o_createdAt o;
              o_inTime := Some now |} :: l'
      else o :: mark_returned id now l'
  end.

(** [PUT /api/outbounds/:id/return] *)
Definition put_return (who : session) (outboundId : Z) (ip : string) (now : Z) (st : state)
  : state * response outbound :=
  match find (fun o => bool_decide (o_id o = outboundId)) (outbounds st) with
  | None => (st, Status 404 "Outbound record not found")
  | Some o =>
      let l := mark_returned outboundId now (outbounds st) in
      ({| outbounds := l;
          systemLogs := systemLogs st ++ [
            {| l_userId := s_id who; l_userName := s_name who;
               l_action := "outbound_returned: " +:+ o_location o;
               l_timestamp := now; l_ip := ip |}] |},
       match find (fun o => bool_decide (o_id o = outboundId)) l with
       | Some o' => Json o'
       | None => Json o
       end)
  end.

(** [outbounds.splice(outboundIndex, 1)] at the first element with the id. *)
Fixpoint splice_first (id : Z) (l : list outbound) : list outbound :=
  match l with
  | [] => []
  | o :: l' => if bool_decide (o_id o = id) then l' else o :: splice_first id l'
  end.

(** [DELETE /api/outbounds/:id] *)
Definition delete_outbound (who : session) (outboundId : Z) (ip : string) (now : Z) (st : state)
  : state * response string :=
  match find (fun o => bool_decide (o_id o = outboundId)) (outbounds st) with
  | None => (st, Status 404 "Outbound record not found")
  | Some deleted =>
      ({| outbounds := splice_first outboundId (outbounds st);
          systemLogs := systemLogs st ++ [
            {| l_userId := s_id who; l_userName := s_name who;
               l_action := "outbound_deleted: " +:+ o_location deleted;
               l_timestamp := now; l_ip := ip |}] |},
       Json "Outbound record deleted successfully")
  end.

(** [req.query.limit]: missing, a numeral, or a text that is not a number. *)
Inductive query_limit :=
  | LimitMissing
  | LimitNumber (n : Z)
  | LimitNaN.

(** [arr.slice(start)] for an integral [start]; [NaN] counts as [0]. *)
Definition slice_from {A : Type} (start : Z) (l : list A) : list A :=
  let len := Z.of_nat (length l) in
  let k := if start <? 0 then Z.max (len + start) 0 else Z.min start len in
  drop (Z.to_nat k) l.

(** [GET /api/admin/logs]: [systemLogs.slice(-limit).reverse()] with
    [limit = 100] when the query has none.  [slice] copies, so [reverse]
    works on the copy. *)
Definition get_logs (q : query_limit) (st : state) : state * list log :=
  let start :=
    match q with
    | LimitMissing => - 100
    | LimitNumber n => - n
    | LimitNaN => 0
    end in
  (st, reverse (slice_from start (systemLogs st))).

(** Timestamps in the order of the array: never decreasing, never
    increasing. *)
Fixpoint ascending (l : list Z) : bool :=
  match l with
  | a :: (b :: _) as l' => (a <=? b) && ascending l'
  | _ => true
  end.

Fixpoint descending (l : list Z) : bool :=
  match l with
  | a :: (b :: _) as l' => (b <=? a) && descending l'
  | _ => true
  end.

Record userStatus := {
  us_userId : Z;
  us_userName : string;
  us_department : string;
  us_status : string;
  us_statusText : string;
  us_color : string;
  us_currentLocation : string;
  us_lastUpdate : Z
}.

Record summary := {
  total : nat;
  office : nat;
  outbound_count : nat;
  returned : nat;
  absent : nat;
  vacation : nat;
  summary_users : list userStatus
}.

Section Summary.

(** The zone of the host (its offset at each instant, in milliseconds),
    and the state the function reads; [now] stands for the [new Date()]
    readings of one call. *)
Variable zone : Z -> Z.
Variable roster : list user.
Variable records : list outbound.
Variable now : Z.

Definition statusOfUser (u : user) : userStatus :=
  let currentOutbound :=
    find (fun o => bool_decide (o_userId o = u_id u) && bool_decide (o_status o = "outbound"))
         records in
  let initial :=
    if currentOutbound is Some _ then ("outbound", "외근 중") else ("office", "사무실") in
  let currentHour := JsDate.getHours zone now in
  let currentDay := JsDate.getDay zone now in
  let final :=
    if (currentDay =? 0) || (currentDay =? 6) then ("vacation", "휴일")
    else if (currentHour <? 9) || (currentHour >=? 18) then ("absent", "퇴근")
    else if (currentHour >=? 9) && negb (bool_decide (is_Some currentOutbound)) then
      let todayOutbounds :=
        filter (fun o => o_userId o = u_id u /\
                         JsDate.sameDateString zone (o_createdAt o) now = true) records in
      if (length todayOutbounds =? 0)%nat then ("absent", "미등록") else initial
    else initial in
  {| us_userId := u_id u;
     us_userName := u_name u;
     us_department := u_department u;
     us_status := fst final;
     us_statusText := snd final;
     us_color := STATUS_COLORS (fst final);
     us_currentLocation :=
       match currentOutbound with Some o => o_location o | None => "사무실" end;
     us_lastUpdate := now |}.

Definition count_status (status : string) (l : list userStatus) : nat :=
  length (filter (fun s => us_status s = status) l).

Definition getStatusSummary : summary :=
  let userStatus := statusOfUser <$> roster in
  {| total := length roster;
     office := count_status "office" userStatus;
     outbound_count := count_status "outbound" userStatus;
     returned := count_status "returned" userStatus;
     absent := count_status "absent" userStatus;
     vacation := count_status "vacation" userStatus;
     summary_users := userStatus |}.

End Summary.

(** *** The other routes *)

(** [Array.prototype.sort(comparefn)] belongs to the engine.  ECMAScript
    fixes what it returns only for a comparator that is consistent on the
    elements of the array: then the result is in the order of the
    comparator, elements that compare equal keeping their order (the sort
    is stable).  For any other comparator the result is some rearrangement
    of the array, which one is left to the engine.  A comparator returns a
    number, [None] standing for [NaN]. *)
Section Sort.

Context {A : Type}.
Implicit Types (cmp : A -> A -> option Z) (sort : (A -> A -> option Z) -> list A -> list A).

Definition before cmp (a b : A) : Prop := exists v, cmp a b = Some v /\ v < 0.
Definition level cmp (a b : A) : Prop := cmp a b = Some 0.
Definition after cmp (a b : A) : Prop := exists v, cmp a b = Some v /\ 0 < v.

(** "A consistent comparison function for a set of values": never [NaN],
    and the three relations it defines are those of an ordering. *)
Definition consistent_comparator cmp (l : list A) : Prop :=
  forall a b c, a ∈ l -> b ∈ l -> c ∈ l ->
    is_Some (cmp a b) /\
    level cmp a a /\
    (level cmp a b -> level cmp b a) /\
    (level cmp a b -> level cmp b c -> level cmp a c) /\
    (before cmp a b -> before cmp b c -> before cmp a c) /\
    (after cmp a b -> after cmp b c -> after cmp a c).

(** The stable sort, by insertion from the right: [x], which stood ahead
    of every element of [l], goes ahead of the first element it is not
    to come after. *)
Fixpoint insert_sorted cmp (x : A) (l : list A) : list A :=
  match l with
  | [] => [x]
  | y :: l' =>
      if (if cmp x y is Some v then v <=? 0 else true) then x :: y :: l'
      else y :: insert_sorted cmp x l'
  end.

Definition stable_sort cmp (l : list A) : list A := foldr (insert_sorted cmp) [] l.

(** What ECMAScript requires of every engine. *)
Definition sort_contract sort : Prop :=
  (forall cmp l, sort cmp l ≡ₚ l) /\
  (forall cmp l, consistent_comparator cmp l -> sort cmp l = stable_sort cmp l).

End Sort.

(** The comparator of [getCurrentOutbounds],
    [new Date(b.outTime) - new Date(a.outTime)]: the later [outTime] first,
    and [NaN] when either date is invalid. *)
Definition by_outTime_desc (a b : outbound) : option Z :=
  match o_outTime b, o_outTime a with
  | Some tb, Some ta => Some (tb - ta)
  | _, _ => None
  end.

(** [getCurrentOutbounds], on an engine whose [sort] is [sort]. *)
Definition getCurrentOutbounds (sort : (outbound -> outbound -> option Z) ->
                                      list outbound -> list outbound)
    (st : state) : list outbound :=
  sort by_outTime_desc (filter (fun o => o_status o = "outbound") (outbounds st)).

(** [a] is listed ahead of [b] rightly: both dates are valid and that of
    [b] is not the later one. *)
Definition not_later (a b : outbound) : Prop :=
  match o_outTime a, o_outTime b with
  | Some ta, Some tb => tb <= ta
  | _, _ => False
  end.

(** [POST /api/login].  The token is [jwt.sign] of the payload, held here
    by the payload; the [userAgent] of the log entry is not kept. *)
Record login_reply := {
  token : session;
  reply_user : Z * string * string * string   (* id, name, role, department *)
}.

Definition login (name password ip : string) (now : Z) (st : state)
  : state * response login_reply :=
  match find (fun u => bool_decide (u_name u = name) && bool_decide (u_password u = password))
             users with
  | Some user =>
      ({| outbounds := outbounds st;
          systemLogs := systemLogs st ++ [
            {| l_userId := u_id user; l_userName := u_name user; l_action := "login";
               l_timestamp := now; l_ip := ip |}] |},
       Json {| token := {| s_id := u_id user; s_name := u_name user; s_role := u_role user |};
               reply_user := (u_id user, u_name user, u_role user, u_department user) |})
  | None => (st, Status 401 "Invalid credentials")
  end.

(** [s.split(' ')] *)
Fixpoint split_spaces (cur : string) (s : string) : list string :=
  match s with
  | EmptyString => [cur]
  | String c s' =>
      if bool_decide (String c EmptyString = " ") then cur :: split_spaces EmptyString s'
      else split_spaces (cur +:+ String c EmptyString) s'
  end.

(** [authenticateToken]: [verify] stands for [jwt.verify] with the secret
    of the server; the result is [req.user] or the response that ends the
    request. *)
Definition authenticateToken (verify : string -> option session) (authorization : option string)
  : session + (Z * string) :=
  match authorization ≫= (fun h => split_spaces EmptyString h !! 1%nat) with
  | None => inr (401, "Access token required")
  | Some tok =>
      if bool_decide (tok = EmptyString) then inr (401, "Access token required")
      else match verify tok with
           | Some user => inl user
           | None => inr (403, "Invalid token")
           end
  end.

(** [requireAdmin] *)
Definition requireAdmin (user : session) : option (Z * string) :=
  if bool_decide (s_role user ≠ "admin") then Some (403, "Admin access required") else None.

(** [GET /api/admin/logs] behind its two middlewares. *)
Definition admin_logs (verify : string -> option session) (authorization : option string)
    (q : query_limit) (st : state) : state * response (list log) :=
  match authenticateToken verify authorization with
  | inr (code, error) => (st, Status code error)
  | inl user =>
      match requireAdmin user with
      | Some (code, error) => (st, Status code error)
      | None => let '(st', view) := get_logs q st in (st', Json view)
      end
  end.

(** The three handlers that change [outbounds], as one labelled step. *)
Inductive request :=
  | PostOutbound (who : session) (location : string) (outTime : option Z)
                 (expectedReturnTime : option (option Z))
  | PutReturn (who : session) (outboundId : Z)
  | DeleteOutbound (who : session) (outboundId : Z).

Definition handle (r : request) (ip : string) (now : Z) (st : state) : state :=
  match r with
  | PostOutbound who location outTime ert => (post_outbounds who location outTime ert ip now st).1
  | PutReturn who id => (put_return who id ip now st).1
  | DeleteOutbound who id => (delete_outbound who id ip now st).1
  end.

Definition handle_all (l : list (request * string * Z)) (st : state) : state :=
  foldl (fun st r => handle r.1.1 r.1.2 r.2 st) st l.

(** A record is open without an [inTime], or returned with one. *)
Definition consistent (o : outbound) : Prop :=
  (o_status o = "outbound" /\ o_inTime o = None) \/
  (o_status o = "returned" /\ is_Some (o_inTime o)).

(** [inTime] and [status] as the return handler sets them. *)
Definition returned_at (now : Z) (o : outbound) : outbound :=
  {| o_id := o_id o; o_userId := o_userId o; o_userName := o_userName o;
     o_department := o_department o; o_outTime := o_outTime o;
     o_expectedReturnTime := o_expectedReturnTime o; o_location := o_location o;
     o_status := "returned"; o_createdAt := o_createdAt o;
     o_inTime := Some now |}.

End Server.

(** * Properties *)

(** ** Dates *)

Example toISOString_epoch : JsDate.toISOString 0 = "1970-01-01T00:00:00.000Z".
Proof. vm_compute. reflexivity. Qed.

Example toISOString_2023 : JsDate.toISOString 1700000000000 = "2023-11-14T22:13:20.000Z".
Proof. vm_compute. reflexivity. Qed.

Example toISOString_leap : JsDate.toISOString 1709210096789 = "2024-02-29T12:34:56.789Z".
Proof. vm_compute. reflexivity. Qed.

Example getDay_2023 :
  JsDate.getDay (JsDate.fixed_zone 0) 1700000000000 = 2%Z /\
  JsDate.getHours (JsDate.fixed_zone 0) 1700000000000 = 22%Z.
Proof. vm_compute. auto. Qed.

(** ** Objects whose keys are enumerated *)

Lemma array_index_canonical k n : array_index k = Some n -> k = pretty n.
Proof.
  unfold array_index. destruct (numeral k 0) as [m|]; [|done].
  case_bool_decide as Hk; cbn [andb]; [|done].
  destruct (m <? 4294967295)%N; [|done]. by intros [= <-].
Qed.

Lemma array_index_inj k k' n : array_index k = Some n -> array_index k' = Some n -> k = k'.
Proof. intros ->%array_index_canonical ->%array_index_canonical. done. Qed.

Lemma precedes_trans k1 k2 k3 : precedes k1 k2 -> precedes k2 k3 -> precedes k1 k3.
Proof.
  unfold precedes.
  destruct (array_index k1), (array_index k2), (array_index k3); try done. lia.
Qed.

Lemma precedes_irrefl_index k n : array_index k = Some n -> ~ precedes k k.
Proof. unfold precedes. intros ->. lia. Qed.

Section Collections.

Context {V : Type}.
Implicit Types (c : list (string * V)) (k : string) (v : V).

Lemma coll_get_None c k : coll_get c k = None <-> k ∉ c.*1.
Proof.
  induction c as [|[k0 u] c IH]; cbn [coll_get].
  - split; [intros _; apply not_elem_of_nil | done].
  - rewrite fmap_cons, not_elem_of_cons. cbn [fst].
    destruct (decide (k0 = k)) as [->|Hk].
    + split; [done | intros [Hk _]; by destruct Hk].
    + rewrite IH. split; [intros Hn; split; [congruence | done] | by intros [_ Hn]].
Qed.

Lemma coll_get_Some c k : is_Some (coll_get c k) <-> k ∈ c.*1.
Proof.
  rewrite <- not_eq_None_Some, coll_get_None.
  split; [apply dec_stable | by intros ? ?].
Qed.

Lemma coll_replace_keys c k v : (coll_replace c k v).*1 = c.*1.
Proof.
  induction c as [|[k0 u] c IH]; [done |]. cbn [coll_replace].
  destruct (decide (k0 = k)); rewrite !fmap_cons; cbn [fst]; [done | by rewrite IH].
Qed.

Lemma coll_get_replace_eq c k v :
  is_Some (coll_get c k) -> coll_get (coll_replace c k v) k = Some v.
Proof.
  induction c as [|[k0 u] c IH]; cbn [coll_get coll_replace]; [by intros [? ?] |].
  destruct (decide (k0 = k)) as [->|Hk]; cbn [coll_get].
  - by rewrite decide_True.
  - rewrite decide_False by done. apply IH.
Qed.

Lemma coll_get_replace_ne c k k' v :
  k ≠ k' -> coll_get (coll_replace c k v) k' = coll_get c k'.
Proof.
  intros Hne. induction c as [|[k0 u] c IH]; cbn [coll_get coll_replace]; [done |].
  destruct (decide (k0 = k)) as [->|Hk]; cbn [coll_get].
  - by rewrite !decide_False.
  - by rewrite IH.
Qed.

Lemma coll_replace_Forall (P : string * V -> Prop) c k v :
  Forall P c -> P (k, v) -> Forall P (coll_replace c k v).
Proof.
  intros Hc Hv. induction Hc as [|[k0 w] c Hw Hc IH]; cbn [coll_replace]; [done |].
  destruct (decide (k0 = k)) as [->|Hk]; constructor; auto.
Qed.

Lemma coll_replace_replace c k v w :
  coll_replace (coll_replace c k v) k w = coll_replace c k w.
Proof.
  induction c as [|[k0 u] c IH]; cbn [coll_replace]; [done |].
  destruct (decide (k0 = k)) as [->|Hk]; cbn [coll_replace].
  - by rewrite decide_True.
  - by rewrite decide_False, IH.
Qed.

Lemma coll_insert_index_perm c n k v : coll_insert_index c n k v ≡ₚ (k, v) :: c.
Proof.
  induction c as [|[k0 u] c IH]; cbn [coll_insert_index]; [done |].
  destruct (array_index k0) as [m|]; [|done].
  destruct (m <? n)%N; [|done]. rewrite IH. apply Permutation_swap.
Qed.

Lemma coll_create_perm c k v : coll_create c k v ≡ₚ (k, v) :: c.
Proof.
  unfold coll_create. destruct (array_index k).
  - apply coll_insert_index_perm.
  - by rewrite Permutation_app_comm.
Qed.

Lemma coll_get_insert_index_eq c n k v :
  coll_get c k = None -> coll_get (coll_insert_index c n k v) k = Some v.
Proof.
  induction c as [|[k0 u] c IH]; cbn [coll_get coll_insert_index].
  - by rewrite decide_True.
  - destruct (decide (k0 = k)) as [->|Hk]; [done |]. intros Hnone.
    destruct (array_index k0) as [m|]; [destruct (m <? n)%N |]; cbn [coll_get].
    + rewrite decide_False by done. by apply IH.
    + by rewrite decide_True.
    + by rewrite decide_True.
Qed.

Lemma coll_get_insert_index_ne c n k k' v :
  k ≠ k' -> coll_get (coll_insert_index c n k v) k' = coll_get c k'.
Proof.
  intros Hne. induction c as [|[k0 u] c IH]; cbn [coll_get coll_insert_index].
  - by rewrite decide_False.
  - destruct (array_index k0) as [m|]; [destruct (m <? n)%N |]; cbn [coll_get].
    + by rewrite IH.
    + by rewrite decide_False.
    + by rewrite decide_False.
Qed.

Lemma coll_get_app c c' k :
  coll_get (c ++ c') k = if coll_get c k is Some x then Some x else coll_get c' k.
Proof.
  induction c as [|[k0 u] c IH]; cbn [app coll_get]; [done |].
  by destruct (decide (k0 = k)).
Qed.

Lemma coll_get_create_eq c k v : coll_get c k = None -> coll_get (coll_create c k v) k = Some v.
Proof.
  intros Hnone. unfold coll_create. destruct (array_index k).
  - by apply coll_get_insert_index_eq.
  - rewrite coll_get_app, Hnone. cbn. by rewrite decide_True.
Qed.

Lemma coll_get_create_ne c k k' v : k ≠ k' -> coll_get (coll_create c k v) k' = coll_get c k'.
Proof.
  intros Hne. unfold coll_create. destruct (array_index k).
  - by apply coll_get_insert_index_ne.
  - rewrite coll_get_app. destruct (coll_get c k'); [done |]. cbn. by rewrite decide_False.
Qed.

(** *** Assignment *)

Lemma coll_get_put_eq c k v :
  k ≠ "__proto__" \/ is_Some (coll_get c k) -> coll_get (coll_put c k v) k = Some v.
Proof.
  intros Hk. unfold coll_put. destruct (coll_get c k) as [u|] eqn:Hget.
  - apply coll_get_replace_eq. by rewrite Hget.
  - destruct Hk as [Hk|[? [=]]]. rewrite decide_False by done.
    by apply coll_get_create_eq.
Qed.

Lemma coll_get_put_ne c k k' v : k ≠ k' -> coll_get (coll_put c k v) k' = coll_get c k'.
Proof.
  intros Hne. unfold coll_put. destruct (coll_get c k).
  - by apply coll_get_replace_ne.
  - case_decide; [done | by apply coll_get_create_ne].
Qed.

(** Assigning to "__proto__" where the object has no such property of its
    own changes no property. *)
Lemma coll_put_proto c v : coll_get c "__proto__" = None -> coll_put c "__proto__" v = c.
Proof. intros Hnone. unfold coll_put. by rewrite Hnone, decide_True. Qed.

Lemma coll_put_taken c k v : is_Some (coll_get c k) -> (coll_put c k v).*1 = c.*1.
Proof. intros [u Hu]. unfold coll_put. rewrite Hu. apply coll_replace_keys. Qed.

Lemma coll_put_keys_perm c k v :
  (coll_put c k v).*1 ≡ₚ
  if decide (k ∈ c.*1 \/ k = "__proto__") then c.*1 else k :: c.*1.
Proof.
  unfold coll_put. destruct (coll_get c k) as [u|] eqn:Hget.
  - rewrite coll_replace_keys, decide_True; [done |].
    left. apply coll_get_Some. by rewrite Hget.
  - apply coll_get_None in Hget. destruct (decide (k = "__proto__")) as [->|Hk].
    + by rewrite decide_True by by right.
    + rewrite decide_False by (intros [?|?]; done).
      by rewrite coll_create_perm.
Qed.

Lemma coll_put_NoDup c k v : NoDup c.*1 -> NoDup (coll_put c k v).*1.
Proof.
  intros Hnd. rewrite coll_put_keys_perm. case_decide as Hk; [done |].
  apply NoDup_cons. split; [|done]. intros Hin. apply Hk. by left.
Qed.

Lemma coll_put_Forall (P : string * V -> Prop) c k v :
  Forall P c -> P (k, v) -> Forall P (coll_put c k v).
Proof.
  intros Hc Hv. unfold coll_put. destruct (coll_get c k).
  - by apply coll_replace_Forall.
  - case_decide; [done |]. rewrite coll_create_perm. by constructor.
Qed.

Lemma coll_put_put c k v w : coll_put (coll_put c k v) k w = coll_put c k w.
Proof.
  destruct (decide (k ≠ "__proto__" \/ is_Some (coll_get c k))) as [Hk|Hk].
  - unfold coll_put at 1. rewrite coll_get_put_eq by done.
    unfold coll_put. destruct (coll_get c k) as [u|] eqn:Hget.
    + apply coll_replace_replace.
    + destruct Hk as [Hk|[? [=]]]. rewrite !decide_False by done.
      unfold coll_create. destruct (array_index k) as [n|].
      * clear Hk. induction c as [|[k0 u] c IH]; cbn [coll_insert_index coll_replace].
        -- by rewrite decide_True.
        -- cbn [coll_get] in Hget. destruct (decide (k0 = k)) as [|Hne]; [done |].
           destruct (array_index k0) as [m|]; [destruct (m <? n)%N |]; cbn [coll_replace].
           ++ rewrite decide_False by done. by rewrite IH.
           ++ by rewrite decide_True.
           ++ by rewrite decide_True.
      * clear Hk. induction c as [|[k0 u] c IH]; cbn [app coll_replace].
        -- by rewrite decide_True.
        -- cbn [coll_get] in Hget. destruct (decide (k0 = k)) as [|Hne]; [done |].
           by rewrite IH.
  - assert (k = "__proto__") as ->
      by (destruct (decide (k = "__proto__")); [done | destruct Hk; by left]).
    assert (coll_get c "__proto__" = None) as Hnone
      by (destruct (coll_get c "__proto__") eqn:E; [destruct Hk; right; by eexists | done]).
    by rewrite !(coll_put_proto c) by done.
Qed.

(** A new key that is neither an array index nor "__proto__" goes to the
    end. *)
Lemma coll_put_fresh c k v :
  coll_get c k = None -> array_index k = None -> k ≠ "__proto__" ->
  coll_put c k v = c ++ [(k, v)].
Proof.
  intros Hnone Hidx Hk. unfold coll_put, coll_create.
  by rewrite Hnone, decide_False, Hidx.
Qed.

Lemma coll_get_fmap {W : Type} (f : V -> W) c k :
  coll_get (prod_map id f <$> c) k = f <$> coll_get c k.
Proof.
  induction c as [|[k0 u] c IH]; [done |].
  rewrite fmap_cons. cbn [coll_get prod_map fst snd id].
  destruct (decide (k0 = k)); [done | apply IH].
Qed.

Lemma coll_replace_fmap {W : Type} (f : V -> W) c k v :
  prod_map id f <$> coll_replace c k v = coll_replace (prod_map id f <$> c) k (f v).
Proof.
  induction c as [|[k0 u] c IH]; [done |].
  rewrite fmap_cons. cbn [coll_replace prod_map fst snd id].
  destruct (decide (k0 = k)); rewrite fmap_cons; [done | by rewrite IH].
Qed.

Lemma coll_create_fmap {W : Type} (f : V -> W) c k v :
  prod_map id f <$> coll_create c k v = coll_create (prod_map id f <$> c) k (f v).
Proof.
  unfold coll_create. destruct (array_index k) as [n|]; [| by rewrite fmap_app].
  induction c as [|[k0 u] c IH]; [done |].
  rewrite fmap_cons. cbn [coll_insert_index prod_map fst snd id].
  destruct (array_index k0) as [m|]; [destruct (m <? n)%N |]; rewrite ?fmap_cons; try done.
  by rewrite IH.
Qed.

Lemma coll_put_fmap {W : Type} (f : V -> W) c k v :
  prod_map id f <$> coll_put c k v = coll_put (prod_map id f <$> c) k (f v).
Proof.
  unfold coll_put. rewrite coll_get_fmap. destruct (coll_get c k); cbn.
  - apply coll_replace_fmap.
  - case_decide; [done | apply coll_create_fmap].
Qed.

Lemma coll_define_fmap {W : Type} (f : V -> W) c k v :
  prod_map id f <$> coll_define c k v = coll_define (prod_map id f <$> c) k (f v).
Proof.
  unfold coll_define. rewrite coll_get_fmap. destruct (coll_get c k); cbn.
  - apply coll_replace_fmap.
  - apply coll_create_fmap.
Qed.

Lemma coll_get_elem c k v : coll_get c k = Some v -> (k, v) ∈ c.
Proof.
  induction c as [|[k0 u] c IH]; cbn [coll_get]; [done |].
  destruct (decide (k0 = k)) as [->|Hk].
  - intros [= ->]. left.
  - intros H'. right. by apply IH.
Qed.

End Collections.

(** *** Enumeration order *)

Section Enumeration.

Context {V : Type}.
Implicit Types (c : list (string * V)) (k : string) (v : V).

Lemma keys_fmap {W : Type} (f : V -> W) c : (prod_map id f <$> c).*1 = c.*1.
Proof. rewrite <- list_fmap_compose. apply list_fmap_ext. by intros i [k v] _. Qed.

Lemma enumerated_fmap {W : Type} (f : V -> W) c :
  enumerated c -> enumerated (prod_map id f <$> c).
Proof. unfold enumerated. by rewrite keys_fmap. Qed.

Lemma enumerated_nil : enumerated (@nil (string * V)).
Proof. split; [apply NoDup_nil_2 | constructor]. Qed.

(** A key that comes after every key of [c] is created at the end. *)
Lemma coll_create_end c k v :
  Forall (fun k' => precedes k' k) c.*1 -> coll_create c k v = c ++ [(k, v)].
Proof.
  unfold coll_create. destruct (array_index k) as [n|] eqn:Hk; [|done].
  induction c as [|[k0 u] c IH]; [done |].
  rewrite fmap_cons, Forall_cons. cbn [fst coll_insert_index]. intros [H0 Hc].
  unfold precedes in H0. rewrite Hk in H0.
  destruct (array_index k0) as [m|]; [|done].
  rewrite (proj2 (N.ltb_lt m n)) by done. by rewrite IH.
Qed.

Lemma sorted_insert_index c n k v :
  array_index k = Some n -> k ∉ c.*1 ->
  StronglySorted precedes c.*1 -> StronglySorted precedes (coll_insert_index c n k v).*1.
Proof.
  intros Hk. induction c as [|[k0 u] c IH].
  - intros _ _. cbn. repeat constructor.
  - rewrite fmap_cons, not_elem_of_cons. cbn [fst coll_insert_index].
    intros [Hne Hnin] Hs. apply StronglySorted_inv in Hs as [Hs H0].
    assert (Hafter : precedes k k0 -> Forall (precedes k) (k0 :: c.*1)).
    { intros Hp. constructor; [done |].
      eapply Forall_impl; [exact H0 |]. intros x Hx. by eapply precedes_trans. }
    destruct (array_index k0) as [m|] eqn:Hk0.
    + destruct (m <? n)%N eqn:Hlt.
      * rewrite fmap_cons. cbn [fst]. constructor; [by apply IH |].
        rewrite coll_insert_index_perm, fmap_cons. cbn [fst].
        constructor; [|done]. unfold precedes. rewrite Hk0, Hk. by apply N.ltb_lt.
      * rewrite !fmap_cons. cbn [fst]. constructor; [by constructor |].
        apply Hafter. unfold precedes. rewrite Hk, Hk0.
        apply N.ltb_ge in Hlt. destruct (decide (m = n)) as [->|]; [|lia].
        destruct Hne. symmetry. by eapply array_index_inj.
    + rewrite !fmap_cons. cbn [fst]. constructor; [by constructor |].
      apply Hafter. unfold precedes. by rewrite Hk, Hk0.
Qed.

Lemma enumerated_create c k v : enumerated c -> k ∉ c.*1 -> enumerated (coll_create c k v).
Proof.
  intros [Hnd Hs] Hk. split.
  - rewrite coll_create_perm, fmap_cons. by apply NoDup_cons.
  - unfold coll_create. destruct (array_index k) as [n|] eqn:Hidx.
    + by apply sorted_insert_index.
    + rewrite fmap_app. apply StronglySorted_app_2; [| done | repeat constructor].
      intros x y _ Hy%list_elem_of_singleton. cbn [fst] in Hy.
      unfold precedes. rewrite Hy, Hidx.
      by destruct (array_index x).
Qed.

Lemma enumerated_replace c k v : enumerated c -> enumerated (coll_replace c k v).
Proof. unfold enumerated. by rewrite coll_replace_keys. Qed.

Lemma enumerated_define c k v : enumerated c -> enumerated (coll_define c k v).
Proof.
  intros Hc. unfold coll_define. destruct (coll_get c k) eqn:Hget.
  - by apply enumerated_replace.
  - apply enumerated_create; [done | by apply coll_get_None].
Qed.

Lemma enumerated_put c k v : enumerated c -> enumerated (coll_put c k v).
Proof.
  intros Hc. unfold coll_put. destruct (coll_get c k) eqn:Hget.
  - by apply enumerated_replace.
  - case_decide; [done |]. apply enumerated_create; [done | by apply coll_get_None].
Qed.

Lemma enumerated_foldl (l c : list (string * V)) :
  enumerated c -> enumerated (foldl (fun c m => coll_define c m.1 m.2) c l).
Proof.
  revert c. induction l as [|[k v] l IH]; intros c Hc; [done |].
  cbn [foldl]. apply IH. by apply enumerated_define.
Qed.

(** What [JSON.parse] builds is in enumeration order ... *)
Lemma enumerated_parse (l : list (string * V)) : enumerated (parse_members l).
Proof. apply enumerated_foldl, enumerated_nil. Qed.

Lemma foldl_define_enumerated (l c : list (string * V)) :
  enumerated (c ++ l) -> foldl (fun c m => coll_define c m.1 m.2) c l = c ++ l.
Proof.
  revert c. induction l as [|[k v] l IH]; intros c Hc.
  - by rewrite app_nil_r.
  - cbn [foldl fst snd]. destruct Hc as [Hnd Hs]. rewrite fmap_app, fmap_cons in Hnd, Hs.
    cbn [fst] in Hnd, Hs.
    assert (Hfresh : k ∉ c.*1).
    { apply NoDup_app in Hnd as (_ & Hd & _). intros Hin. apply (Hd _ Hin). left. }
    unfold coll_define. rewrite (proj2 (coll_get_None c k) Hfresh).
    rewrite coll_create_end.
    + rewrite IH; [by rewrite <- app_assoc |].
      unfold enumerated. rewrite <- app_assoc. cbn [app].
      rewrite fmap_app, fmap_cons. by split.
    + apply Forall_forall. intros x Hx.
      apply StronglySorted_app in Hs as (Hs & _ & _). apply Hs; [exact Hx | left].
Qed.

(** ... and parsing the text of an object that is in enumeration order
    gives the object back. *)
Lemma parse_enumerated c : enumerated c -> parse_members c = c.
Proof. intros Hc. by apply (foldl_define_enumerated c []). Qed.


Lemma foldl_define_fmap {W : Type} (f : V -> W) (l c : list (string * V)) :
  foldl (fun (c : list (string * W)) m => coll_define c m.1 m.2)
        (prod_map id f <$> c) (prod_map id f <$> l) =
  prod_map id f <$> foldl (fun (c : list (string * V)) m => coll_define c m.1 m.2) c l.
Proof.
  revert c. induction l as [|[k v] l IH]; intros c; [done |].
  rewrite fmap_cons. cbn [foldl prod_map fst snd id].
  by rewrite <- coll_define_fmap, IH.
Qed.

Lemma parse_members_fmap {W : Type} (f : V -> W) (l : list (string * V)) :
  parse_members (prod_map id f <$> l) = prod_map id f <$> parse_members l.
Proof. apply (foldl_define_fmap f l []). Qed.

End Enumeration.


(** ** JSON text and objects in memory *)

Lemma stringify_parse_obj (o : jobj) : stringify_obj (parse_obj o) = o.
Proof.
  apply map_eq. intros k. unfold stringify_obj, parse_obj.
  rewrite lookup_omap, lookup_fmap. by destruct (o !! k).
Qed.

Lemma stringify_parse_docs (c : list (string * jobj)) :
  prod_map id stringify_obj <$> (prod_map id parse_obj <$> c) = c.
Proof.
  induction c as [|[k o] c IH]; [done |].
  rewrite !fmap_cons, IH. cbn [prod_map fst snd id]. by rewrite stringify_parse_obj.
Qed.

(** Printing what was parsed gives each collection with its members in
    enumeration order, a key that occurred twice once. *)
Lemma stringify_parse_store (s : jstore) (c : string) :
  stringify_store (parse_store s) !! c = parse_members <$> s !! c.
Proof.
  unfold stringify_store, parse_store. rewrite !lookup_fmap.
  destruct (s !! c) as [members|]; cbn; [|done].
  by rewrite parse_members_fmap, stringify_parse_docs.
Qed.

Lemma prop_parse (o : jobj) (k : string) : prop (parse_obj o) k = o !! k.
Proof. unfold prop, parse_obj. rewrite lookup_fmap. by destruct (o !! k). Qed.

Lemma merged_lookup (old : option jobj) (data : mobj) (k : string) :
  k ≠ "__proto__" ->
  Board.merged old data !! k =
  match data !! k with
  | Some v => v
  | None => old ≫= (.!! k)
  end.
Proof.
  intros Hk. unfold Board.merged, stringify_obj, Object_assign, parse_obj.
  rewrite lookup_omap, lookup_delete_ne, lookup_union, lookup_fmap by done.
  destruct (data !! k) as [v|]; simpl.
  - by destruct (default ∅ old !! k).
  - destruct old as [o|]; simpl; [by destruct (o !! k) | by rewrite lookup_empty].
Qed.

(** [Object.assign] never copies a property named "__proto__". *)
Lemma merged_proto (old : option jobj) (data : mobj) :
  Board.merged old data !! "__proto__" = None.
Proof.
  unfold Board.merged, stringify_obj, Object_assign.
  by rewrite lookup_omap, lookup_delete_eq.
Qed.

Lemma coll_read_default (c : list (string * mobj)) (k : string) :
  default ∅ (coll_read c k) = default ∅ (coll_get c k).
Proof. unfold coll_read. destruct (coll_get c k); [done |]. by case_bool_decide. Qed.

Lemma coll_read_own (c : list (string * mobj)) (k : string) :
  k ∉ Object_prototype_keys -> coll_read c k = coll_get c k.
Proof.
  intros Hk. unfold coll_read. destruct (coll_get c k); [done |].
  by rewrite bool_decide_false.
Qed.

(** An id made by the program is no array index and no inherited key. *)
Lemma array_index_letter (a : ascii) (s : string) :
  (N_of_ascii a <? 48)%N || (57 <? N_of_ascii a)%N = true -> array_index (String a s) = None.
Proof.
  intros Ha. unfold array_index. cbn [numeral].
  destruct (48 <=? N_of_ascii a)%N eqn:H1; [|done].
  destruct (N_of_ascii a <=? 57)%N eqn:H2; [|done].
  apply orb_true_iff in Ha as [Ha|Ha].
  - apply N.ltb_lt in Ha. apply N.leb_le in H1. lia.
  - apply N.ltb_lt in Ha. apply N.leb_le in H2. lia.
Qed.

(** ** The mock database, seen from localStorage *)

Section MockStore.

Import Board.
Implicit Types (ls : option jstore) (ref : docRef) (data : mobj).

Lemma useMockDb_true : useMockDb = true.
Proof. reflexivity. Qed.

Lemma stored_docs_enumerated c ls : enumerated (stored_docs c ls).
Proof. destruct ls as [s|]; [apply enumerated_parse | apply enumerated_nil]. Qed.

Lemma stored_docs_NoDup c ls : NoDup (stored_docs c ls).*1.
Proof. apply stored_docs_enumerated. Qed.

Lemma read_docs c ls :
  default [] (readStore ls !! c) = prod_map id parse_obj <$> stored_docs c ls.
Proof.
  destruct ls as [s|]; cbn [readStore stored_docs].
  - unfold parse_store. rewrite lookup_fmap.
    destruct (s !! c) as [members|]; cbn; [apply parse_members_fmap | done].
  - unfold empty_store. rewrite !lookup_insert.
    repeat case_decide; by rewrite ?lookup_empty.
Qed.

Lemma read_docs_enumerated c ls : enumerated (default [] (readStore ls !! c)).
Proof. rewrite read_docs. apply enumerated_fmap, stored_docs_enumerated. Qed.

Lemma stored_docs_stringify c ls :
  default [] (stringify_store (readStore ls) !! c) = stored_docs c ls.
Proof.
  destruct ls as [s|]; cbn [readStore stored_docs].
  - rewrite stringify_parse_store. by destruct (s !! c).
  - unfold stringify_store, empty_store. rewrite lookup_fmap, !lookup_insert.
    repeat case_decide; by rewrite ?lookup_empty.
Qed.

(** Reading back what [writeStore] wrote. *)
Lemma stored_docs_written c (store : mstore) :
  enumerated (default [] (store !! c)) ->
  stored_docs c (writeStore store) = prod_map id stringify_obj <$> default [] (store !! c).
Proof.
  intros Hc. unfold writeStore, stored_docs, stringify_store. rewrite lookup_fmap.
  destruct (store !! c) as [d|]; cbn in *; [|done].
  by apply parse_enumerated, enumerated_fmap.
Qed.

Lemma stored_docs_write c c' (d : list (string * mobj)) ls :
  enumerated d ->
  stored_docs c' (writeStore (<[c := d]> (readStore ls))) =
  if decide (c = c') then prod_map id stringify_obj <$> d else stored_docs c' ls.
Proof.
  intros Hd. rewrite stored_docs_written; rewrite lookup_insert.
  - destruct (decide (c = c')); [done |].
    by rewrite read_docs, stringify_parse_docs.
  - destruct (decide (c = c')); [done | apply read_docs_enumerated].
Qed.

Lemma merged_parse (o : option jobj) data :
  stringify_obj (Object_assign (default ∅ (parse_obj <$> o)) data) = merged o data.
Proof.
  unfold merged. destruct o; [done |]. cbn [fmap option_fmap option_map default].
  unfold parse_obj. by rewrite fmap_empty.
Qed.

(** Writing [data] under [id] in collection [c], merged over what was there. *)
Lemma stored_docs_put c c' id data ls :
  stored_docs c' (writeStore (<[c :=
    coll_put (default [] (readStore ls !! c)) id
      (Object_assign (default ∅ (coll_read (default [] (readStore ls !! c)) id)) data)]>
    (readStore ls))) =
  if decide (c = c')
  then coll_put (stored_docs c ls) id (merged (coll_get (stored_docs c ls) id) data)
  else stored_docs c' ls.
Proof.
  rewrite stored_docs_write by apply enumerated_put, read_docs_enumerated.
  destruct (decide (c = c')); [|done].
  rewrite coll_read_default, read_docs, coll_put_fmap, stringify_parse_docs, coll_get_fmap.
  by rewrite merged_parse.
Qed.

Lemma setDocMock_docs ref data ms ls c' :
  stored_docs c' (setDocMock ref data ms ls) =
  if decide (col ref = c')
  then coll_put (stored_docs (col ref) ls) (target_id ref data ms)
         (merged (coll_get (stored_docs (col ref) ls) (target_id ref data ms)) data)
  else stored_docs c' ls.
Proof. unfold setDocMock. apply stored_docs_put. Qed.

Lemma addDocMock_docs (cr : colRef) data ms rnd ls c' :
  stored_docs c' (addDocMock cr data ms rnd ls).1 =
  if decide (mockCollection cr = c')
  then coll_put (stored_docs (mockCollection cr) ls) (log_id ms rnd)
         (stringify_obj (Object_assign data {[ "id" := Some (JStr (log_id ms rnd)) ]}))
  else stored_docs c' ls.
Proof.
  unfold addDocMock. cbn [fst].
  rewrite stored_docs_write by apply enumerated_put, read_docs_enumerated.
  destruct (decide (mockCollection cr = c')); [|done].
  by rewrite read_docs, coll_put_fmap, stringify_parse_docs.
Qed.

(** A log id is created at the end of the log. *)
Lemma log_id_plain ms rnd :
  array_index (log_id ms rnd) = None /\ log_id ms rnd ≠ "__proto__".
Proof. split; [by apply array_index_letter | done]. Qed.

(** [tx.set] followed by the write-back of the transaction is [setDocMock]. *)
Lemma tx_set_write ref data ms ls :
  writeStore (tx_set (mock_tx ms) ref data (readStore ls)) = setDocMock ref data ms ls.
Proof. reflexivity. Qed.

Lemma tx_update_docs ref data ms ls c' :
  stored_docs c' (writeStore (tx_update (mock_tx ms) ref data (readStore ls))) =
  if decide (col ref = c')
  then coll_put (stored_docs (col ref) ls) (doc_id ref)
         (merged (coll_get (stored_docs (col ref) ls) (doc_id ref)) data)
  else stored_docs c' ls.
Proof. cbn [tx_update mock_tx]. apply stored_docs_put. Qed.

(** The snapshot of a document: it "exists" when the collection has the
    document, and also when the id is a key that objects inherit. *)
Lemma tx_get_snapshot ref ms ls :
  tx_get (mock_tx ms) ref (readStore ls) =
  match coll_get (stored_docs (col ref) ls) (doc_id ref) with
  | Some d => {| snap_exists := true; data := Some (parse_obj d) |}
  | None =>
      if bool_decide (doc_id ref ∈ Object_prototype_keys)
      then {| snap_exists := true; data := Some ∅ |}
      else {| snap_exists := false; data := None |}
  end.
Proof.
  cbn [tx_get mock_tx]. rewrite read_docs. unfold coll_read. rewrite coll_get_fmap.
  destruct (coll_get (stored_docs (col ref) ls) (doc_id ref));
    cbn [fmap option_fmap option_map].
  - by rewrite bool_decide_true.
  - destruct (bool_decide (doc_id ref ∈ Object_prototype_keys)).
    + by rewrite bool_decide_true.
    + rewrite bool_decide_false; [done | by intros [? ?]].
Qed.

(** The wrapper passes the update function where [runTransactionMock]
    expects [dbRef]: [updateFn] is [undefined] and the call throws. *)
Lemma runTransaction_throws f ms ls :
  runTransaction [ArgFn f] ms ls = Throw (TypeError "updateFn is not a function").
Proof. reflexivity. Qed.

Lemma writeLog_docs text k w c' :
  stored_docs c' (localStorage (writeLog text k w)) =
  if decide ("outbound_logs" = c')
  then coll_put (stored_docs "outbound_logs" (localStorage w)) (log_id (log_ms k) (log_rand k))
         (stringify_obj (Object_assign
            (<["text" := Some (JStr text)]> (<["ts" := serverTimestamp (log_stamp k)]> ∅))
            {[ "id" := Some (JStr (log_id (log_ms k) (log_rand k))) ]}))
  else stored_docs c' (localStorage w).
Proof. unfold writeLog. cbn [localStorage stored]. apply addDocMock_docs. Qed.

Lemma writeLog_records text k w :
  stored_docs "outbound_records" (localStorage (writeLog text k w)) =
  stored_docs "outbound_records" (localStorage w).
Proof. by rewrite writeLog_docs. Qed.

Lemma writeLog_quiet text k w :
  console (writeLog text k w) = console w /\ alerts (writeLog text k w) = alerts w.
Proof. done. Qed.

End MockStore.

Section Operations.

Import Board.
Implicit Types (ls : option jstore) (w : world) (k : clock) (name : string).

Lemma target_id_named name data ms k :
  ms = doc_ms k ->
  data !! "name" = Some (Some (JStr name)) \/ data !! "name" = None ->
  target_id (doc "outbound_records" name) data ms = written_id name k.
Proof.
  intros -> Hn. unfold target_id, written_id, prop. cbn [doc docMock collectionMock doc_id mockCollection].
  case_bool_decide as Hne; [done |]. subst name.
  destruct Hn as [-> | ->]; reflexivity.
Qed.

Lemma written_id_nonempty name k : name ≠ EmptyString -> written_id name k = name.
Proof. intros. unfold written_id. by rewrite bool_decide_true. Qed.

(** A [setDoc] on an employee's document followed by the log entry. *)
Lemma setDoc_then_log name data text k w :
  data !! "name" = Some (Some (JStr name)) \/ data !! "name" = None ->
  let w' := writeLog text k
              (stored (setDoc (doc "outbound_records" name) data (doc_ms k) (localStorage w)) w) in
  stored_docs "outbound_records" (localStorage w') =
    coll_put (stored_docs "outbound_records" (localStorage w)) (written_id name k)
      (merged (record_of (localStorage w) (written_id name k)) data) /\
  console w' = console w /\ alerts w' = alerts w.
Proof.
  intros Hn w'. subst w'. split; [|done].
  rewrite writeLog_records. cbn [localStorage stored]. unfold setDoc.
  rewrite setDocMock_docs. cbn [doc docMock collectionMock col mockCollection].
  rewrite decide_True by done.
  by rewrite (target_id_named name data (doc_ms k) k).
Qed.

Lemma cleared_name name k : cleared name k !! "name" = Some (Some (JStr name)).
Proof. reflexivity. Qed.

Lemma deleteRecord_docs name k w :
  stored_docs "outbound_records" (localStorage (deleteRecord name k w)) =
    coll_put (stored_docs "outbound_records" (localStorage w)) (written_id name k)
      (merged (record_of (localStorage w) (written_id name k)) (cleared name k)).
Proof.
  unfold deleteRecord.
  apply (setDoc_then_log name (cleared name k)). left. apply cleared_name.
Qed.

Lemma written_id_plain name k : name ≠ "__proto__" -> written_id name k ≠ "__proto__".
Proof. intros Hname. unfold written_id. by case_bool_decide. Qed.

Lemma deleteRecord_record name k w id' :
  name ≠ "__proto__" ->
  record_of (localStorage (deleteRecord name k w)) id' =
  if decide (written_id name k = id')
  then Some (merged (record_of (localStorage w) (written_id name k)) (cleared name k))
  else record_of (localStorage w) id'.
Proof.
  intros Hname. unfold record_of at 1. rewrite deleteRecord_docs.
  destruct (decide (written_id name k = id')) as [<-|Hne].
  - apply coll_get_put_eq. left. by apply written_id_plain.
  - by apply coll_get_put_ne.
Qed.

(** Under the id "__proto__" nothing is stored: the assignment in
    [setDocMock] sets the prototype of the collection, which
    [JSON.stringify] does not print.  (Unless the text in localStorage
    already had a member "__proto__", which [JSON.parse] makes an own
    property.) *)
Lemma deleteRecord_proto k w :
  record_of (localStorage w) "__proto__" = None ->
  stored_docs "outbound_records" (localStorage (deleteRecord "__proto__" k w)) =
  stored_docs "outbound_records" (localStorage w).
Proof. intros Hnone. rewrite deleteRecord_docs. by apply coll_put_proto. Qed.

Lemma cleared_other name k f : f ∉ cleared_fields -> cleared name k !! f = None.
Proof.
  intros Hf. unfold cleared, cleared_fields in *.
  rewrite !not_elem_of_cons in Hf. destruct Hf as (?&?&?&?&?&?&_).
  by rewrite !lookup_insert_ne, lookup_empty.
Qed.

End Operations.

(** [C7] deleteRecord never fails and never reports a missing record: for
    every employee id but "__proto__" it merges the cleared fields into the
    document of the employee, creating the document when there was none.
    After the call the document has status "unregistered" and null outAt,
    returnAt and place; name and lastUpdated are rewritten, every other
    field of an existing document is kept (but one named "__proto__", which
    Object.assign does not copy), the other documents are untouched, and
    nothing is logged to the console or alerted. *)
Theorem deleteRecord_resets_or_creates (name : string) (k : Board.clock) (w : Board.world) :
  name ≠ "__proto__" ->
  let w' := Board.deleteRecord name k w in
  let id := Board.written_id name k in
  let old := Board.record_of (Board.localStorage w) id in
  (exists r, Board.record_of (Board.localStorage w') id = Some r /\
     r !! "status" = Some (JStr "unregistered") /\
     r !! "outAt" = Some JNull /\ r !! "returnAt" = Some JNull /\ r !! "place" = Some JNull /\
     r !! "name" = Some (JStr name) /\ r !! "lastUpdated" = Some (JIso (Board.stamp k)) /\
     (forall f, f ∉ Board.cleared_fields -> f ≠ "__proto__" -> r !! f = old ≫= (.!! f))) /\
  (forall id', id' ≠ id ->
     Board.record_of (Board.localStorage w') id' = Board.record_of (Board.localStorage w) id') /\
  Board.console w' = Board.console w /\ Board.alerts w' = Board.alerts w.
Proof.
  intros Hname w' id old. subst w' id old. split_and!; try done.
  - eexists. split; [rewrite deleteRecord_record, decide_True by done; reflexivity |].
    split_and!; try (rewrite merged_lookup by done; reflexivity).
    intros f Hf Hproto. by rewrite merged_lookup, cleared_other.
  - intros id' Hne. by rewrite deleteRecord_record, decide_False.
Qed.

Lemma deleteRecord_resets_or_creates_witness :
  "Kim" ≠ "__proto__" /\
  Board.alerts (Board.deleteRecord "Kim" (Board.clock_at 1000 1) Board.initial) =
  Board.alerts Board.initial.
Proof.
  assert (H : "Kim" ≠ "__proto__") by done.
  split; [exact H |].
  exact (proj2 (proj2 (proj2
    (deleteRecord_resets_or_creates "Kim" (Board.clock_at 1000 1) Board.initial H)))).
Defined.

(** [C7] counterexample: "Kim", the first name of the roster, has no
    document in the fresh store, yet deleteRecord("Kim") (the row's delete
    button) reports nothing and leaves a document for Kim. *)
Lemma deleteRecord_creates_unknown :
  let w := Board.deleteRecord "Kim" (Board.clock_at 1000 1) Board.initial in
  "Kim" ∈ Board.EMPLOYEES /\
  Board.record_of (Board.localStorage Board.initial) "Kim" = None /\
  Board.record_of (Board.localStorage w) "Kim" ≫= (.!! "status") = Some (JStr "unregistered") /\
  Board.console w = [] /\ Board.alerts w = [].
Proof. cbv zeta. split_and!; [left | vm_compute; reflexivity ..]. Qed.

Section Clearing.

Import Board.
Implicit Types (ls : option jstore) (w : world) (k : clock) (name : string).

Lemma deleteRecord_logs name k w :
  stored_docs "outbound_logs" (localStorage (deleteRecord name k w)) =
  coll_put (stored_docs "outbound_logs" (localStorage w)) (log_id (log_ms k) (log_rand k))
    (log_entry (name +:+ " record cleared") k).
Proof.
  unfold deleteRecord. rewrite writeLog_docs, decide_True by done.
  cbn [localStorage stored]. unfold setDoc. by rewrite setDocMock_docs.
Qed.

Lemma cleared_same name k1 k2 f :
  f ≠ "lastUpdated" -> cleared name k2 !! f = cleared name k1 !! f.
Proof.
  intros Hf. unfold cleared. rewrite !lookup_insert.
  repeat case_decide; congruence.
Qed.

End Clearing.

(** [C8] Two calls of deleteRecord for an employee (any id but the empty
    one and "__proto__") leave the employee's document as one call does in
    every field but lastUpdated, which carries the time of the second call;
    the other documents are the same; and the second call appends its own
    entry to the log, whenever the id it draws for the entry (millisecond
    and random number) is not in the log yet. *)
Theorem deleteRecord_twice (name : string) (k1 k2 : Board.clock) (w : Board.world) :
  name ≠ EmptyString -> name ≠ "__proto__" ->
  let once := Board.deleteRecord name k1 w in
  let twice := Board.deleteRecord name k2 once in
  let id2 := Board.log_id (Board.log_ms k2) (Board.log_rand k2) in
  (exists r1 r2,
     Board.record_of (Board.localStorage once) name = Some r1 /\
     Board.record_of (Board.localStorage twice) name = Some r2 /\
     (forall f, f ≠ "lastUpdated" -> r2 !! f = r1 !! f) /\
     r2 !! "lastUpdated" = Some (JIso (Board.stamp k2))) /\
  (forall id, id ≠ name ->
     Board.record_of (Board.localStorage twice) id = Board.record_of (Board.localStorage once) id) /\
  (coll_get (Board.stored_docs "outbound_logs" (Board.localStorage once)) id2 = None ->
   Board.stored_docs "outbound_logs" (Board.localStorage twice) =
     Board.stored_docs "outbound_logs" (Board.localStorage once) ++
       [(id2, Board.log_entry (name +:+ " record cleared") k2)]).
Proof.
  intros Hname Hproto once twice id2. subst once twice id2. split_and!.
  - do 2 eexists. split_and!.
    + rewrite deleteRecord_record, written_id_nonempty, decide_True by done. reflexivity.
    + rewrite deleteRecord_record, written_id_nonempty, decide_True by done. reflexivity.
    + intros f Hf. destruct (decide (f = "__proto__")) as [->|Hf'].
      { by rewrite !merged_proto. }
      rewrite !merged_lookup, (cleared_same name k1 k2 f Hf) by done.
      destruct (Board.cleared name k1 !! f) as [v|] eqn:Hc; [done |].
      rewrite deleteRecord_record, written_id_nonempty, decide_True by done.
      cbn. by rewrite merged_lookup, Hc.
    + rewrite merged_lookup by done. reflexivity.
  - intros id Hid. rewrite deleteRecord_record, written_id_nonempty, decide_False by done.
    reflexivity.
  - intros Hfresh. rewrite deleteRecord_logs.
    apply coll_put_fresh; [done | apply log_id_plain ..].
Qed.

Lemma deleteRecord_twice_witness :
  ("Kim" ≠ EmptyString /\ "Kim" ≠ "__proto__") /\
  Board.record_of (Board.localStorage
    (Board.deleteRecord "Kim" (Board.clock_at 2000 2)
       (Board.deleteRecord "Kim" (Board.clock_at 1000 1) Board.initial))) "Lee" =
  Board.record_of (Board.localStorage
    (Board.deleteRecord "Kim" (Board.clock_at 1000 1) Board.initial)) "Lee".
Proof.
  split; [done |].
  apply (proj1 (proj2 (deleteRecord_twice "Kim" (Board.clock_at 1000 1) (Board.clock_at 2000 2)
                         Board.initial ltac:(done) ltac:(done)))).
  done.
Defined.

(** [C8] counterexample: on the fresh store, clearing "Kim" at 1000 ms and
    again at 2000 ms leaves a store that differs from the one left by either
    single call: the log has two entries instead of one (and lastUpdated
    differs from the first call's). *)
Lemma deleteRecord_not_idempotent :
  let once := Board.deleteRecord "Kim" (Board.clock_at 1000 1) Board.initial in
  let twice := Board.deleteRecord "Kim" (Board.clock_at 2000 2) once in
  Board.localStorage twice ≠ Board.localStorage once /\
  Board.localStorage twice ≠
    Board.localStorage (Board.deleteRecord "Kim" (Board.clock_at 2000 2) Board.initial) /\
  Board.record_of (Board.localStorage once) "Kim" ≫= (.!! "lastUpdated") = Some (JIso 1000) /\
  Board.record_of (Board.localStorage twice) "Kim" ≫= (.!! "lastUpdated") = Some (JIso 2000) /\
  length (Board.stored_docs "outbound_logs" (Board.localStorage once)) = 1%nat /\
  length (Board.stored_docs "outbound_logs" (Board.localStorage twice)) = 2%nat.
Proof.
  cbv zeta. split_and!; try (vm_compute; reflexivity).
  - intros H. apply (f_equal (fun ls => length (Board.stored_docs "outbound_logs" ls))) in H.
    vm_compute in H. discriminate.
  - intros H. apply (f_equal (fun ls => length (Board.stored_docs "outbound_logs" ls))) in H.
    vm_compute in H. discriminate.
Qed.

Section Transactions.

Import Board.
Implicit Types (ls : option jstore) (w : world) (k : clock) (name : string).

Lemma prior_returnAt_read ref ms ls :
  prior_returnAt (prior_of (tx_get (mock_tx ms) ref (readStore ls))) =
  coll_get (stored_docs (col ref) ls) (doc_id ref) ≫= (.!! "returnAt").
Proof.
  rewrite tx_get_snapshot. unfold prior_of.
  destruct (coll_get (stored_docs (col ref) ls) (doc_id ref)) as [old|]; cbn.
  - apply prop_parse.
  - by case_bool_decide.
Qed.

(** [runTransactionMock], given the database and [markOut]'s update
    function, merges the built object into the employee's document. *)
Lemma markOut_transaction name place k ls :
  runTransactionMock ArgDb (ArgFn (markOut_update name place k (doc "outbound_records" name)))
    (doc_ms k) ls =
  Ok (setDocMock (doc "outbound_records" name)
        (newData name place k (record_of ls name ≫= (.!! "returnAt"))) (doc_ms k) ls).
Proof.
  unfold runTransactionMock, markOut_update.
  rewrite prior_returnAt_read. reflexivity.
Qed.

Lemma markOut_transaction_docs name place k ls :
  stored_docs "outbound_records"
    (setDocMock (doc "outbound_records" name)
       (newData name place k (record_of ls name ≫= (.!! "returnAt"))) (doc_ms k) ls) =
  coll_put (stored_docs "outbound_records" ls) (written_id name k)
    (merged (record_of ls (written_id name k))
       (newData name place k (record_of ls name ≫= (.!! "returnAt")))).
Proof.
  rewrite setDocMock_docs. cbn [doc docMock collectionMock col mockCollection].
  rewrite decide_True by done.
  by rewrite (target_id_named name _ (doc_ms k) k) by (done || by left).
Qed.

End Transactions.

(** The record that the update function of markOut(name, place) sets when
    runTransactionMock runs it at time now: outAt is now, status is "out",
    place is the given place when that is not empty and "(unspecified)" when
    it is, and returnAt is the returnAt of the record the employee had, when
    there was one. *)
Lemma markOut_update_sets_record (name place : string) (k : Board.clock) (ls : option jstore) :
  name ≠ "__proto__" ->
  exists ls',
    Board.runTransactionMock Board.ArgDb
      (Board.ArgFn (Board.markOut_update name place k (Board.doc "outbound_records" name)))
      (Board.doc_ms k) ls = Ok ls' /\
    exists r, Board.record_of ls' (Board.written_id name k) = Some r /\
      r !! "outAt" = Some (JIso (Board.now k)) /\
      r !! "status" = Some (JStr "out") /\
      r !! "place" = Some (JStr (if bool_decide (place ≠ EmptyString) then place else "(unspecified)")) /\
      (forall old, Board.record_of ls name = Some old -> r !! "returnAt" = old !! "returnAt").
Proof.
  intros Hname. eexists. split; [apply markOut_transaction |].
  eexists. split.
  - unfold Board.record_of at 1. rewrite markOut_transaction_docs.
    apply coll_get_put_eq. left. by apply written_id_plain.
  - split_and!; try (rewrite merged_lookup by done; reflexivity).
    intros old Hold. rewrite merged_lookup, Hold by done. cbn.
    change (Board.newData name place k (old !! "returnAt") !! "returnAt")
      with (Some (old !! "returnAt")). by destruct (old !! "returnAt").
Qed.

(** The update function stores "(unspecified)" for the empty place. *)
Example markOut_update_empty_place :
  let k := Board.clock_at 1000 1 in
  exists ls',
    Board.runTransactionMock Board.ArgDb
      (Board.ArgFn (Board.markOut_update "Kim" EmptyString k (Board.doc "outbound_records" "Kim")))
      (Board.doc_ms k) (Board.localStorage Board.initial) = Ok ls' /\
    Board.record_of ls' "Kim" ≫= (.!! "place") = Some (JStr "(unspecified)").
Proof.
  cbv zeta. eexists. split; [reflexivity |]. vm_compute. reflexivity.
Qed.

(** The record its update function sets shows as "out". *)
Lemma markOut_update_status (name place : string) (k : Board.clock) (ls : option jstore) :
  name ≠ "__proto__" ->
  exists ls',
    Board.runTransactionMock Board.ArgDb
      (Board.ArgFn (Board.markOut_update name place k (Board.doc "outbound_records" name)))
      (Board.doc_ms k) ls = Ok ls' /\
    Board.statusForRecord (parse_obj <$> Board.record_of ls' (Board.written_id name k)) = "out".
Proof.
  intros Hname. eexists. split; [apply markOut_transaction |].
  unfold Board.record_of at 1.
  rewrite markOut_transaction_docs, coll_get_put_eq by (left; by apply written_id_plain).
  cbn [fmap option_fmap option_map]. unfold Board.statusForRecord.
  rewrite prop_parse, merged_lookup by done. reflexivity.
Qed.

Section ReturnTransaction.

Import Board.
Implicit Types (ls : option jstore) (w : world) (k : clock) (name : string).

(** The snapshot "exists" for a stored document, and also for an id that
    objects inherit from [Object.prototype]. *)
Lemma markReturn_transaction name k ls :
  runTransactionMock ArgDb (ArgFn (markReturn_update name k (doc "outbound_records" name)))
    (doc_ms k) ls =
  Ok (if bool_decide (is_Some (record_of ls name) \/ name ∈ Object_prototype_keys)
      then writeStore (tx_update (mock_tx (doc_ms k)) (doc "outbound_records" name)
                         (returned_fields k) (readStore ls))
      else setDocMock (doc "outbound_records" name) (returned_doc name k) (doc_ms k) ls).
Proof.
  unfold runTransactionMock, markReturn_update. rewrite tx_get_snapshot.
  cbn [doc docMock collectionMock col mockCollection doc_id].
  unfold record_of. destruct (coll_get _ name) as [d|].
  - rewrite bool_decide_true by (left; by eexists). reflexivity.
  - destruct (decide (name ∈ Object_prototype_keys)) as [Hin|Hin].
    + rewrite (bool_decide_true (name ∈ _)) by done.
      rewrite bool_decide_true by by right. reflexivity.
    + rewrite (bool_decide_false (name ∈ _)) by done.
      rewrite bool_decide_false by (intros [[? [=]]|?]; done). reflexivity.
Qed.

(** What the update function of [markReturn] does when it is run: a new
    document in the returned state when there was none ... *)
Lemma markReturn_transaction_creates name k ls :
  record_of ls name = None -> name ∉ Object_prototype_keys ->
  exists ls', runTransactionMock ArgDb
      (ArgFn (markReturn_update name k (doc "outbound_records" name))) (doc_ms k) ls = Ok ls' /\
    exists r, record_of ls' (written_id name k) = Some r /\
      r !! "status" = Some (JStr "returned") /\ r !! "outAt" = Some JNull /\
      r !! "returnAt" = Some (JIso (now k)) /\ r !! "place" = Some JNull.
Proof.
  intros Hnone Hname. eexists. split.
  { rewrite markReturn_transaction, Hnone.
    rewrite bool_decide_false by (intros [[? [=]]|?]; done). reflexivity. }
  assert (name ≠ "__proto__") as Hproto.
  { intros ->. apply Hname. unfold Object_prototype_keys. set_solver. }
  eexists. split.
  - unfold record_of at 1. rewrite setDocMock_docs.
    cbn [doc docMock collectionMock col mockCollection]. rewrite decide_True by done.
    rewrite (target_id_named name _ (doc_ms k) k) by (done || by left).
    apply coll_get_put_eq. left. by apply written_id_plain.
  - split_and!; rewrite merged_lookup by done; reflexivity.
Qed.

(** ... and otherwise the same document with [returnAt] and [status] set. *)
Lemma markReturn_transaction_updates name k ls old :
  record_of ls name = Some old ->
  exists ls', runTransactionMock ArgDb
      (ArgFn (markReturn_update name k (doc "outbound_records" name))) (doc_ms k) ls = Ok ls' /\
    exists r, record_of ls' name = Some r /\
      r !! "status" = Some (JStr "returned") /\ r !! "returnAt" = Some (JIso (now k)) /\
      r !! "outAt" = old !! "outAt" /\ r !! "place" = old !! "place".
Proof.
  intros Hold. eexists. split.
  { rewrite markReturn_transaction, Hold.
    rewrite bool_decide_true by (left; by eexists). reflexivity. }
  eexists. split.
  - unfold record_of at 1. rewrite tx_update_docs.
    cbn [doc docMock collectionMock col mockCollection doc_id]. rewrite decide_True by done.
    apply coll_get_put_eq. right. fold (record_of ls name). by rewrite Hold.
  - fold (record_of ls name). rewrite Hold.
    split_and!; rewrite merged_lookup by done; reflexivity.
Qed.

(** For an id that objects inherit, the snapshot "exists" although no
    document is stored, and the update writes the three fields only. *)
Example markReturn_transaction_inherited :
  exists ls', runTransactionMock ArgDb
      (ArgFn (markReturn_update "constructor" (clock_at 1000 1)
                (doc "outbound_records" "constructor"))) 1000 (localStorage initial) = Ok ls' /\
    record_of ls' "constructor" =
      Some (<["returnAt" := JIso 1000]> (<["status" := JStr "returned"]>
             (<["lastUpdated" := JIso 1000]> ∅))).
Proof. eexists. split; [reflexivity |]. vm_compute. reflexivity. Qed.

End ReturnTransaction.

(** [C2] markReturn changes nothing in the store: the wrapper hands the
    update function to runTransactionMock in the place of dbRef, the call
    of the missing updateFn throws, and markReturn reports the failure. *)
Theorem markReturn_writes_nothing (name : string) (k : Board.clock) (w : Board.world) :
  Board.localStorage (Board.markReturn name k w) = Board.localStorage w /\
  Board.console (Board.markReturn name k w) =
    Board.console w ++ [TypeError "updateFn is not a function"] /\
  Board.alerts (Board.markReturn name k w) =
    Board.alerts w ++ ["Failed to mark return - try again"].
Proof. done. Qed.

(** [C1] markOut writes no record: as markReturn, it hands its update
    function to runTransactionMock in the place of dbRef, the call of the
    missing updateFn throws before anything is stored, and markOut reports
    the failure.  The store is left as it was, so the record that was to get
    outAt, place and status "out" is not written. *)
Theorem markOut_writes_nothing (name place : string) (k : Board.clock) (w : Board.world) :
  Board.localStorage (Board.markOut name place k w) = Board.localStorage w /\
  Board.console (Board.markOut name place k w) =
    Board.console w ++ [TypeError "updateFn is not a function"] /\
  Board.alerts (Board.markOut name place k w) = Board.alerts w ++ ["Failed to mark out - try again"].
Proof. done. Qed.

(** [C5] After markOut the board derives for the employee the status it
    derived before, not "out": markOut stores nothing (the slip of C1 and
    C2), so the employee's record, the status statusForRecord reads from it
    and its place are what they were.  On the fresh store the status stays
    "unregistered", whoever marks out and wherever to. *)
Theorem markOut_status_unchanged (name place : string) (k : Board.clock) (w : Board.world) :
  let derived w := Board.statusForRecord (parse_obj <$> Board.record_of (Board.localStorage w) name) in
  let place_of w := Board.record_of (Board.localStorage w) name ≫= (.!! "place") in
  derived (Board.markOut name place k w) = derived w /\
  place_of (Board.markOut name place k w) = place_of w /\
  derived (Board.markOut name place k Board.initial) = "unregistered" /\
  place_of (Board.markOut name place k Board.initial) = None.
Proof.
  cbv zeta. split_and!; [reflexivity | reflexivity | |].
  - change (Board.localStorage (Board.markOut name place k Board.initial))
      with (Board.localStorage Board.initial).
    unfold Board.record_of.
    by replace (Board.stored_docs "outbound_records" (Board.localStorage Board.initial))
      with (@nil (string * jobj)) by (by vm_compute).
  - change (Board.localStorage (Board.markOut name place k Board.initial))
      with (Board.localStorage Board.initial).
    unfold Board.record_of.
    by replace (Board.stored_docs "outbound_records" (Board.localStorage Board.initial))
      with (@nil (string * jobj)) by (by vm_compute).
Qed.

(** [C2] at a failing input: "Kim" is out since 1000 ms; markReturn at
    2000 ms leaves the document as it was and alerts. *)
Example markReturn_leaves_record_out :
  let w := {| Board.localStorage := Some {[ "outbound_records" :=
                 [("Kim", <["status" := JStr "out"]> (<["outAt" := JIso 1000]>
                            (<["place" := JStr "Client HQ"]> ∅)))] ]};
              Board.console := []; Board.alerts := [] |} in
  let w' := Board.markReturn "Kim" (Board.clock_at 2000 2) w in
  Board.record_of (Board.localStorage w') "Kim" ≫= (.!! "status") = Some (JStr "out") /\
  Board.record_of (Board.localStorage w') "Kim" ≫= (.!! "returnAt") = None /\
  Board.alerts w' = ["Failed to mark return - try again"].
Proof. cbv zeta. split_and!; vm_compute; reflexivity. Qed.

Section Invariant.

Import Board.
Implicit Types (ls : option jstore) (w : world) (k : clock) (name : string).

Lemma invariant_of_put ls ls' id (v : jobj) :
  stored_docs "outbound_records" ls' = coll_put (stored_docs "outbound_records" ls) id v ->
  doc_ok (id, v) = true ->
  invariant_of ls -> invariant_of ls'.
Proof.
  intros Hdocs Hv [Hnd Hok]. unfold invariant_of. rewrite Hdocs. split.
  - by apply coll_put_NoDup.
  - by apply coll_put_Forall.
Qed.

Lemma invariant_same w w' :
  localStorage w' = localStorage w -> invariant w -> invariant w'.
Proof. unfold invariant. by intros ->. Qed.

(** A document whose status is neither "out" nor "returned" is well formed. *)
Lemma record_ok_status (r : jobj) s :
  r !! "status" = Some (JStr s) -> s ≠ "out" -> s ≠ "returned" -> record_ok r = true.
Proof.
  intros Hs Ho Hr. unfold record_ok. rewrite Hs.
  rewrite !bool_decide_false; [done | congruence | congruence].
Qed.

(** Writing the employee's name under the id the operation writes to. *)
Lemma named_by_written name k (old : option jobj) (data : mobj) :
  data !! "name" = Some (Some (JStr name)) ->
  named_by (written_id name k) (merged old data) = true.
Proof.
  intros Hn. unfold named_by, written_id. rewrite merged_lookup, Hn by done.
  destruct (decide (name = EmptyString)) as [->|Hne]; [done |].
  rewrite (bool_decide_true (name ≠ EmptyString)) by done.
  rewrite (bool_decide_true (name = name)) by done. apply orb_true_r.
Qed.

(** Leaving the name as it was, under the id it was stored under. *)
Lemma named_by_kept ls id (data : mobj) :
  data !! "name" = None ->
  invariant_of ls ->
  named_by id (merged (record_of ls id) data) = true.
Proof.
  intros Hn [_ Hok]. unfold named_by. rewrite merged_lookup, Hn by done.
  destruct (record_of ls id) as [old|] eqn:Hold; [|done].
  apply coll_get_elem in Hold. rewrite Forall_forall in Hok.
  apply Hok in Hold. unfold doc_ok in Hold. apply andb_true_iff in Hold as [_ Hold].
  exact Hold.
Qed.

Lemma invariant_initial : invariant initial.
Proof. split; [apply NoDup_nil_2 | apply Forall_nil_2]. Qed.

Lemma invariant_step o k w : invariant w -> invariant (run o k w).
Proof.
  intros Hinv. destruct o as [name place|name|name|name|name]; cbn [run].
  - by apply (invariant_same w).
  - by apply (invariant_same w).
  - eapply invariant_of_put; [apply deleteRecord_docs | | done].
    apply andb_true_iff. split; [| by apply named_by_written].
    cbn [snd]. eapply record_ok_status; [rewrite merged_lookup by done; reflexivity | done..].
  - unfold addEmployee. case_bool_decide; [done |].
    eapply invariant_of_put; [apply (setDoc_then_log name); by left | | done].
    apply andb_true_iff. split; [| by apply named_by_written].
    cbn [snd]. eapply record_ok_status; [rewrite merged_lookup by done; reflexivity | done..].
  - unfold removeEmployee.
    eapply invariant_of_put; [apply (setDoc_then_log name); by right | | done].
    apply andb_true_iff. split; [| by apply named_by_kept].
    cbn [snd]. eapply record_ok_status; [rewrite merged_lookup by done; reflexivity | done..].
Qed.

End Invariant.

(** [C3] Each of the five operations, as the component runs them, keeps the
    record invariant (one document per employee id; status "out" only with
    a non-null outAt; status "returned" only with a non-null returnAt that is
    not before outAt), and the invariant holds after every sequence of
    operations on the freshly initialised store. *)
Theorem operations_preserve_invariant :
  (forall o k w, Board.invariant w -> Board.invariant (Board.run o k w)) /\
  (forall l, Board.invariant (Board.run_all l Board.initial)).
Proof.
  split; [apply invariant_step |].
  intros l. unfold Board.run_all.
  generalize invariant_initial. generalize Board.initial.
  induction l as [|[o k] l IH]; intros w Hw; [done |].
  cbn [foldl]. apply IH. by apply invariant_step.
Qed.

Lemma operations_preserve_invariant_witness :
  let w := {| Board.localStorage := Some {[ "outbound_records" :=
                 [("Kim", <["status" := JStr "out"]> (<["outAt" := JIso 1000]>
                            (<["place" := JStr "Client HQ"]> ∅)))] ]};
              Board.console := []; Board.alerts := [] |} in
  Board.invariant w /\
  Board.invariant (Board.run (Board.RemoveEmployee "Kim") (Board.clock_at 2000 2) w).
Proof.
  cbv zeta.
  assert (H : Board.invariant
    {| Board.localStorage := Some {[ "outbound_records" :=
         [("Kim", <["status" := JStr "out"]> (<["outAt" := JIso 1000]>
                    (<["place" := JStr "Client HQ"]> ∅)))] ]};
       Board.console := []; Board.alerts := [] |}).
  { split; [apply NoDup_singleton | constructor; [reflexivity | constructor]]. }
  split; [exact H |].
  exact (proj1 operations_preserve_invariant _ _ _ H).
Defined.

Section TransactionInvariant.

Import Board.
Implicit Types (ls : option jstore) (k : clock) (name : string).

(** Were the transactions run (the database passed first, as
    [runTransactionMock] expects), [markOut] would keep the invariant ... *)
Lemma markOut_transaction_invariant name place k ls ls' :
  runTransactionMock ArgDb (ArgFn (markOut_update name place k (doc "outbound_records" name)))
    (doc_ms k) ls = Ok ls' ->
  invariant_of ls -> invariant_of ls'.
Proof.
  rewrite markOut_transaction. intros [= <-].
  apply invariant_of_put with (1 := markOut_transaction_docs name place k ls).
  apply andb_true_iff. split; [| by apply named_by_written].
  unfold record_ok. cbn [snd]. rewrite !merged_lookup by done. reflexivity.
Qed.

(** ... and [markReturn] would keep it as long as the clock has not gone
    back behind a stored [outAt]. *)
Lemma markReturn_transaction_invariant name k ls ls' :
  runTransactionMock ArgDb (ArgFn (markReturn_update name k (doc "outbound_records" name)))
    (doc_ms k) ls = Ok ls' ->
  out_by (now k) ls ->
  invariant_of ls -> invariant_of ls'.
Proof.
  rewrite markReturn_transaction.
  case_bool_decide as Hexists; intros [= <-] Hout Hinv.
  - eapply invariant_of_put; [| | exact Hinv].
    + rewrite stored_docs_put, decide_True by done. reflexivity.
    + fold (record_of ls name). apply andb_true_iff.
      split; [| by apply named_by_kept].
      unfold record_ok. cbn [snd]. rewrite !merged_lookup by done.
      change (returned_fields k !! "status") with (Some (Some (JStr "returned"))).
      change (returned_fields k !! "returnAt") with (Some (Some (JIso (now k)))).
      change (returned_fields k !! "outAt") with (@None (option json)).
      destruct (record_of ls name) as [old|] eqn:Hold; [|done].
      cbn. unfold out_by in Hout. rewrite Forall_forall in Hout.
      apply coll_get_elem in Hold. apply (Hout _ Hold).
  - eapply invariant_of_put; [| | exact Hinv].
    + rewrite setDocMock_docs. cbn [doc docMock collectionMock col mockCollection].
      rewrite decide_True by done.
      rewrite (target_id_named name _ (doc_ms k) k) by (done || by left). reflexivity.
    + apply andb_true_iff. split; [| by apply named_by_written].
      unfold record_ok. cbn [snd]. rewrite !merged_lookup by done. reflexivity.
Qed.

End TransactionInvariant.

Section Subscription.

Import Board.
Context {S : Type} (cb : list docSnap -> S -> S).
Implicit Types (sub : subscription) (ls : option jstore) (s : S).

Lemma unsubscribe_idempotent sub : unsubscribe (unsubscribe sub) = unsubscribe sub.
Proof. reflexivity. Qed.

(** After [unsubscribe] the interval no longer reaches the listener. *)
Lemma interval_after_unsubscribe sub ls s :
  fire cb PollInterval ls (unsubscribe sub, s) = (unsubscribe sub, s).
Proof. reflexivity. Qed.

(** The zero-delay timeout is neither cleared nor guarded by [stopped]. *)
Lemma timeout_after_unsubscribe sub ls s :
  timeout_armed sub = true ->
  (fire cb InitialTimeout ls (unsubscribe sub, s)).2 = cb (buildSnap (colName sub) ls) s.
Proof. intros Harmed. cbn. by rewrite Harmed. Qed.

(** Once unsubscribed, the listener is reached by the pending initial
    timeout and by nothing else. *)
Lemma fire_all_unsubscribed (count : list docSnap -> nat -> nat) sub due n :
  (forall snap m, count snap m = Datatypes.S m) ->
  stopped sub = true -> interval_armed sub = false ->
  (fire_all count due (sub, n)).2 =
  if timeout_armed sub && bool_decide (InitialTimeout ∈ due.*1) then Datatypes.S n else n.
Proof.
  intros Hcount. revert sub n.
  induction due as [|[t ls] due IH]; intros sub n Hstop Hint.
  - cbn. by rewrite andb_false_r.
  - change (fire_all count ((t, ls) :: due) (sub, n))
      with (fire_all count due (fire count t ls (sub, n))).
    rewrite fmap_cons. cbn [fst]. destruct t; unfold fire.
    + destruct (timeout_armed sub) eqn:Harmed.
      * rewrite IH by done. cbn [timeout_armed andb]. rewrite Hcount.
        by rewrite bool_decide_true by left.
      * rewrite IH by done. by rewrite Harmed.
    + rewrite Hint, IH by done.
      destruct (timeout_armed sub); [|done]. cbn [andb].
      apply (f_equal (fun b : bool => if b then Datatypes.S n else n)).
      apply bool_decide_ext. rewrite elem_of_cons.
      split; [intros H; by right | intros [[=]|H]; exact H].
Qed.

End Subscription.

(** [C9] Unsubscribing right after subscribing does not stop the first
    delivery.  Whatever timers come due after [unsubscribe] has returned,
    the listener is called once more if the zero-delay timeout of
    onSnapshotMock is among them, and not at all otherwise: the interval is
    silenced, the initial timeout is not. *)
Theorem listener_called_after_unsubscribe (q : Board.colRef)
    (due : list (Board.timer * option jstore)) :
  (Board.fire_all (fun _ n => S n) due (Board.unsubscribe (Board.onSnapshot q), 0%nat)).2 =
  if bool_decide (Board.InitialTimeout ∈ due.*1) then 1%nat else 0%nat.
Proof.
  rewrite (fire_all_unsubscribed (fun _ n => S n)) by done.
  reflexivity.
Qed.

(** The same on the records subscription of the component: the timeout
    fires on the fresh store after the component has unsubscribed. *)
Example listener_called_once_after_unsubscribe :
  (Board.fire (fun _ n => S n) Board.InitialTimeout (Board.localStorage Board.initial)
     (Board.unsubscribe (Board.onSnapshot Board.records_query), 0%nat)).2 = 1%nat.
Proof. reflexivity. Qed.

Section StatusSummary.

Import Server.
Local Open Scope Z_scope.
Implicit Types (zone : Z -> Z) (now : Z) (roster : list user) (records : list outbound) (u : user).

Lemma statusOfUser_status zone records now u :
  us_status (statusOfUser zone records now u) ∈ ["office"; "outbound"; "vacation"; "absent"].
Proof.
  unfold statusOfUser. cbn [us_status].
  repeat case_match; cbn [fst]; repeat (constructor || (apply list_elem_of_further)).
Qed.

Lemma statusOfUser_not_returned zone records now u :
  us_status (statusOfUser zone records now u) ≠ "returned".
Proof.
  intros Heq. pose proof (statusOfUser_status zone records now u) as Hin.
  rewrite Heq in Hin. repeat (apply elem_of_cons in Hin as [Hin|Hin]; [discriminate |]).
  by apply elem_of_nil in Hin.
Qed.

Lemma count_status_returned zone records now roster :
  count_status "returned" (statusOfUser zone records now <$> roster) = 0%nat.
Proof.
  unfold count_status. induction roster as [|u roster IH]; [done |].
  rewrite fmap_cons, filter_cons_False; [done |].
  apply statusOfUser_not_returned.
Qed.

Lemma find_snoc_hit {A : Type} (f : A -> bool) (l : list A) (x : A) :
  f x = true -> is_Some (find f (l ++ [x])).
Proof.
  intros Hx. induction l as [|y l IH]; cbn [app find].
  - rewrite Hx. by eexists.
  - destruct (f y); [by eexists | done].
Qed.

Lemma find_snoc_first {A : Type} (f : A -> bool) (l : list A) (x : A) :
  Forall (fun y => f y = false) l -> f x = true -> find f (l ++ [x]) = Some x.
Proof.
  intros Hl Hx. induction Hl as [|y l Hy Hl IH]; cbn [app find].
  - by rewrite Hx.
  - by rewrite Hy.
Qed.

End StatusSummary.

(** [C10] The status summary never derives the status "returned": its
    returned count is 0 for every roster, every list of outbound records and
    every instant, and no user entry carries that status. *)
Theorem summary_returned_is_zero (zone : Z -> Z) (roster : list Server.user)
    (records : list Server.outbound) (now : Z) :
  Server.returned (Server.getStatusSummary zone roster records now) = 0%nat /\
  Forall (fun s => Server.us_status s ≠ "returned")
         (Server.summary_users (Server.getStatusSummary zone roster records now)).
Proof.
  split; [apply count_status_returned |].
  cbn [Server.getStatusSummary Server.summary_users].
  apply Forall_fmap, Forall_forall. intros u _. apply statusOfUser_not_returned.
Qed.

(** A user whose only record of the day is returned, on Tuesday at 10:00:
    the summary says "office" and counts no one as returned. *)
Example returned_record_counts_as_office :
  let kst := JsDate.fixed_zone 32400000%Z in
  let who := {| Server.s_id := 1; Server.s_name := "김민수"; Server.s_role := "employee" |} in
  let st1 := (Server.post_outbounds who "Client HQ" (Some 1699920000000%Z) None "::1"
                1699920000000 Server.start).1 in
  let st2 := (Server.put_return who 1699920000000 "::1" 1699923000000 st1).1 in
  let s := Server.getStatusSummary kst Server.users (Server.outbounds st2) 1699923600000 in
  Server.o_status <$> Server.outbounds st2 = ["returned"] /\
  Server.us_status <$> Server.summary_users s !! 0%nat = Some "office" /\
  Server.returned s = 0%nat /\ Server.office s = 1%nat /\ Server.absent s = 6%nat.
Proof. cbv zeta. split_and!; vm_compute; reflexivity. Qed.

Section Recording.

Import Server.
Local Open Scope Z_scope.

Lemma open_record_found (who : session) location outTime ert ip now st :
  is_Some (find (fun o => bool_decide (o_userId o = s_id who) &&
                          bool_decide (o_status o = "outbound"))
                (outbounds (post_outbounds who location outTime ert ip now st).1)).
Proof.
  cbn [post_outbounds fst outbounds]. apply find_snoc_hit.
  cbn [o_userId o_status]. by rewrite !bool_decide_true.
Qed.

Lemma open_record_is_new (who : session) location outTime ert ip now st :
  Forall (fun o => ~ (o_userId o = s_id who /\ o_status o = "outbound")) (outbounds st) ->
  o_location <$> find (fun o => bool_decide (o_userId o = s_id who) &&
                                bool_decide (o_status o = "outbound"))
                      (outbounds (post_outbounds who location outTime ert ip now st).1) =
  Some location.
Proof.
  intros Hnone. cbn [post_outbounds fst outbounds]. rewrite find_snoc_first.
  - reflexivity.
  - eapply Forall_impl; [exact Hnone |]. intros o Ho. cbn beta.
    apply andb_false_iff.
    destruct (decide (o_userId o = s_id who)) as [Hi|Hi];
      [right | left; by apply bool_decide_false].
    apply bool_decide_false. intros Hs. by apply Ho.
  - cbn [o_userId o_status]. by rewrite !bool_decide_true.
Qed.

(** The derivation during working hours on a weekday. *)
Lemma working_hours_tests zone t :
  JsDate.getDay zone t ≠ 0 -> JsDate.getDay zone t ≠ 6 ->
  9 <= JsDate.getHours zone t < 18 ->
  (JsDate.getDay zone t =? 0) || (JsDate.getDay zone t =? 6) = false /\
  (JsDate.getHours zone t <? 9) || (JsDate.getHours zone t >=? 18) = false.
Proof.
  intros Hsun Hsat [Hlo Hhi]. split; apply orb_false_iff; split.
  - by apply Z.eqb_neq.
  - by apply Z.eqb_neq.
  - by apply Z.ltb_ge.
  - rewrite Z.geb_leb. apply Z.leb_gt. lia.
Qed.

Lemma statusOfUser_open zone records t u o :
  JsDate.getDay zone t ≠ 0 -> JsDate.getDay zone t ≠ 6 ->
  9 <= JsDate.getHours zone t < 18 ->
  find (fun o => bool_decide (o_userId o = u_id u) && bool_decide (o_status o = "outbound"))
       records = Some o ->
  us_status (statusOfUser zone records t u) = "outbound" /\
  us_currentLocation (statusOfUser zone records t u) = o_location o.
Proof.
  intros Hsun Hsat Hh Hfind.
  destruct (working_hours_tests zone t Hsun Hsat Hh) as [Hday Hhour].
  unfold statusOfUser. cbn [us_status us_currentLocation].
  rewrite Hfind, Hday, Hhour.
  rewrite bool_decide_true by eauto. by rewrite andb_false_r.
Qed.

End Recording.

(** The server's mark-out and status derivation.  On a weekday between
    09:00 and 18:00 (local time of the host), once POST /api/outbounds has
    recorded the outbound of roster user e at the instant t, the status
    summary computed at t lists e with status "outbound"; the location it
    reports is the posted one when e had no earlier record still in the
    "outbound" state. *)
Theorem outbound_status_in_working_hours (zone : Z -> Z) (roster : list Server.user)
    (who : Server.session) (location : string) (outTime : option Z) (ert : option (option Z)) (ip : string)
    (t : Z) (st : Server.state) (u : Server.user) :
  u ∈ roster ->
  Server.u_id u = Server.s_id who ->
  JsDate.getDay zone t ≠ 0%Z -> JsDate.getDay zone t ≠ 6%Z ->
  (9 <= JsDate.getHours zone t < 18)%Z ->
  let st' := (Server.post_outbounds who location outTime ert ip t st).1 in
  let s := Server.statusOfUser zone (Server.outbounds st') t u in
  s ∈ Server.summary_users (Server.getStatusSummary zone roster (Server.outbounds st') t) /\
  Server.us_userId s = Server.u_id u /\
  Server.us_status s = "outbound" /\
  (Forall (fun o => ~ (Server.o_userId o = Server.s_id who /\ Server.o_status o = "outbound"))
          (Server.outbounds st) ->
   Server.us_currentLocation s = location).
Proof.
  intros Hu Hid Hsun Hsat Hh st' s. subst s.
  destruct (open_record_found who location outTime ert ip t st) as [o Ho].
  fold st' in Ho. rewrite <- Hid in Ho.
  destruct (statusOfUser_open zone (Server.outbounds st') t u o Hsun Hsat Hh Ho) as [Hs Hl].
  split_and!.
  - cbn [Server.getStatusSummary Server.summary_users]. by apply list_elem_of_fmap_2.
  - reflexivity.
  - exact Hs.
  - intros Hnone. rewrite Hl.
    pose proof (open_record_is_new who location outTime ert ip t st Hnone) as Hnew.
    fold st' in Hnew. rewrite <- Hid, Ho in Hnew. by injection Hnew.
Qed.

(** Sample instants, for a host on Korean time (UTC+9, no daylight saving). *)
Example sample_instants :
  let kst := JsDate.fixed_zone 32400000%Z in
  (JsDate.toISOString 1699923600000 = "2023-11-14T01:00:00.000Z" /\
   JsDate.getDay kst 1699923600000 = 2%Z /\ JsDate.getHours kst 1699923600000 = 10%Z) /\
  (JsDate.toISOString 1699959600000 = "2023-11-14T11:00:00.000Z" /\
   JsDate.getDay kst 1699959600000 = 2%Z /\ JsDate.getHours kst 1699959600000 = 20%Z) /\
  (JsDate.toISOString 1700269200000 = "2023-11-18T01:00:00.000Z" /\
   JsDate.getDay kst 1700269200000 = 6%Z /\ JsDate.getHours kst 1700269200000 = 10%Z).
Proof. vm_compute. auto 10. Qed.

Lemma outbound_status_in_working_hours_witness :
  let kst := JsDate.fixed_zone 32400000%Z in
  let tue_10h := 1699923600000%Z in
  let who := {| Server.s_id := 1; Server.s_name := "김민수"; Server.s_role := "employee" |} in
  let kim := {| Server.u_id := 1; Server.u_name := "김민수"; Server.u_password := "1234";
                Server.u_role := "employee"; Server.u_department := "영업팀" |} in
  let st' := (Server.post_outbounds who "Client HQ" (Some tue_10h) None "::1" tue_10h Server.start).1 in
  (kim ∈ Server.users /\ Server.u_id kim = Server.s_id who /\
   JsDate.getDay kst tue_10h ≠ 0%Z /\ JsDate.getDay kst tue_10h ≠ 6%Z /\
   (9 <= JsDate.getHours kst tue_10h < 18)%Z) /\
  Server.us_status (Server.statusOfUser kst (Server.outbounds st') tue_10h kim) = "outbound".
Proof.
  cbv zeta.
  assert (Hin : {| Server.u_id := 1; Server.u_name := "김민수"; Server.u_password := "1234";
                   Server.u_role := "employee"; Server.u_department := "영업팀" |} ∈ Server.users)
    by (unfold Server.users; left).
  assert (Hsun : JsDate.getDay (JsDate.fixed_zone 32400000%Z) 1699923600000 ≠ 0%Z) by (by vm_compute).
  assert (Hsat : JsDate.getDay (JsDate.fixed_zone 32400000%Z) 1699923600000 ≠ 6%Z) by (by vm_compute).
  assert (Hh : (9 <= JsDate.getHours (JsDate.fixed_zone 32400000%Z) 1699923600000 < 18)%Z) by (vm_compute; split; [discriminate | reflexivity]).
  split; [split_and!; done || exact (proj1 Hh) || exact (proj2 Hh) |].
  exact (proj1 (proj2 (proj2 (outbound_status_in_working_hours (JsDate.fixed_zone 32400000%Z) Server.users
    {| Server.s_id := 1; Server.s_name := "김민수"; Server.s_role := "employee" |}
    "Client HQ" (Some 1699923600000%Z) None "::1" 1699923600000 Server.start _
    Hin eq_refl Hsun Hsat Hh)))).
Defined.

(** Outside these hours the record is overridden.  For the first user of
    the roster on a host on Korean time: an outbound recorded on Saturday
    2023-11-18 at 10:00 is
    summarised at that instant as "vacation"; one recorded on Tuesday
    2023-11-14 at 20:00 as "absent"; and one recorded at "Client HQ" on
    Tuesday at 10:00 while an earlier record at "Factory" is still open is
    reported at "Factory". *)
Example outbound_status_overridden :
  let kst := JsDate.fixed_zone 32400000%Z in
  let who := {| Server.s_id := 1; Server.s_name := "김민수"; Server.s_role := "employee" |} in
  let after st t := (Server.post_outbounds who "Client HQ" (Some t) None "::1" t st).1 in
  let first_user st t :=
    Server.summary_users (Server.getStatusSummary kst Server.users (Server.outbounds st) t)
      !! 0%nat in
  Server.us_status <$> first_user (after Server.start 1700269200000%Z) 1700269200000%Z
    = Some "vacation" /\
  Server.us_status <$> first_user (after Server.start 1699959600000%Z) 1699959600000%Z
    = Some "absent" /\
  let earlier := (Server.post_outbounds who "Factory" (Some 1699920000000%Z) None "::1"
                    1699920000000 Server.start).1 in
  Server.us_status <$> first_user (after earlier 1699923600000%Z) 1699923600000%Z
    = Some "outbound" /\
  Server.us_currentLocation <$> first_user (after earlier 1699923600000%Z) 1699923600000%Z
    = Some "Factory".
Proof. cbv zeta. split_and!; vm_compute; reflexivity. Qed.

Section LogView.

Import Server.
Local Open Scope Z_scope.

Lemma slice_from_last {A : Type} (n : Z) (l : list A) :
  0 < n -> slice_from (- n) l = drop (length l - Z.to_nat n) l.
Proof.
  intros Hn. unfold slice_from.
  rewrite (proj2 (Z.ltb_lt _ _)) by lia. f_equal. lia.
Qed.

Lemma ascending_tail a l : ascending (a :: l) = true -> ascending l = true.
Proof. destruct l as [|b l]; [done |]. cbn [ascending]. by intros [_ ?]%andb_true_iff. Qed.

Lemma ascending_drop (n : nat) l : ascending l = true -> ascending (drop n l) = true.
Proof.
  revert l. induction n as [|n IH]; intros [|a l] Hl; try done.
  cbn [drop]. apply IH. by apply ascending_tail in Hl.
Qed.

Lemma descending_snoc m a :
  descending m = true -> (forall y, last m = Some y -> a <= y) ->
  descending (m ++ [a]) = true.
Proof.
  induction m as [|x [|y m] IH]; intros Hm Hlast.
  - done.
  - cbn. rewrite andb_true_r. apply Z.leb_le. by apply Hlast.
  - cbn [app descending] in *. apply andb_true_iff in Hm as [Hxy Hm].
    rewrite Hxy. cbn [andb]. by apply IH.
Qed.

Lemma descending_reverse l : ascending l = true -> descending (reverse l) = true.
Proof.
  induction l as [|a l IH]; intros Hl; [done |].
  rewrite reverse_cons. apply descending_snoc.
  - apply IH. by apply ascending_tail in Hl.
  - intros y Hy. rewrite last_reverse in Hy.
    destruct l as [|b l]; [done |]. injection Hy as ->.
    cbn [ascending] in Hl. apply andb_true_iff in Hl as [Hab _]. by apply Z.leb_le.
Qed.

Lemma logs_feed_all ls :
  Board.logs_feed ls =
  (fun d => spread {[ "id" := Some (JStr d.1) ]} (parse_obj d.2)) <$>
    Board.stored_docs "outbound_logs" ls.
Proof.
  unfold Board.logs_feed, Board.logs_listener, Board.buildSnap,
    Board.getDataSnapshotForCollection.
  change (Board.colName (Board.onSnapshot Board.logs_query)) with "outbound_logs".
  rewrite read_docs, <- !list_fmap_compose.
  apply list_fmap_ext. by intros i [id o] _.
Qed.

(** An entry with a fresh id goes to the end of the stored log, and so to
    the end of what the subscription delivers. *)
Lemma writeLog_appends text k w :
  coll_get (Board.stored_docs "outbound_logs" (Board.localStorage w))
           (Board.log_id (Board.log_ms k) (Board.log_rand k)) = None ->
  Board.logs_feed (Board.localStorage (Board.writeLog text k w)) =
  Board.logs_feed (Board.localStorage w) ++
    [spread {[ "id" := Some (JStr (Board.log_id (Board.log_ms k) (Board.log_rand k))) ]}
       (parse_obj (Board.log_entry text k))].
Proof.
  intros Hfresh. rewrite !logs_feed_all, writeLog_docs, decide_True by done.
  rewrite coll_put_fresh by (done || apply log_id_plain). by rewrite fmap_app.
Qed.

End LogView.

(** [C6] The log endpoint, asked for a positive number n of entries (100
    when the query names none), leaves the log as it is and returns its last
    n entries, or all when there are fewer, the latest appended first; that
    is descending by timestamp whenever the log was appended in timestamp
    order.  The log subscription of the mock database delivers every stored
    entry, in stored order, whatever order and limit the query asked for. *)
Theorem recent_logs (n : Z) (st : Server.state) :
  (0 < n)%Z ->
  (Server.get_logs (Server.LimitNumber n) st).1 = st /\
  (Server.get_logs (Server.LimitNumber n) st).2 =
    reverse (drop (length (Server.systemLogs st) - Z.to_nat n) (Server.systemLogs st)) /\
  length (Server.get_logs (Server.LimitNumber n) st).2 <= Z.to_nat n /\
  (Server.ascending (Server.l_timestamp <$> Server.systemLogs st) = true ->
   Server.descending (Server.l_timestamp <$> (Server.get_logs (Server.LimitNumber n) st).2) = true) /\
  Server.get_logs Server.LimitMissing st = Server.get_logs (Server.LimitNumber 100) st /\
  (forall ls, Board.logs_feed ls =
     (fun d => spread {[ "id" := Some (JStr d.1) ]} (parse_obj d.2)) <$>
       Board.stored_docs "outbound_logs" ls).
Proof.
  intros Hn. cbn [Server.get_logs fst snd]. rewrite slice_from_last by done.
  split_and!; try done.
  - rewrite length_reverse, length_drop. lia.
  - intros Hasc. rewrite fmap_reverse, fmap_drop.
    by apply descending_reverse, ascending_drop.
  - apply logs_feed_all.
Qed.

Lemma recent_logs_witness :
  let entry t := {| Server.l_userId := 1; Server.l_userName := "김민수";
                    Server.l_action := "login"; Server.l_timestamp := t;
                    Server.l_ip := "::1" |} in
  let st := {| Server.outbounds := []; Server.systemLogs := [entry 10; entry 20; entry 30]%Z |} in
  (0 < 2)%Z /\
  (Server.get_logs (Server.LimitNumber 2) st).2 = [entry 30; entry 20]%Z.
Proof.
  cbv zeta. split; [lia |].
  exact (proj1 (proj2 (recent_logs 2 _ ltac:(lia)))).
Defined.

(** [C6] counterexample: after two log entries, written at 1000 ms and at
    2000 ms, the log subscription delivers the older one first; and after 51
    entries it delivers all 51, although the query asked for
    [orderBy("ts", "desc")] and [limit(50)]. *)
Lemma logs_feed_oldest_first_uncapped :
  let w2 := Board.deleteRecord "Kim" (Board.clock_at 2000 2)
              (Board.deleteRecord "Lee" (Board.clock_at 1000 1) Board.initial) in
  let w51 := Board.run_all
               ((fun i => (Board.DeleteRecord "Kim", Board.clock_at (Z.of_nat i) 0)) <$> seq 1 51)
               Board.initial in
  Board.entry_time <$> Board.logs_feed (Board.localStorage w2) = [1000; 2000]%Z /\
  Server.descending (Board.entry_time <$> Board.logs_feed (Board.localStorage w2)) = false /\
  length (Board.logs_feed (Board.localStorage w51)) = 51%nat.
Proof. cbv zeta. split_and!; vm_compute; reflexivity. Qed.



(** * Further properties of the board *)

Section StoreFacts.

Import Board.
Implicit Types (ls : option jstore) (ref : docRef) (data : mobj) (w : world) (k : clock).




(** A text whose collections are in enumeration order comes back as it
    was. *)
Lemma stringify_parse_enumerated (s : jstore) :
  map_Forall (fun _ members => enumerated members) s -> stringify_store (parse_store s) = s.
Proof.
  intros Hs. apply map_eq. intros c. rewrite stringify_parse_store.
  destruct (s !! c) as [members|] eqn:Hc; cbn; [|done].
  f_equal. apply parse_enumerated. by apply (Hs c).
Qed.

(** Such is every text that [writeStore] writes from what [readStore]
    read. *)
Lemma read_text_enumerated ls :
  map_Forall (fun _ members => enumerated members) (stringify_store (readStore ls)).
Proof.
  intros c members Hc.
  pose proof (stored_docs_stringify c ls) as Hd. rewrite Hc in Hd. cbn in Hd. subst members.
  apply stored_docs_enumerated.
Qed.

Lemma put_text_enumerated ls c (d : list (string * jobj)) :
  enumerated d ->
  map_Forall (fun _ members => enumerated members) (<[c := d]> (stringify_store (readStore ls))).
Proof. intros Hd. apply map_Forall_insert_2; [done | apply read_text_enumerated]. Qed.

Lemma merged_idempotent (old : option jobj) data :
  merged (Some (merged old data)) data = merged old data.
Proof.
  apply map_eq. intros f. destruct (decide (f = "__proto__")) as [->|Hf'].
  { by rewrite !merged_proto. }
  rewrite !merged_lookup by done.
  destruct (data !! f) as [v|] eqn:Hf; [done |]. cbn. by rewrite merged_lookup, Hf.
Qed.

(** Merging the same data twice into the document under [id]. *)
Lemma coll_put_merged_twice (c : list (string * jobj)) id data :
  let c1 := coll_put c id (merged (coll_get c id) data) in
  coll_put c1 id (merged (coll_get c1 id) data) = c1.
Proof.
  cbv zeta. destruct (decide (id ≠ "__proto__" \/ is_Some (coll_get c id))) as [Hid|Hid].
  - by rewrite coll_get_put_eq, merged_idempotent, coll_put_put.
  - assert (id = "__proto__") as ->
      by (destruct (decide (id = "__proto__")); [done | destruct Hid; by left]).
    assert (coll_get c "__proto__" = None) as Hnone
      by (destruct (coll_get c "__proto__") eqn:E; [destruct Hid; right; by eexists | done]).
    by rewrite !(coll_put_proto c) by done.
Qed.

(** What [setDocMock] leaves in localStorage. *)
Lemma setDocMock_raw ref data ms ls :
  setDocMock ref data ms ls =
  Some (<[col ref := coll_put (stored_docs (col ref) ls) (target_id ref data ms)
                       (merged (coll_get (stored_docs (col ref) ls) (target_id ref data ms)) data)]>
          (stringify_store (readStore ls))).
Proof.
  unfold setDocMock, writeStore. f_equal. unfold stringify_store at 1.
  rewrite fmap_insert. f_equal.
  rewrite coll_read_default.
  by rewrite read_docs, coll_put_fmap, stringify_parse_docs, coll_get_fmap, merged_parse.
Qed.

Lemma addDocMock_raw (c : colRef) data ms rnd ls :
  (addDocMock c data ms rnd ls).1 =
  Some (<[mockCollection c := coll_put (stored_docs (mockCollection c) ls) (log_id ms rnd)
            (stringify_obj (Object_assign data {[ "id" := Some (JStr (log_id ms rnd)) ]}))]>
          (stringify_store (readStore ls))).
Proof.
  unfold addDocMock, writeStore. cbn [fst]. f_equal. unfold stringify_store at 1.
  rewrite fmap_insert. f_equal.
  by rewrite read_docs, coll_put_fmap, stringify_parse_docs.
Qed.

Lemma stored_docs_insert (m : jstore) c c' d :
  enumerated d ->
  stored_docs c' (Some (<[c := d]> m)) = if decide (c = c') then d else stored_docs c' (Some m).
Proof.
  intros Hd. cbn [stored_docs]. rewrite lookup_insert.
  destruct (decide (c = c')); [by apply parse_enumerated | done].
Qed.

(** Reading a text that was written from what [readStore] read, with one
    collection replaced by an object in enumeration order. *)
Lemma stringify_read_put ls c (d : list (string * jobj)) :
  enumerated d ->
  stringify_store (readStore (Some (<[c := d]> (stringify_store (readStore ls))))) =
  <[c := d]> (stringify_store (readStore ls)).
Proof. intros Hd. cbn [readStore]. by apply stringify_parse_enumerated, put_text_enumerated. Qed.

Lemma stored_docs_text c ls :
  stored_docs c (Some (stringify_store (readStore ls))) = stored_docs c ls.
Proof.
  cbn [stored_docs]. rewrite stored_docs_stringify.
  apply parse_enumerated, stored_docs_enumerated.
Qed.

End StoreFacts.


(** A text that does not come back: the member "2" stands behind "b" in
    the text and ahead of it after the round trip. *)
Example text_reordered :
  let s : jstore := {[ "outbound_records" := [("b", ∅); ("2", ∅)] ]} in
  stringify_store (parse_store s) !! "outbound_records" = Some [("2", ∅); ("b", ∅)].
Proof. by vm_compute. Qed.


(** Writing the same data twice is writing it once. *)
Theorem setDocMock_idempotent (ref : Board.docRef) (data : mobj) (ms : Z) (ls : option jstore) :
  Board.setDocMock ref data ms (Board.setDocMock ref data ms ls) = Board.setDocMock ref data ms ls.
Proof.
  rewrite (setDocMock_raw ref data ms ls) at 2.
  rewrite (setDocMock_raw ref data ms (Board.setDocMock ref data ms ls)).
  rewrite (setDocMock_raw ref data ms ls).
  assert (Hput : enumerated (coll_put (Board.stored_docs (Board.col ref) ls)
                    (Board.target_id ref data ms)
                    (Board.merged (coll_get (Board.stored_docs (Board.col ref) ls)
                                     (Board.target_id ref data ms)) data)))
    by apply enumerated_put, stored_docs_enumerated.
  rewrite stringify_read_put, stored_docs_insert, decide_True by done.
  rewrite coll_put_merged_twice.
  by rewrite insert_insert_eq.
Qed.

Section LogAndOperations.

Import Board.
Implicit Types (ls : option jstore) (ref : docRef) (data : mobj) (w : world) (k : clock)
  (name : string).

Lemma coll_put_length_taken {V : Type} (c : list (string * V)) key v :
  is_Some (coll_get c key) -> length (coll_put c key v) = length c.
Proof.
  intros Htaken. rewrite <- (length_fmap fst), coll_put_taken by done.
  apply length_fmap.
Qed.

Lemma writeLog_entry_docs text k w :
  stored_docs "outbound_logs" (localStorage (writeLog text k w)) =
  coll_put (stored_docs "outbound_logs" (localStorage w)) (log_id (log_ms k) (log_rand k))
    (log_entry text k).
Proof. by rewrite writeLog_docs, decide_True. Qed.

(** An operation that is a [setDoc] on the employee's document followed by
    [writeLog]: what it leaves in localStorage. *)
Lemma setDoc_then_log_raw name data text k w :
  data !! "name" = Some (Some (JStr name)) \/ data !! "name" = None ->
  localStorage (writeLog text k
    (stored (setDoc (doc "outbound_records" name) data (doc_ms k) (localStorage w)) w)) =
  Some (<["outbound_logs" :=
            coll_put (stored_docs "outbound_logs" (localStorage w))
              (log_id (log_ms k) (log_rand k)) (log_entry text k)]>
       (<["outbound_records" :=
            coll_put (stored_docs "outbound_records" (localStorage w)) (written_id name k)
              (merged (record_of (localStorage w) (written_id name k)) data)]>
          (stringify_store (readStore (localStorage w))))).
Proof.
  intros Hn. unfold writeLog. cbn [localStorage stored]. unfold addDoc, setDoc.
  rewrite addDocMock_raw. cbn [collection collectionMock mockCollection].
  rewrite setDocMock_raw. cbn [doc docMock collectionMock col mockCollection].
  rewrite (target_id_named name data (doc_ms k) k) by done.
  assert (Hput : enumerated (coll_put (stored_docs "outbound_records" (localStorage w))
                    (written_id name k)
                    (merged (coll_get (stored_docs "outbound_records" (localStorage w))
                               (written_id name k)) data)))
    by apply enumerated_put, stored_docs_enumerated.
  rewrite stringify_read_put, stored_docs_insert, decide_False by done.
  by rewrite stored_docs_text.
Qed.

Lemma setDoc_then_log_record name data text k w id' :
  data !! "name" = Some (Some (JStr name)) \/ data !! "name" = None ->
  name ≠ "__proto__" ->
  record_of (localStorage (writeLog text k
    (stored (setDoc (doc "outbound_records" name) data (doc_ms k) (localStorage w)) w))) id' =
  if decide (written_id name k = id')
  then Some (merged (record_of (localStorage w) (written_id name k)) data)
  else record_of (localStorage w) id'.
Proof.
  intros Hn Hname. unfold record_of at 1.
  rewrite (proj1 (setDoc_then_log name data text k w Hn)).
  destruct (decide (written_id name k = id')) as [<-|Hne].
  - apply coll_get_put_eq. left. by apply written_id_plain.
  - by apply coll_get_put_ne.
Qed.

Lemma after_setDoc_and_log_twice id data lid e ls :
  after_setDoc_and_log id data lid e (after_setDoc_and_log id data lid e ls) =
  after_setDoc_and_log id data lid e ls.
Proof.
  set (ls1 := after_setDoc_and_log id data lid e ls).
  assert (HeL : enumerated (coll_put (stored_docs "outbound_logs" ls) lid e))
    by apply enumerated_put, stored_docs_enumerated.
  assert (HeR : enumerated (coll_put (stored_docs "outbound_records" ls) id
                   (merged (coll_get (stored_docs "outbound_records" ls) id) data)))
    by apply enumerated_put, stored_docs_enumerated.
  assert (HL : stored_docs "outbound_logs" ls1 =
               coll_put (stored_docs "outbound_logs" ls) lid e).
  { unfold ls1, after_setDoc_and_log. by rewrite stored_docs_insert, decide_True. }
  assert (HR : stored_docs "outbound_records" ls1 =
               coll_put (stored_docs "outbound_records" ls) id
                 (merged (coll_get (stored_docs "outbound_records" ls) id) data)).
  { unfold ls1, after_setDoc_and_log.
    rewrite stored_docs_insert, decide_False by done.
    by rewrite stored_docs_insert, decide_True. }
  unfold after_setDoc_and_log at 1. rewrite HL, HR.
  rewrite coll_put_merged_twice, coll_put_put.
  unfold ls1, after_setDoc_and_log. cbn [readStore].
  rewrite stringify_parse_enumerated.
  - f_equal. apply map_eq. intros c. rewrite !lookup_insert.
    repeat case_decide; done.
  - apply map_Forall_insert_2; [done |]. by apply put_text_enumerated.
Qed.

Lemma deleteRecord_world name k w :
  deleteRecord name k w =
  {| localStorage := after_setDoc_and_log (written_id name k) (cleared name k)
                       (log_id (log_ms k) (log_rand k))
                       (log_entry (name +:+ " record cleared") k) (localStorage w);
     console := console w; alerts := alerts w |}.
Proof.
  pose proof (setDoc_then_log_raw name (cleared name k) (name +:+ " record cleared") k w
                (or_introl (cleared_name name k))) as Hraw.
  unfold deleteRecord, after_setDoc_and_log, record_of in *.
  unfold writeLog, stored in *. cbn [localStorage console alerts] in *.
  by rewrite Hraw.
Qed.

End LogAndOperations.

(** writeLog stores its entry under the id log_<ms>_<random>.  A fresh id
    puts the entry at the end of the log; an id that is already taken
    replaces the older entry where it stands, so the log does not grow.  The
    other entries and the records are not touched. *)
Theorem writeLog_appends_or_replaces (text : string) (k : Board.clock) (w : Board.world) :
  let id := Board.log_id (Board.log_ms k) (Board.log_rand k) in
  let logs w := Board.stored_docs "outbound_logs" (Board.localStorage w) in
  let w' := Board.writeLog text k w in
  coll_get (logs w') id = Some (Board.log_entry text k) /\
  (coll_get (logs w) id = None -> logs w' = logs w ++ [(id, Board.log_entry text k)]) /\
  (is_Some (coll_get (logs w) id) -> length (logs w') = length (logs w)) /\
  (forall id', id' ≠ id -> coll_get (logs w') id' = coll_get (logs w) id') /\
  Board.stored_docs "outbound_records" (Board.localStorage w') =
    Board.stored_docs "outbound_records" (Board.localStorage w).
Proof.
  intros id logs w'. subst id logs w'. cbn beta. rewrite writeLog_entry_docs. split_and!.
  - apply coll_get_put_eq. left. apply log_id_plain.
  - intros Hfresh. apply coll_put_fresh; [done | apply log_id_plain ..].
  - intros Htaken. by apply coll_put_length_taken.
  - intros id' Hne. by apply coll_get_put_ne.
  - apply writeLog_records.
Qed.

(** Two entries written with the same millisecond and the same random
    number: only the second one is in the log. *)
Example writeLog_collision :
  let k := Board.clock_at 1000 7 in
  let w := Board.writeLog "second" k (Board.writeLog "first" k Board.initial) in
  (fun d => d.2 !! "text") <$> Board.stored_docs "outbound_logs" (Board.localStorage w) =
  [Some (JStr "second")].
Proof. vm_compute. reflexivity. Qed.

(** With the same clock and random readings, clearing a record twice leaves
    exactly what clearing it once leaves. *)
Theorem deleteRecord_same_readings (name : string) (k : Board.clock) (w : Board.world) :
  Board.deleteRecord name k (Board.deleteRecord name k w) = Board.deleteRecord name k w.
Proof.
  rewrite (deleteRecord_world name k (Board.deleteRecord name k w)).
  rewrite !(deleteRecord_world name k w). cbn [Board.localStorage Board.console Board.alerts].
  by rewrite after_setDoc_and_log_twice.
Qed.

(** addEmployee does nothing for the empty name.  For any other name but
    "__proto__" it merges into the employee's document, also when there is
    one already: name, status "unregistered" and createdAt are written,
    every other field (outAt, returnAt, place, ...) stays as it was, but for
    a field named "__proto__"; the other documents are untouched and nothing
    is alerted. *)
Theorem addEmployee_merges (name : string) (k : Board.clock) (w : Board.world) :
  name ≠ EmptyString -> name ≠ "__proto__" ->
  let w' := Board.addEmployee name k w in
  (exists r, Board.record_of (Board.localStorage w') name = Some r /\
     r !! "name" = Some (JStr name) /\ r !! "status" = Some (JStr "unregistered") /\
     r !! "createdAt" = Some (JIso (Board.stamp k)) /\
     (forall f, f ∉ ["name"; "status"; "createdAt"; "__proto__"] ->
        r !! f = Board.record_of (Board.localStorage w) name ≫= (.!! f))) /\
  (forall id, id ≠ name ->
     Board.record_of (Board.localStorage w') id = Board.record_of (Board.localStorage w) id) /\
  Board.alerts w' = Board.alerts w /\
  Board.addEmployee EmptyString k w = w.
Proof.
  intros Hname Hproto w'. subst w'. unfold Board.addEmployee at 1 2 3.
  rewrite bool_decide_false by done. split_and!.
  - eexists. split.
    + rewrite setDoc_then_log_record by (done || by left).
      rewrite written_id_nonempty, decide_True by done. reflexivity.
    + split_and!; try (rewrite merged_lookup by done; reflexivity).
      intros f Hf. rewrite !not_elem_of_cons in Hf. destruct Hf as (?&?&?&?&_).
      rewrite merged_lookup by done.
      by rewrite !lookup_insert_ne, lookup_empty.
  - intros id Hid. rewrite setDoc_then_log_record by (done || by left).
    by rewrite written_id_nonempty, decide_False.
  - reflexivity.
  - reflexivity.
Qed.

Lemma addEmployee_merges_witness :
  ("Kim" ≠ EmptyString /\ "Kim" ≠ "__proto__") /\
  Board.alerts (Board.addEmployee "Kim" (Board.clock_at 1000 1) Board.initial) =
  Board.alerts Board.initial.
Proof.
  split; [done |].
  exact (proj1 (proj2 (proj2 (addEmployee_merges "Kim" (Board.clock_at 1000 1) Board.initial
                                ltac:(done) ltac:(done))))).
Defined.

(** Under the name "__proto__", which the admin panel accepts, addEmployee
    and removeEmployee store no document: the records stay as they are
    (when the store has no document of that id, as it never has unless the
    text came with one), and only the log entry is written. *)
Lemma employee_proto_not_stored (k : Board.clock) (w : Board.world) :
  Board.record_of (Board.localStorage w) "__proto__" = None ->
  Board.stored_docs "outbound_records" (Board.localStorage (Board.addEmployee "__proto__" k w)) =
    Board.stored_docs "outbound_records" (Board.localStorage w) /\
  Board.stored_docs "outbound_records" (Board.localStorage (Board.removeEmployee "__proto__" k w)) =
    Board.stored_docs "outbound_records" (Board.localStorage w).
Proof.
  intros Hnone. split.
  - unfold Board.addEmployee. rewrite bool_decide_false by done.
    match goal with |- context [Board.writeLog ?t k (Board.stored (Board.setDoc _ ?d _ _) w)] =>
      rewrite (proj1 (setDoc_then_log "__proto__" d t k w ltac:(by left))) end.
    by apply coll_put_proto.
  - unfold Board.removeEmployee.
    match goal with |- context [Board.writeLog ?t k (Board.stored (Board.setDoc _ ?d _ _) w)] =>
      rewrite (proj1 (setDoc_then_log "__proto__" d t k w ltac:(by right))) end.
    by apply coll_put_proto.
Qed.

(** removeEmployee is a soft delete that never fails: for every name but
    "__proto__" the employee's document is kept (created when there was
    none) with status "removed" and a new lastUpdated, every other field as
    it was, but for a field named "__proto__"; the row of the employee then
    shows "unregistered", or "late" when the document has a late flag; the
    other documents are untouched. *)
Theorem removeEmployee_marks (name : string) (k : Board.clock) (w : Board.world) :
  name ≠ EmptyString -> name ≠ "__proto__" ->
  let w' := Board.removeEmployee name k w in
  (exists r, Board.record_of (Board.localStorage w') name = Some r /\
     r !! "status" = Some (JStr "removed") /\
     r !! "lastUpdated" = Some (JIso (Board.stamp k)) /\
     (forall f, f ∉ ["status"; "lastUpdated"; "__proto__"] ->
        r !! f = Board.record_of (Board.localStorage w) name ≫= (.!! f)) /\
     Board.statusForRecord (Some (parse_obj r)) ∈ ["unregistered"; "late"]) /\
  (forall id, id ≠ name ->
     Board.record_of (Board.localStorage w') id = Board.record_of (Board.localStorage w) id) /\
  Board.alerts w' = Board.alerts w.
Proof.
  intros Hname Hproto w'. subst w'. unfold Board.removeEmployee. split_and!.
  - eexists. split.
    + rewrite setDoc_then_log_record by (done || by right).
      rewrite written_id_nonempty, decide_True by done. reflexivity.
    + split_and!; try (rewrite merged_lookup by done; reflexivity).
      * intros f Hf. rewrite !not_elem_of_cons in Hf. destruct Hf as (?&?&?&_).
        rewrite merged_lookup by done.
        by rewrite !lookup_insert_ne, lookup_empty.
      * unfold Board.statusForRecord. rewrite !prop_parse, !merged_lookup by done.
        cbn [lookup]. 
        change ((<["status":=Some (JStr "removed")]>
                   (<["lastUpdated":=Board.serverTimestamp (Board.stamp k)]> ∅) : mobj) !! "status")
          with (Some (Some (JStr "removed"))).
        rewrite !bool_decide_false by discriminate.
        destruct (truthy _); [right; left | left].
  - intros id Hid. rewrite setDoc_then_log_record by (done || by right).
    by rewrite written_id_nonempty, decide_False.
  - reflexivity.
Qed.

Lemma removeEmployee_marks_witness :
  ("Kim" ≠ EmptyString /\ "Kim" ≠ "__proto__") /\
  Board.alerts (Board.removeEmployee "Kim" (Board.clock_at 1000 1) Board.initial) =
  Board.alerts Board.initial.
Proof.
  split; [done |].
  exact (proj2 (proj2 (removeEmployee_marks "Kim" (Board.clock_at 1000 1) Board.initial
                         ltac:(done) ltac:(done)))).
Defined.

Section Reachable.

Import Board.
Implicit Types (w : world) (k : clock) (o : op).

Lemma mark_changes_nothing o k w :
  is_mark o = true ->
  localStorage (run o k w) = localStorage w /\
  length (alerts (run o k w)) = S (length (alerts w)).
Proof.
  destruct o; try discriminate; intros _; cbn [run];
    (split; [reflexivity |]); cbn; rewrite length_app; cbn; lia.
Qed.

Lemma idle_step o k w :
  Forall idle (stored_docs "outbound_records" (localStorage w)) ->
  Forall idle (stored_docs "outbound_records" (localStorage (run o k w))).
Proof.
  intros Hw. destruct o as [name place|name|name|name|name]; cbn [run]; try done.
  - rewrite deleteRecord_docs. apply coll_put_Forall; [done |].
    left. cbn [snd]. by rewrite merged_lookup by done.
  - unfold addEmployee. case_bool_decide; [done |].
    match goal with |- context [writeLog ?t k (stored (setDoc _ ?d _ _) w)] =>
      rewrite (proj1 (setDoc_then_log name d t k w ltac:(by left))) end.
    apply coll_put_Forall; [done |]. left. cbn [snd]. by rewrite merged_lookup by done.
  - unfold removeEmployee.
    match goal with |- context [writeLog ?t k (stored (setDoc _ ?d _ _) w)] =>
      rewrite (proj1 (setDoc_then_log name d t k w ltac:(by right))) end.
    apply coll_put_Forall; [done |]. right. cbn [snd]. by rewrite merged_lookup by done.
Qed.

End Reachable.

(** No sequence of markOut and markReturn calls changes the stored state:
    each call fails, and raises exactly one alert. *)
Theorem marks_change_nothing (l : list (Board.op * Board.clock)) (w : Board.world) :
  Forall (fun ok => Board.is_mark ok.1 = true) l ->
  Board.localStorage (Board.run_all l w) = Board.localStorage w /\
  length (Board.alerts (Board.run_all l w)) = (length (Board.alerts w) + length l)%nat.
Proof.
  intros Hl. revert w. induction Hl as [|[o k] l Ho Hl IH]; intros w.
  - cbn. split; [done | lia].
  - cbn [Board.run_all foldl fst snd]. fold (Board.run_all l (Board.run o k w)).
    destruct (IH (Board.run o k w)) as [Hs Ha].
    destruct (mark_changes_nothing o k w Ho) as [Hs' Ha'].
    rewrite Hs, Ha, Hs', Ha'. cbn [length]. split; [done | lia].
Qed.

Lemma marks_change_nothing_witness :
  let l := [(Board.MarkOut "Kim" "Client HQ", Board.clock_at 1000 1);
            (Board.MarkReturn "Kim", Board.clock_at 2000 2)] in
  Forall (fun ok => Board.is_mark ok.1 = true) l /\
  Board.localStorage (Board.run_all l Board.initial) = Board.localStorage Board.initial.
Proof.
  cbv zeta.
  assert (H : Forall (fun ok : Board.op * Board.clock => Board.is_mark ok.1 = true)
                [(Board.MarkOut "Kim" "Client HQ", Board.clock_at 1000 1);
                 (Board.MarkReturn "Kim", Board.clock_at 2000 2)])
    by (repeat constructor).
  split; [exact H |].
  exact (proj1 (marks_change_nothing _ Board.initial H)).
Defined.

(** On the board as it runs, nobody is ever recorded as out or returned:
    after any sequence of the five operations on the fresh store, every
    record has status "unregistered" or "removed". *)
Theorem reachable_records_are_idle (l : list (Board.op * Board.clock)) (id : string) (r : jobj) :
  Board.record_of (Board.localStorage (Board.run_all l Board.initial)) id = Some r ->
  r !! "status" = Some (JStr "unregistered") \/ r !! "status" = Some (JStr "removed").
Proof.
  intros Hr. apply coll_get_elem in Hr. change (Board.idle (id, r)). revert Hr.
  generalize (id, r). apply Forall_forall. clear id r.
  unfold Board.run_all.
  assert (H0 : Forall Board.idle
            (Board.stored_docs "outbound_records" (Board.localStorage Board.initial)))
    by apply Forall_nil_2.
  revert H0. generalize Board.initial.
  induction l as [|[o k] l IH]; intros w Hw; [done |].
  cbn [foldl]. apply IH. by apply idle_step.
Qed.

Lemma reachable_records_are_idle_witness :
  let l := [(Board.MarkOut "Kim" "Client HQ", Board.clock_at 1000 1);
            (Board.AddEmployee "Kim", Board.clock_at 2000 2)] in
  let r := Board.merged None
             (<["name" := Some (JStr "Kim")]> (<["status" := Some (JStr "unregistered")]>
                (<["createdAt" := Some (JIso 2000)]> ∅))) in
  Board.record_of (Board.localStorage (Board.run_all l Board.initial)) "Kim" = Some r /\
  (r !! "status" = Some (JStr "unregistered") \/ r !! "status" = Some (JStr "removed")).
Proof.
  cbv zeta.
  assert (H : Board.record_of (Board.localStorage (Board.run_all
      [(Board.MarkOut "Kim" "Client HQ", Board.clock_at 1000 1);
       (Board.AddEmployee "Kim", Board.clock_at 2000 2)] Board.initial)) "Kim" =
    Some (Board.merged None
             (<["name" := Some (JStr "Kim")]> (<["status" := Some (JStr "unregistered")]>
                (<["createdAt" := Some (JIso 2000)]> ∅)))))
    by (vm_compute; reflexivity).
  split; [exact H |].
  exact (reachable_records_are_idle _ "Kim" _ H).
Defined.

Section Feeds.

Import Board.

(** Assigning the members of an object in enumeration order, one after
    the other, to a new object: every member arrives at its place, but for
    the one under "__proto__", which becomes the prototype. *)
Lemma foldl_coll_put_enumerated {V : Type} (l acc : list (string * V)) :
  enumerated (acc ++ l) -> "__proto__" ∉ acc.*1 ->
  foldl (fun m d => coll_put m d.1 d.2) acc l =
  acc ++ filter (fun d => d.1 ≠ "__proto__") l.
Proof.
  revert acc. induction l as [|[key v] l IH]; intros acc [Hnd Hs] Hacc.
  - cbn. by rewrite app_nil_r.
  - cbn [foldl fst snd]. rewrite fmap_app, fmap_cons in Hnd, Hs. cbn [fst] in Hnd, Hs.
    assert (Hfresh : key ∉ acc.*1).
    { apply NoDup_app in Hnd as (_ & Hd & _). intros Hin. apply (Hd _ Hin). left. }
    apply NoDup_app in Hnd as (Hnd1 & Hdisj & Hnd2).
    apply NoDup_cons in Hnd2 as [Hkl Hnd2].
    apply StronglySorted_app in Hs as (Hcross & Hs1 & Hs2).
    apply StronglySorted_inv in Hs2 as [Hs2 Hkey].
    destruct (decide (key = "__proto__")) as [->|Hkey'].
    + rewrite coll_put_proto by by apply coll_get_None.
      rewrite filter_cons_False by (cbn; by intros ?).
      apply IH; [|done]. split; rewrite fmap_app.
      * apply NoDup_app. split_and!; [done | | done].
        intros x Hx Hx'. apply (Hdisj x Hx). by right.
      * apply StronglySorted_app_2; [| done | done].
        intros x y Hx Hy. apply Hcross; [done | by right].
    + rewrite filter_cons_True by done.
      unfold coll_put. rewrite (proj2 (coll_get_None acc key) Hfresh).
      rewrite decide_False by done. rewrite coll_create_end.
      * rewrite IH; [by rewrite <- app_assoc | |].
        -- split; rewrite <- app_assoc; cbn [app]; rewrite fmap_app, fmap_cons; cbn [fst].
           ++ apply NoDup_app. split_and!; [done | done | by apply NoDup_cons].
           ++ apply StronglySorted_app_2; [done | done | by constructor].
        -- rewrite fmap_app. cbn. rewrite elem_of_app, list_elem_of_singleton.
           intros [?|?]; done.
      * apply Forall_forall. intros x Hx. apply Hcross; [done | left].
Qed.

Lemma records_feed_docs ls :
  records_feed ls =
  prod_map id parse_obj <$>
    filter (fun d => d.1 ≠ "__proto__") (stored_docs "outbound_records" ls).
Proof.
  unfold records_feed, records_listener, buildSnap, getDataSnapshotForCollection.
  change (colName (onSnapshot records_query)) with "outbound_records".
  rewrite read_docs, foldl_fmap. cbn [snap_id snap_data].
  pose proof (foldl_coll_put_enumerated
    (prod_map id parse_obj <$> stored_docs "outbound_records" ls) []) as Hfold.
  cbn [app] in Hfold. rewrite Hfold.
  - clear Hfold. induction (stored_docs "outbound_records" ls) as [|[key d] l IH]; [done |].
    rewrite fmap_cons. cbn [prod_map fst snd id].
    destruct (decide (key ≠ "__proto__")).
    + rewrite !filter_cons_True by done. rewrite fmap_cons. by rewrite IH.
    + rewrite !filter_cons_False by done. exact IH.
  - apply enumerated_fmap, stored_docs_enumerated.
  - apply not_elem_of_nil.
Qed.

Lemma filter_keys_all {V : Type} (l : list (string * V)) :
  "__proto__" ∉ l.*1 -> filter (fun d => d.1 ≠ "__proto__") l = l.
Proof.
  induction l as [|[key v] l IH]; [done |].
  rewrite fmap_cons, not_elem_of_cons. cbn [fst]. intros [Hk Hl].
  rewrite filter_cons_True by (cbn; congruence). by rewrite IH.
Qed.

(** A subscription that has not been cancelled: every tick of the interval
    reaches the listener, and the initial timeout once. *)
Lemma fire_all_active (count : list docSnap -> nat -> nat) sub due n :
  (forall snap m, count snap m = S m) ->
  stopped sub = false -> interval_armed sub = true ->
  (fire_all count due (sub, n)).2 =
  (n + length (filter (fun t => t = PollInterval) due.*1) +
   (if timeout_armed sub && bool_decide (InitialTimeout ∈ due.*1) then 1 else 0))%nat.
Proof.
  intros Hcount. revert sub n.
  induction due as [|[t ls] due IH]; intros sub n Hrun Harm.
  - cbn. rewrite andb_false_r. lia.
  - change (fire_all count ((t, ls) :: due) (sub, n))
      with (fire_all count due (fire count t ls (sub, n))).
    rewrite fmap_cons. cbn [fst]. destruct t; unfold fire.
    + rewrite filter_cons_False by done.
      destruct (timeout_armed sub) eqn:Ht.
      * rewrite IH by done. cbn [timeout_armed andb]. rewrite Hcount.
        rewrite bool_decide_true by left. lia.
      * rewrite IH by done. rewrite Ht. cbn [andb]. lia.
    + rewrite Harm, Hrun, IH by done. rewrite filter_cons_True by done.
      rewrite Hcount. cbn [length].
      replace (bool_decide (InitialTimeout ∈ PollInterval :: due.*1))
        with (bool_decide (InitialTimeout ∈ due.*1)); [lia |].
      apply bool_decide_ext. rewrite elem_of_cons.
      split; [intros H; by right | intros [[=]|H]; exact H].
Qed.

End Feeds.

(** What the component holds as [records] after a poll is the records
    collection of the store, less the document under "__proto__" if the
    store has one (the listener's assignment makes that one the prototype
    of the map): the same documents in the same order.  When the store has
    no such document, the lookup of any id gives the stored document. *)
Theorem records_feed_mirrors_store (ls : option jstore) :
  Board.records_feed ls =
    prod_map id parse_obj <$>
      filter (fun d => d.1 ≠ "__proto__") (Board.stored_docs "outbound_records" ls) /\
  ("__proto__" ∉ (Board.stored_docs "outbound_records" ls).*1 ->
   Board.records_feed ls = prod_map id parse_obj <$> Board.stored_docs "outbound_records" ls /\
   (forall id, coll_get (Board.records_feed ls) id = parse_obj <$> Board.record_of ls id)).
Proof.
  split; [apply records_feed_docs |].
  intros Hproto. rewrite records_feed_docs, filter_keys_all by done. split; [done |].
  intros id. apply coll_get_fmap.
Qed.

Lemma records_feed_mirrors_store_witness :
  let ls := Board.localStorage (Board.deleteRecord "Kim" (Board.clock_at 1000 1) Board.initial) in
  ("__proto__" ∉ (Board.stored_docs "outbound_records" ls).*1) /\
  coll_get (Board.records_feed ls) "Kim" = parse_obj <$> Board.record_of ls "Kim".
Proof.
  cbv zeta.
  assert (H : "__proto__" ∉ (Board.stored_docs "outbound_records"
                (Board.localStorage (Board.deleteRecord "Kim" (Board.clock_at 1000 1)
                   Board.initial))).*1)
    by (vm_compute; by intros ?%list_elem_of_singleton).
  split; [exact H |].
  exact (proj2 (proj2 (records_feed_mirrors_store _) H) "Kim").
Defined.

(** A text that came with a member "__proto__": the store has the
    document, the component does not. *)
Example records_feed_without_proto :
  let ls : option jstore :=
    Some {[ "outbound_records" := [("__proto__", {[ "status" := JStr "out" ]})] ]} in
  length (Board.stored_docs "outbound_records" ls) = 1%nat /\ Board.records_feed ls = [].
Proof. by vm_compute. Qed.

(** Polling has no change detection: as long as the subscription is not
    cancelled, the listener is called on every tick of the interval, whether
    or not the store changed, and once more by the initial timeout. *)
Theorem polling_delivers_every_tick (q : Board.colRef)
    (due : list (Board.timer * option jstore)) :
  (Board.fire_all (fun _ n => S n) due (Board.onSnapshot q, 0%nat)).2 =
  (length (filter (fun t => t = Board.PollInterval) due.*1) +
   (if bool_decide (Board.InitialTimeout ∈ due.*1) then 1 else 0))%nat.
Proof.
  rewrite (fire_all_active (fun _ n => S n)) by done.
  reflexivity.
Qed.

Section Counters.

Import Board.

Lemma count_record_total c (r : mobj) :
  counted_total (count_record c r) =
  (counted_total c + (if uncounted r then 0 else 1))%nat.
Proof.
  unfold count_record, uncounted, counted_total.
  destruct (truthy (prop r "status")); cbn [negb orb andb];
    repeat (case_bool_decide; cbn [negb orb andb]); cbn; lia.
Qed.

Lemma foldl_count_record c (records : list (string * mobj)) :
  (counted_total (foldl (fun c d => count_record c d.2) c records) +
   length (filter (fun d => uncounted d.2 = true) records) =
   counted_total c + length records)%nat.
Proof.
  revert c. induction records as [|[id r] records IH]; intros c.
  - cbn. lia.
  - cbn [foldl snd length]. specialize (IH (count_record c r)).
    rewrite count_record_total in IH.
    destruct (uncounted r) eqn:Hu.
    + rewrite filter_cons_True by done. cbn [length]. lia.
    + rewrite filter_cons_False by (cbn; congruence). lia.
Qed.

Lemma pins_not_empty name p : coll_get DEMO_PINS name = Some p -> p ≠ EmptyString.
Proof.
  unfold DEMO_PINS. cbn [coll_get].
  repeat (case_decide; [by intros [= <-] |]). done.
Qed.

End Counters.

(** The four counters of the summary line count every record at most once:
    together with the records whose status is none of unregistered, in, out
    and returned (and not empty) they add up to the number of records.  A
    removed employee is counted nowhere. *)
Theorem stats_counts_each_record_once (records : list (string * mobj)) :
  (Board.counted_total (Board.stats records) +
   length (filter (fun d => Board.uncounted d.2 = true) records) = length records)%nat /\
  (forall r : mobj, prop r "status" = Some (JStr "removed") -> Board.uncounted r = true).
Proof.
  split.
  - unfold Board.stats. rewrite foldl_count_record. reflexivity.
  - intros r Hr. unfold Board.uncounted. rewrite Hr. reflexivity.
Qed.

(** Submitting a PIN never switches the admin mode on and never opens the
    admin panel: the branch that would is shadowed by the first one, since
    "admin" is itself a key of DEMO_PINS. *)
Theorem handleSubmitPin_never_admin (k : Board.clock) (u : Board.ui) (w : Board.world) :
  Board.isAdminMode (Board.handleSubmitPin k (u, w)).1 = Board.isAdminMode u /\
  Board.showAdminPanel (Board.handleSubmitPin k (u, w)).1 = Board.showAdminPanel u.
Proof.
  unfold Board.handleSubmitPin.
  destruct (Board.selectedName u) as [name|]; [|done].
  case_bool_decide; [done |].
  destruct (match coll_get Board.DEMO_PINS name with Some p => _ | None => false end) eqn:E1;
    [done |].
  destruct (bool_decide (name = "admin") &&
            bool_decide (Some (Board.pin u) = coll_get Board.DEMO_PINS "admin")) eqn:E2;
    [| done].
  exfalso. apply andb_true_iff in E2 as [Hn Hp].
  apply bool_decide_eq_true in Hn, Hp. subst name.
  change (coll_get Board.DEMO_PINS "admin") with (Some "0000") in *.
  injection Hp as Hp. rewrite Hp in E1. vm_compute in E1. discriminate.
Qed.

(** Submitting the PIN of the selected name logs that name in (user id
    "user_<name>", "admin" included), clears the selection and writes one
    log entry without alerting; any other PIN alerts "Wrong PIN" and changes
    nothing else. *)
Theorem handleSubmitPin_outcome (k : Board.clock) (u : Board.ui) (w : Board.world)
    (name : string) :
  Board.selectedName u = Some name -> name ≠ EmptyString ->
  (coll_get Board.DEMO_PINS name = Some (Board.pin u) ->
   let '(u', w') := Board.handleSubmitPin k (u, w) in
   Board.currentUser u' = Some (name, "user_" +:+ name) /\
   Board.selectedName u' = None /\ Board.pin u' = EmptyString /\
   w' = Board.writeLog (name +:+ " logged in (PIN)") k w) /\
  (coll_get Board.DEMO_PINS name ≠ Some (Board.pin u) ->
   Board.handleSubmitPin k (u, w) = (u, Board.alert "Wrong PIN" w)).
Proof.
  intros Hsel Hname. unfold Board.handleSubmitPin. rewrite Hsel.
  rewrite (bool_decide_false (name = EmptyString)) by done. split.
  - intros Hpin. rewrite Hpin.
    rewrite (bool_decide_true (Board.pin u ≠ EmptyString)) by (by eapply pins_not_empty).
    by rewrite (bool_decide_true (Board.pin u = Board.pin u)).
  - intros Hpin.
    destruct (coll_get Board.DEMO_PINS name) as [p|] eqn:Hp.
    + rewrite (bool_decide_false (p = Board.pin u)) by congruence.
      rewrite andb_false_r.
      destruct (decide (name = "admin")) as [->|Hna].
      * rewrite Hp. rewrite (bool_decide_false (Some (Board.pin u) = Some p)) by congruence.
        by rewrite andb_false_r.
      * by rewrite (bool_decide_false (name = "admin")).
    + destruct (decide (name = "admin")) as [->|Hna]; [discriminate Hp |].
      by rewrite (bool_decide_false (name = "admin")).
Qed.

Lemma handleSubmitPin_outcome_witness :
  let u := {| Board.selectedName := Some "admin"; Board.pin := "0000";
              Board.currentUser := None; Board.isAdminMode := false;
              Board.showAdminPanel := false |} in
  (Board.selectedName u = Some "admin" /\ "admin" ≠ EmptyString /\
   coll_get Board.DEMO_PINS "admin" = Some (Board.pin u)) /\
  Board.currentUser (Board.handleSubmitPin (Board.clock_at 1000 1) (u, Board.initial)).1 =
    Some ("admin", "user_admin").
Proof.
  cbv zeta. split; [split_and!; done |].
  pose proof (proj1 (handleSubmitPin_outcome (Board.clock_at 1000 1)
    {| Board.selectedName := Some "admin"; Board.pin := "0000";
       Board.currentUser := None; Board.isAdminMode := false;
       Board.showAdminPanel := false |} Board.initial "admin" eq_refl ltac:(done)) eq_refl) as H.
  destruct (Board.handleSubmitPin _ _) as [u' w']. exact (proj1 H).
Defined.

Section Ensure.

Import Board.

Lemma ensure_complete (m : jstore) :
  map_Forall (fun _ members => enumerated members) m ->
  is_Some (m !! "outbound_records") -> is_Some (m !! "outbound_logs") ->
  ensure (Some m) = Some m.
Proof.
  intros Hm [r Hr] [l Hl]. unfold ensure. cbn [readStore].
  assert (Hr' : is_Some (parse_store m !! "outbound_records"))
    by (unfold parse_store; rewrite lookup_fmap, Hr; by eexists).
  assert (Hl' : is_Some (parse_store m !! "outbound_logs"))
    by (unfold parse_store; rewrite lookup_fmap, Hl; by eexists).
  destruct Hr' as [r' ->]. destruct Hl' as [l' ->].
  unfold writeStore. f_equal. by apply stringify_parse_enumerated.
Qed.

Lemma complete_step (s : mstore) (key : string) :
  let s' := if s !! key is None then <[key := []]> s else s in
  is_Some (s' !! key) /\
  (forall c, default [] (s' !! c) = default [] (s !! c)) /\
  (forall c, is_Some (s !! c) -> is_Some (s' !! c)).
Proof.
  cbv zeta. destruct (s !! key) as [d|] eqn:Hk.
  - split_and!; [by rewrite Hk | done | done].
  - split_and!.
    + by rewrite lookup_insert_eq.
    + intros c. rewrite lookup_insert. case_decide; [subst; by rewrite Hk | done].
    + intros c Hc. rewrite lookup_insert. case_decide; [by eexists | done].
Qed.

Lemma ensure_shape ls :
  exists s : mstore,
    ensure ls = Some (stringify_store s) /\
    is_Some (s !! "outbound_records") /\ is_Some (s !! "outbound_logs") /\
    forall c, default [] (s !! c) = default [] (readStore ls !! c).
Proof.
  unfold ensure, writeStore. cbv zeta. eexists. split; [reflexivity |].
  destruct (complete_step (readStore ls) "outbound_records") as (Hr1 & Hd1 & _).
  cbv zeta in Hr1, Hd1.
  destruct (complete_step
    (if readStore ls !! "outbound_records" is None
     then <["outbound_records" := []]> (readStore ls) else readStore ls)
    "outbound_logs") as (Hl2 & Hd2 & Hk2).
  cbv zeta in Hl2, Hd2, Hk2.
  split_and!.
  - by apply Hk2.
  - exact Hl2.
  - intros c. by rewrite Hd2, Hd1.
Qed.

End Ensure.

(** ensure, run when the mock database is made, keeps every stored document,
    leaves a store in which both collections exist, and changes nothing when
    it is run again. *)
Theorem ensure_keeps_and_completes (ls : option jstore) :
  (forall c, Board.stored_docs c (Board.ensure ls) = Board.stored_docs c ls) /\
  (exists m, Board.ensure ls = Some m /\
     is_Some (m !! "outbound_records") /\ is_Some (m !! "outbound_logs")) /\
  Board.ensure (Board.ensure ls) = Board.ensure ls.
Proof.
  destruct (ensure_shape ls) as (s & Hs & Hr & Hl & Hsame).
  assert (Hkeys : is_Some (stringify_store s !! "outbound_records") /\
                  is_Some (stringify_store s !! "outbound_logs")).
  { unfold stringify_store. rewrite !lookup_fmap. split; by apply fmap_is_Some. }
  assert (Henum : forall c, enumerated (default [] (s !! c))).
  { intros c. rewrite Hsame. apply read_docs_enumerated. }
  split_and!.
  - intros c. rewrite Hs. fold (Board.writeStore s).
    rewrite stored_docs_written by done.
    by rewrite Hsame, read_docs, stringify_parse_docs.
  - exists (stringify_store s). by destruct Hkeys.
  - rewrite Hs. apply ensure_complete; [| apply Hkeys ..].
    intros c members Hc. cbn beta. unfold stringify_store in Hc.
    rewrite lookup_fmap in Hc. specialize (Henum c).
    destruct (s !! c) as [d|]; [|done]. injection Hc as <-.
    by apply enumerated_fmap.
Qed.

(** * Further properties of the server *)

Section Buckets.

Import Server.
Local Open Scope Z_scope.
Implicit Types (zone : Z -> Z) (now : Z) (roster : list user) (records : list outbound) (u : user).

Lemma count_status_cons status (s : userStatus) l :
  count_status status (s :: l) =
  ((if bool_decide (us_status s = status) then 1 else 0) + count_status status l)%nat.
Proof.
  unfold count_status. case_bool_decide.
  - by rewrite filter_cons_True.
  - by rewrite filter_cons_False.
Qed.

Lemma one_bucket zone records now u :
  let s := us_status (statusOfUser zone records now u) in
  ((if bool_decide (s = "office") then 1 else 0) +
   (if bool_decide (s = "outbound") then 1 else 0) +
   (if bool_decide (s = "returned") then 1 else 0) +
   (if bool_decide (s = "absent") then 1 else 0) +
   (if bool_decide (s = "vacation") then 1 else 0) = 1)%nat.
Proof.
  cbv zeta. pose proof (statusOfUser_status zone records now u) as Hin.
  repeat (apply elem_of_cons in Hin as [->|Hin]; [reflexivity |]).
  by apply elem_of_nil in Hin.
Qed.

Lemma weekend_test zone now :
  JsDate.getDay zone now = 0 \/ JsDate.getDay zone now = 6 ->
  (JsDate.getDay zone now =? 0) || (JsDate.getDay zone now =? 6) = true.
Proof. intros [->| ->]; reflexivity. Qed.

Lemma off_hours_test zone now :
  JsDate.getHours zone now < 9 \/ 18 <= JsDate.getHours zone now ->
  (JsDate.getHours zone now <? 9) || (JsDate.getHours zone now >=? 18) = true.
Proof.
  intros [H|H]; apply orb_true_iff; [left; by apply Z.ltb_lt |].
  right. rewrite Z.geb_leb. by apply Z.leb_le.
Qed.

Lemma count_status_all status (l : list userStatus) :
  Forall (fun s => us_status s = status) l -> count_status status l = length l.
Proof.
  induction 1 as [|s l Hs Hl IH]; [done |].
  rewrite count_status_cons, bool_decide_true by done. cbn [length]. by rewrite IH.
Qed.

End Buckets.

(** The five counts of the status summary add up to the number of users:
    every user falls in exactly one bucket. *)
Theorem summary_counts_partition (zone : Z -> Z) (roster : list Server.user)
    (records : list Server.outbound) (now : Z) :
  let s := Server.getStatusSummary zone roster records now in
  (Server.office s + Server.outbound_count s + Server.returned s + Server.absent s +
   Server.vacation s)%nat = Server.total s /\
  Server.total s = length roster /\ length (Server.summary_users s) = length roster.
Proof.
  cbv zeta. cbn [Server.getStatusSummary Server.office Server.outbound_count Server.returned
                 Server.absent Server.vacation Server.total Server.summary_users].
  split_and!; [| done | by rewrite length_fmap].
  induction roster as [|u roster IH]; [done |].
  rewrite fmap_cons, !count_status_cons. cbn [length].
  pose proof (one_bucket zone records now u) as H1. cbv zeta in H1. lia.
Qed.

(** On Saturday and Sunday every user is on "vacation" whatever the records
    say; the location shown is still that of the user's first open record. *)
Theorem weekend_is_vacation (zone : Z -> Z) (roster : list Server.user)
    (records : list Server.outbound) (now : Z) :
  JsDate.getDay zone now = 0%Z \/ JsDate.getDay zone now = 6%Z ->
  let s := Server.getStatusSummary zone roster records now in
  Forall (fun e => Server.us_status e = "vacation") (Server.summary_users s) /\
  Server.vacation s = length roster /\
  (forall u o, u ∈ roster ->
     find (fun o => bool_decide (Server.o_userId o = Server.u_id u) &&
                    bool_decide (Server.o_status o = "outbound")) records = Some o ->
     Server.us_currentLocation (Server.statusOfUser zone records now u) = Server.o_location o).
Proof.
  intros Hday. cbv zeta.
  assert (Hall : Forall (fun e => Server.us_status e = "vacation")
            (Server.statusOfUser zone records now <$> roster)).
  { apply Forall_fmap, Forall_forall. intros u _. unfold Server.statusOfUser.
    cbn [Server.us_status compose]. by rewrite weekend_test. }
  cbn [Server.getStatusSummary Server.summary_users Server.vacation]. split_and!.
  - exact Hall.
  - by rewrite count_status_all, length_fmap.
  - intros u o _ Hfind. unfold Server.statusOfUser. cbn [Server.us_currentLocation].
    by rewrite Hfind.
Qed.

Lemma weekend_is_vacation_witness :
  (JsDate.getDay (JsDate.fixed_zone 32400000) 1700269200000 = 0%Z \/ JsDate.getDay (JsDate.fixed_zone 32400000) 1700269200000 = 6%Z) /\
  Server.vacation (Server.getStatusSummary (JsDate.fixed_zone 32400000) Server.users [] 1700269200000) =
  length Server.users.
Proof.
  assert (H : JsDate.getDay (JsDate.fixed_zone 32400000) 1700269200000 = 0%Z \/
              JsDate.getDay (JsDate.fixed_zone 32400000) 1700269200000 = 6%Z) by (right; vm_compute; reflexivity).
  split; [exact H |].
  exact (proj1 (proj2 (weekend_is_vacation (JsDate.fixed_zone 32400000) Server.users [] 1700269200000 H))).
Defined.

(** On a weekday before 09:00 and from 18:00 on, every user is "absent"
    whatever the records say. *)
Theorem off_hours_is_absent (zone : Z -> Z) (roster : list Server.user)
    (records : list Server.outbound) (now : Z) :
  JsDate.getDay zone now ≠ 0%Z -> JsDate.getDay zone now ≠ 6%Z ->
  (JsDate.getHours zone now < 9 \/ 18 <= JsDate.getHours zone now)%Z ->
  let s := Server.getStatusSummary zone roster records now in
  Forall (fun e => Server.us_status e = "absent") (Server.summary_users s) /\
  Server.absent s = length roster.
Proof.
  intros Hsun Hsat Hh. cbv zeta.
  assert (Hall : Forall (fun e => Server.us_status e = "absent")
            (Server.statusOfUser zone records now <$> roster)).
  { apply Forall_fmap, Forall_forall. intros u _. unfold Server.statusOfUser.
    cbn [Server.us_status compose].
    rewrite (proj2 (Z.eqb_neq _ _) Hsun), (proj2 (Z.eqb_neq _ _) Hsat). cbn [orb].
    by rewrite off_hours_test. }
  cbn [Server.getStatusSummary Server.summary_users Server.absent]. split.
  - exact Hall.
  - by rewrite count_status_all, length_fmap.
Qed.

Lemma off_hours_is_absent_witness :
  (JsDate.getDay (JsDate.fixed_zone 32400000) 1699959600000 ≠ 0%Z /\ JsDate.getDay (JsDate.fixed_zone 32400000) 1699959600000 ≠ 6%Z /\
   (JsDate.getHours (JsDate.fixed_zone 32400000) 1699959600000 < 9 \/ 18 <= JsDate.getHours (JsDate.fixed_zone 32400000) 1699959600000)%Z) /\
  Server.absent (Server.getStatusSummary (JsDate.fixed_zone 32400000) Server.users [] 1699959600000) =
  length Server.users.
Proof.
  assert (H1 : JsDate.getDay (JsDate.fixed_zone 32400000) 1699959600000 ≠ 0%Z) by (by vm_compute).
  assert (H2 : JsDate.getDay (JsDate.fixed_zone 32400000) 1699959600000 ≠ 6%Z) by (by vm_compute).
  assert (H3 : (JsDate.getHours (JsDate.fixed_zone 32400000) 1699959600000 < 9 \/
                18 <= JsDate.getHours (JsDate.fixed_zone 32400000) 1699959600000)%Z)
    by (right; vm_compute; discriminate).
  split; [done |].
  exact (proj2 (off_hours_is_absent (JsDate.fixed_zone 32400000) Server.users [] 1699959600000 H1 H2 H3)).
Defined.

(** During working hours on a weekday, a user without an open record is
    "absent" when none of the user's records was created today and "office"
    otherwise (a record returned earlier today counts as having shown up).
    "Today" is the local calendar day, each instant read at the offset the
    zone has at that instant. *)
Theorem working_hours_without_open_record (zone : Z -> Z) (records : list Server.outbound)
    (now : Z) (u : Server.user) :
  JsDate.getDay zone now ≠ 0%Z -> JsDate.getDay zone now ≠ 6%Z ->
  (9 <= JsDate.getHours zone now < 18)%Z ->
  find (fun o => bool_decide (Server.o_userId o = Server.u_id u) &&
                 bool_decide (Server.o_status o = "outbound")) records = None ->
  Server.us_status (Server.statusOfUser zone records now u) =
    (if bool_decide (Exists (fun o => Server.o_userId o = Server.u_id u /\
                                      JsDate.sameDateString zone (Server.o_createdAt o) now = true)
                            records)
     then "office" else "absent") /\
  Server.us_currentLocation (Server.statusOfUser zone records now u) = "사무실".
Proof.
  intros Hsun Hsat Hh Hfind.
  destruct (working_hours_tests zone now Hsun Hsat Hh) as [Hday Hhour].
  unfold Server.statusOfUser. cbn [Server.us_status Server.us_currentLocation].
  rewrite Hfind, Hday, Hhour. split; [|done].
  rewrite (proj2 (Z.geb_le _ _)) by lia.
  rewrite bool_decide_false by (by intros [? ?]). cbn [andb negb].
  set (today := filter _ records).
  destruct today as [|o today'] eqn:Htoday.
  - rewrite bool_decide_false; [done |].
    rewrite Exists_exists. intros (o & Hin & Ho).
    assert (Hin' : o ∈ today) by (by apply list_elem_of_filter).
    rewrite Htoday in Hin'. by apply elem_of_nil in Hin'.
  - rewrite bool_decide_true; [done |].
    assert (Hin : o ∈ today) by (rewrite Htoday; left).
    apply list_elem_of_filter in Hin as [Ho Hin].
    apply Exists_exists. eauto.
Qed.

Lemma working_hours_without_open_record_witness :
  let kim := {| Server.u_id := 1; Server.u_name := "김민수"; Server.u_password := "1234";
                Server.u_role := "employee"; Server.u_department := "영업팀" |} in
  (JsDate.getDay (JsDate.fixed_zone 32400000) 1699923600000 ≠ 0%Z /\ JsDate.getDay (JsDate.fixed_zone 32400000) 1699923600000 ≠ 6%Z /\
   (9 <= JsDate.getHours (JsDate.fixed_zone 32400000) 1699923600000 < 18)%Z /\
   find (fun o => bool_decide (Server.o_userId o = Server.u_id kim) &&
                  bool_decide (Server.o_status o = "outbound")) [] = None) /\
  Server.us_status (Server.statusOfUser (JsDate.fixed_zone 32400000) [] 1699923600000 kim) = "absent".
Proof.
  cbv zeta.
  assert (H1 : JsDate.getDay (JsDate.fixed_zone 32400000) 1699923600000 ≠ 0%Z) by (by vm_compute).
  assert (H2 : JsDate.getDay (JsDate.fixed_zone 32400000) 1699923600000 ≠ 6%Z) by (by vm_compute).
  assert (H3 : (9 <= JsDate.getHours (JsDate.fixed_zone 32400000) 1699923600000 < 18)%Z)
    by (vm_compute; split; [discriminate | reflexivity]).
  split; [split_and!; done || exact (proj1 H3) || exact (proj2 H3) |].
  exact (proj1 (working_hours_without_open_record (JsDate.fixed_zone 32400000) [] 1699923600000
    {| Server.u_id := 1; Server.u_name := "김민수"; Server.u_password := "1234";
       Server.u_role := "employee"; Server.u_department := "영업팀" |} H1 H2 H3 eq_refl)).
Defined.

(** The offset at the instant of creation decides.  The zone goes from
    UTC+1 to UTC+2 at 2023-11-14T00:00Z; a record created at 22:30Z the
    evening before (23:30 local) is of Monday, so on Tuesday at 10:00 its
    owner is "absent", although at Tuesday's offset the same instant would
    read 00:30 on Tuesday. *)
Example own_offset_decides :
  let zone (t : Z) := (if t <? 1699920000000 then 3600000 else 7200000)%Z in
  let kim := {| Server.u_id := 1; Server.u_name := "김민수"; Server.u_password := "1234";
                Server.u_role := "employee"; Server.u_department := "영업팀" |} in
  let record := {| Server.o_id := 1; Server.o_userId := 1; Server.o_userName := "김민수";
                   Server.o_department := "영업팀"; Server.o_outTime := Some 1699914600000%Z;
                   Server.o_expectedReturnTime := None; Server.o_location := "Client HQ";
                   Server.o_status := "returned"; Server.o_createdAt := 1699914600000%Z;
                   Server.o_inTime := Some 1699916400000%Z |} in
  let now := 1699948800000%Z in
  (JsDate.getDay zone now = 2%Z /\ JsDate.getHours zone now = 10%Z) /\
  Server.us_status (Server.statusOfUser zone [record] now kim) = "absent" /\
  Server.us_status (Server.statusOfUser (JsDate.fixed_zone 7200000) [record] now kim) = "office".
Proof. cbv zeta. split_and!; by vm_compute. Qed.

Section Sorting.

Import Server.
Local Open Scope Z_scope.

Lemma insert_sorted_perm {A : Type} (cmp : A -> A -> option Z) x l :
  insert_sorted cmp x l ≡ₚ x :: l.
Proof.
  induction l as [|y l IH]; cbn [insert_sorted]; [done |].
  destruct (if cmp x y is Some v then v <=? 0 else true); [done |].
  rewrite IH. apply Permutation_swap.
Qed.

Lemma stable_sort_perm {A : Type} (cmp : A -> A -> option Z) l : stable_sort cmp l ≡ₚ l.
Proof.
  unfold stable_sort. induction l as [|x l IH]; cbn [foldr]; [done |].
  by rewrite insert_sorted_perm, IH.
Qed.

(** The stable sort itself is an engine within the contract. *)
Lemma stable_sort_contract {A : Type} : sort_contract (@stable_sort A).
Proof. split; [apply stable_sort_perm | done]. Qed.

(** On valid dates the comparator of [getCurrentOutbounds] is consistent. *)
Lemma by_outTime_desc_consistent (l : list outbound) :
  Forall (fun o => is_Some (o_outTime o)) l -> consistent_comparator by_outTime_desc l.
Proof.
  rewrite Forall_forall. intros Hl a b c Ha Hb Hc.
  destruct (Hl a Ha) as [ta Hta], (Hl b Hb) as [tb Htb], (Hl c Hc) as [tc Htc].
  unfold before, level, after, by_outTime_desc. rewrite Hta, Htb, Htc.
  split_and!.
  - by eexists.
  - f_equal. lia.
  - intros [= H]. f_equal. lia.
  - intros [= H1] [= H2]. f_equal. lia.
  - intros (v & [= <-] & H1) (v' & [= <-] & H2). eexists. split; [done | lia].
  - intros (v & [= <-] & H1) (v' & [= <-] & H2). eexists. split; [done | lia].
Qed.

(** An Invalid Date makes it inconsistent: the difference is [NaN]. *)
Lemma invalid_date_inconsistent (l : list outbound) o :
  o ∈ l -> o_outTime o = None -> ~ consistent_comparator by_outTime_desc l.
Proof.
  intros Ho Hinvalid Hc. destruct (Hc o o o Ho Ho Ho) as ([v Hv] & _).
  unfold by_outTime_desc in Hv. by rewrite Hinvalid in Hv.
Qed.

Lemma insert_sorted_not_later x l :
  Forall (fun o => is_Some (o_outTime o)) (x :: l) ->
  StronglySorted not_later l ->
  StronglySorted not_later (insert_sorted by_outTime_desc x l).
Proof.
  intros Hvalid Hs. apply Forall_cons in Hvalid as [[tx Hx] Hvalid].
  induction Hs as [|y l Hl IH Hy]; cbn [insert_sorted].
  - by repeat constructor.
  - apply Forall_cons in Hvalid as [[ty Hty] Hvalid].
    unfold by_outTime_desc at 1. rewrite Hty, Hx.
    destruct (Z.leb_spec (ty - tx) 0) as [Hle|Hgt].
    + constructor; [by constructor |].
      assert (Hxy : not_later x y) by (unfold not_later; rewrite Hx, Hty; lia).
      constructor; [done |].
      eapply Forall_impl; [exact Hy |]. cbn beta. intros z Hz.
      unfold not_later in *. rewrite Hx. rewrite Hty in Hz.
      destruct (o_outTime z); [lia | done].
    + constructor; [by apply IH |].
      rewrite insert_sorted_perm. constructor; [| done].
      unfold not_later. rewrite Hx, Hty. lia.
Qed.

Lemma stable_sort_not_later l :
  Forall (fun o => is_Some (o_outTime o)) l ->
  StronglySorted not_later (stable_sort by_outTime_desc l).
Proof.
  induction 1 as [|x l Hx Hl IH]; [constructor |].
  change (stable_sort by_outTime_desc (x :: l))
    with (insert_sorted by_outTime_desc x (stable_sort by_outTime_desc l)).
  apply insert_sorted_not_later; [| done].
  constructor; [done |]. by rewrite stable_sort_perm.
Qed.

End Sorting.

(** getCurrentOutbounds lists exactly the records still in the "outbound"
    state, each as often as it is stored, whatever the engine's sort does.
    When the outTime of every such record is a valid date, the list is in
    the order of the stable sort, the latest outTime first; an Invalid Date
    among them (a request without outTime) makes the comparator return NaN,
    and the order is then the engine's choice. *)
Theorem getCurrentOutbounds_open_latest_first
    (sort : (Server.outbound -> Server.outbound -> option Z) ->
            list Server.outbound -> list Server.outbound)
    (st : Server.state) :
  Server.sort_contract sort ->
  Server.getCurrentOutbounds sort st ≡ₚ
    filter (fun o => Server.o_status o = "outbound") (Server.outbounds st) /\
  (forall o, o ∈ Server.getCurrentOutbounds sort st <->
             o ∈ Server.outbounds st /\ Server.o_status o = "outbound") /\
  (Forall (fun o => Server.o_status o = "outbound" -> is_Some (Server.o_outTime o))
          (Server.outbounds st) ->
   Server.getCurrentOutbounds sort st =
     Server.stable_sort Server.by_outTime_desc
       (filter (fun o => Server.o_status o = "outbound") (Server.outbounds st)) /\
   StronglySorted Server.not_later (Server.getCurrentOutbounds sort st)).
Proof.
  intros [Hperm Hsorted]. unfold Server.getCurrentOutbounds. split_and!.
  - apply Hperm.
  - intros o. rewrite Hperm, list_elem_of_filter. tauto.
  - intros Hvalid.
    assert (Hopen : Forall (fun o => is_Some (Server.o_outTime o))
              (filter (fun o => Server.o_status o = "outbound") (Server.outbounds st))).
    { apply Forall_forall. intros o [Ho Hin]%list_elem_of_filter.
      rewrite Forall_forall in Hvalid. by apply Hvalid. }
    rewrite Hsorted by by apply by_outTime_desc_consistent.
    split; [done | by apply stable_sort_not_later].
Qed.

Lemma getCurrentOutbounds_open_latest_first_witness :
  let who := {| Server.s_id := 1; Server.s_name := "김민수"; Server.s_role := "employee" |} in
  let st := Server.handle_all
              [(Server.PostOutbound who "Client HQ" (Some 900%Z) None, "::1", 1000%Z);
               (Server.PostOutbound who "Factory" (Some 950%Z) None, "::1", 2000%Z)]
              Server.start in
  Server.sort_contract (@Server.stable_sort Server.outbound) /\
  Server.o_location <$> Server.getCurrentOutbounds Server.stable_sort st =
    ["Factory"; "Client HQ"] /\
  forall o, o ∈ Server.getCurrentOutbounds Server.stable_sort st <->
            o ∈ Server.outbounds st /\ Server.o_status o = "outbound".
Proof.
  intros who st. split_and!; [apply stable_sort_contract | by vm_compute |].
  exact (proj1 (proj2 (getCurrentOutbounds_open_latest_first Server.stable_sort st
                         stable_sort_contract))).
Defined.

Section Handlers.

Import Server.
Local Open Scope Z_scope.
Implicit Types (st : state) (who : session) (l : list outbound).

Lemma find_id_none id l :
  Forall (fun o => o_id o ≠ id) l -> find (fun o => bool_decide (o_id o = id)) l = None.
Proof.
  induction 1 as [|o l Ho Hl IH]; [done |].
  cbn [find]. by rewrite bool_decide_false.
Qed.

Lemma find_id_first id l1 o l2 :
  Forall (fun o => o_id o ≠ id) l1 -> o_id o = id ->
  find (fun o => bool_decide (o_id o = id)) (l1 ++ o :: l2) = Some o.
Proof.
  intros Hl1 Ho. induction Hl1 as [|y l1 Hy Hl1 IH]; cbn [app find].
  - by rewrite bool_decide_true.
  - by rewrite bool_decide_false.
Qed.

Lemma mark_returned_first id now l1 o l2 :
  Forall (fun o => o_id o ≠ id) l1 -> o_id o = id ->
  mark_returned id now (l1 ++ o :: l2) = l1 ++ returned_at now o :: l2.
Proof.
  intros Hl1 Ho. induction Hl1 as [|y l1 Hy Hl1 IH]; cbn [app mark_returned].
  - by rewrite bool_decide_true.
  - by rewrite bool_decide_false, IH.
Qed.

Lemma splice_first_first id l1 o l2 :
  Forall (fun o => o_id o ≠ id) l1 -> o_id o = id ->
  splice_first id (l1 ++ o :: l2) = l1 ++ l2.
Proof.
  intros Hl1 Ho. induction Hl1 as [|y l1 Hy Hl1 IH]; cbn [app splice_first].
  - by rewrite bool_decide_true.
  - by rewrite bool_decide_false, IH.
Qed.

End Handlers.

(** Returning or deleting an id that no record has answers 404 "Outbound
    record not found" and changes neither the records nor the log. *)
Theorem unknown_id_is_not_found (who : Server.session) (id : Z) (ip : string) (now : Z)
    (st : Server.state) :
  Forall (fun o => Server.o_id o ≠ id) (Server.outbounds st) ->
  Server.put_return who id ip now st = (st, Server.Status 404 "Outbound record not found") /\
  Server.delete_outbound who id ip now st = (st, Server.Status 404 "Outbound record not found").
Proof.
  intros Hnone. unfold Server.put_return, Server.delete_outbound.
  by rewrite find_id_none.
Qed.

Lemma unknown_id_is_not_found_witness :
  let who := {| Server.s_id := 1; Server.s_name := "김민수"; Server.s_role := "employee" |} in
  Forall (fun o => Server.o_id o ≠ 5%Z) (Server.outbounds Server.start) /\
  Server.put_return who 5 "::1" 1000 Server.start =
    (Server.start, Server.Status 404 "Outbound record not found").
Proof.
  cbv zeta.
  assert (H : Forall (fun o => Server.o_id o ≠ 5%Z) (Server.outbounds Server.start))
    by apply Forall_nil_2.
  split; [exact H |].
  exact (proj1 (unknown_id_is_not_found _ 5 "::1" 1000 Server.start H)).
Defined.

(** The return handler changes the first record that has the id, and only
    that one: it gets status "returned" and the current time as inTime, also
    when it was returned before and whoever asks; later records with the same
    id and all other records stay as they are, and one log entry is added. *)
Theorem put_return_marks_first (who : Server.session) (id : Z) (ip : string) (now : Z)
    (st : Server.state) (l1 l2 : list Server.outbound) (o : Server.outbound) :
  Server.outbounds st = l1 ++ o :: l2 ->
  Forall (fun o => Server.o_id o ≠ id) l1 -> Server.o_id o = id ->
  let '(st', reply) := Server.put_return who id ip now st in
  Server.outbounds st' = l1 ++ Server.returned_at now o :: l2 /\
  reply = Server.Json (Server.returned_at now o) /\
  Server.systemLogs st' = Server.systemLogs st ++ [
    {| Server.l_userId := Server.s_id who; Server.l_userName := Server.s_name who;
       Server.l_action := "outbound_returned: " +:+ Server.o_location o;
       Server.l_timestamp := now; Server.l_ip := ip |}].
Proof.
  intros Hl Hl1 Ho. unfold Server.put_return.
  rewrite Hl, find_id_first, mark_returned_first by done.
  rewrite find_id_first by done. done.
Qed.

Lemma put_return_marks_first_witness :
  let who := {| Server.s_id := 1; Server.s_name := "김민수"; Server.s_role := "employee" |} in
  let st := (Server.post_outbounds who "Client HQ" (Some 900%Z) None "::1" 1000 Server.start).1 in
  let o := {| Server.o_id := 1000; Server.o_userId := 1; Server.o_userName := "김민수";
              Server.o_department := "영업팀"; Server.o_outTime := Some 900%Z;
              Server.o_expectedReturnTime := None; Server.o_location := "Client HQ";
              Server.o_status := "outbound"; Server.o_createdAt := 1000;
              Server.o_inTime := None |} in
  (Server.outbounds st = [] ++ o :: [] /\
   Forall (fun o => Server.o_id o ≠ 1000%Z) [] /\ Server.o_id o = 1000%Z) /\
  Server.outbounds (Server.put_return who 1000 "::1" 2000 st).1 =
    [Server.returned_at 2000 o].
Proof.
  cbv zeta. split; [split_and!; [reflexivity | apply Forall_nil_2 | reflexivity] |].
  pose proof (put_return_marks_first
    {| Server.s_id := 1; Server.s_name := "김민수"; Server.s_role := "employee" |}
    1000 "::1" 2000
    (Server.post_outbounds
       {| Server.s_id := 1; Server.s_name := "김민수"; Server.s_role := "employee" |}
       "Client HQ" (Some 900%Z) None "::1" 1000 Server.start).1
    [] [] _ eq_refl (Forall_nil_2 _) eq_refl) as H.
  destruct (Server.put_return _ _ _ _ _) as [st' reply]. exact (proj1 H).
Defined.

(** The delete handler removes the first record that has the id and nothing
    else, and adds one log entry naming the deleted location. *)
Theorem delete_removes_first (who : Server.session) (id : Z) (ip : string) (now : Z)
    (st : Server.state) (l1 l2 : list Server.outbound) (o : Server.outbound) :
  Server.outbounds st = l1 ++ o :: l2 ->
  Forall (fun o => Server.o_id o ≠ id) l1 -> Server.o_id o = id ->
  let '(st', reply) := Server.delete_outbound who id ip now st in
  Server.outbounds st' = l1 ++ l2 /\
  reply = Server.Json "Outbound record deleted successfully" /\
  Server.systemLogs st' = Server.systemLogs st ++ [
    {| Server.l_userId := Server.s_id who; Server.l_userName := Server.s_name who;
       Server.l_action := "outbound_deleted: " +:+ Server.o_location o;
       Server.l_timestamp := now; Server.l_ip := ip |}].
Proof.
  intros Hl Hl1 Ho. unfold Server.delete_outbound.
  rewrite Hl, find_id_first, splice_first_first by done. done.
Qed.

Lemma delete_removes_first_witness :
  let who := {| Server.s_id := 1; Server.s_name := "김민수"; Server.s_role := "employee" |} in
  let st := (Server.post_outbounds who "Client HQ" (Some 900%Z) None "::1" 1000 Server.start).1 in
  let o := {| Server.o_id := 1000; Server.o_userId := 1; Server.o_userName := "김민수";
              Server.o_department := "영업팀"; Server.o_outTime := Some 900%Z;
              Server.o_expectedReturnTime := None; Server.o_location := "Client HQ";
              Server.o_status := "outbound"; Server.o_createdAt := 1000;
              Server.o_inTime := None |} in
  (Server.outbounds st = [] ++ o :: [] /\
   Forall (fun o => Server.o_id o ≠ 1000%Z) [] /\ Server.o_id o = 1000%Z) /\
  Server.outbounds (Server.delete_outbound who 1000 "::1" 2000 st).1 = [].
Proof.
  cbv zeta. split; [split_and!; [reflexivity | apply Forall_nil_2 | reflexivity] |].
  pose proof (delete_removes_first
    {| Server.s_id := 1; Server.s_name := "김민수"; Server.s_role := "employee" |}
    1000 "::1" 2000
    (Server.post_outbounds
       {| Server.s_id := 1; Server.s_name := "김민수"; Server.s_role := "employee" |}
       "Client HQ" (Some 900%Z) None "::1" 1000 Server.start).1
    [] [] _ eq_refl (Forall_nil_2 _) eq_refl) as H.
  destruct (Server.delete_outbound _ _ _ _ _) as [st' reply]. exact (proj1 H).
Defined.

(** Creating a record and deleting it by the id it was given brings the
    records back to what they were, provided no older record has that id
    (the id is the millisecond of creation); the log keeps both entries. *)
Theorem post_then_delete (who who' : Server.session) (location : string) (outTime : option Z)
    (ert : option (option Z)) (ip ip' : string) (now now' : Z) (st : Server.state) :
  Forall (fun o => Server.o_id o ≠ now) (Server.outbounds st) ->
  let st1 := (Server.post_outbounds who location outTime ert ip now st).1 in
  let st2 := (Server.delete_outbound who' now ip' now' st1).1 in
  Server.outbounds st2 = Server.outbounds st /\
  length (Server.systemLogs st2) = (length (Server.systemLogs st) + 2)%nat.
Proof.
  intros Hfresh st1 st2. subst st1 st2.
  unfold Server.delete_outbound. cbn [Server.post_outbounds fst Server.outbounds].
  rewrite find_id_first, splice_first_first by done.
  cbn [fst Server.outbounds Server.systemLogs]. rewrite app_nil_r. split; [done |].
  rewrite !length_app. cbn. lia.
Qed.

Lemma post_then_delete_witness :
  let who := {| Server.s_id := 1; Server.s_name := "김민수"; Server.s_role := "employee" |} in
  Forall (fun o => Server.o_id o ≠ 1000%Z) (Server.outbounds Server.start) /\
  Server.outbounds (Server.delete_outbound who 1000 "::1" 2000
    (Server.post_outbounds who "Client HQ" (Some 900%Z) None "::1" 1000 Server.start).1).1 =
  Server.outbounds Server.start.
Proof.
  cbv zeta.
  assert (H : Forall (fun o => Server.o_id o ≠ 1000%Z) (Server.outbounds Server.start))
    by apply Forall_nil_2.
  split; [exact H |].
  exact (proj1 (post_then_delete _ _ "Client HQ" (Some 900%Z) None "::1" "::1" 1000 2000 Server.start H)).
Defined.

(** A limit of 0, a negative limit or one that is not a number puts no cap
    on the log view: 0 and NaN return the whole log (latest first), and -n
    returns everything but the n oldest entries. *)
Theorem nonpositive_limit_is_no_cap (n : Z) (st : Server.state) :
  (n <= 0)%Z ->
  Server.get_logs (Server.LimitNumber n) st =
    (st, reverse (drop (Z.to_nat (- n)) (Server.systemLogs st))) /\
  Server.get_logs (Server.LimitNumber 0) st = (st, reverse (Server.systemLogs st)) /\
  Server.get_logs Server.LimitNaN st = (st, reverse (Server.systemLogs st)).
Proof.
  intros Hn. unfold Server.get_logs, Server.slice_from. split_and!.
  - rewrite (proj2 (Z.ltb_ge _ _)) by lia. do 2 f_equal.
    destruct (Z.le_gt_cases (- n) (Z.of_nat (length (Server.systemLogs st)))) as [Hle|Hgt].
    + by rewrite Z.min_l.
    + rewrite Z.min_r by lia. rewrite Nat2Z.id.
      rewrite !drop_ge; [done | lia | lia].
  - change (- 0 <? 0)%Z with false. cbv iota.
    rewrite Z.min_l by lia. reflexivity.
  - change (0 <? 0)%Z with false. cbv iota.
    rewrite Z.min_l by lia. reflexivity.
Qed.

Lemma nonpositive_limit_is_no_cap_witness :
  let entry t := {| Server.l_userId := 1; Server.l_userName := "김민수";
                    Server.l_action := "login"; Server.l_timestamp := t;
                    Server.l_ip := "::1" |} in
  let st := {| Server.outbounds := []; Server.systemLogs := [entry 10; entry 20; entry 30]%Z |} in
  (-1 <= 0)%Z /\
  Server.get_logs (Server.LimitNumber (-1)) st = (st, [entry 30; entry 20]%Z).
Proof.
  cbv zeta. split; [lia |].
  exact (proj1 (nonpositive_limit_is_no_cap (-1) _ ltac:(lia))).
Defined.

(** Login succeeds exactly for a name and password that some user of the
    roster has: the token then carries that user's id, name and role and
    one "login" entry is logged; otherwise the answer is 401 and nothing
    changes.  The outbound records are never touched. *)
Theorem login_checks_credentials (name password ip : string) (now : Z) (st : Server.state) :
  match Server.login name password ip now st with
  | (st', Server.Json r) =>
      exists u, u ∈ Server.users /\ Server.u_name u = name /\ Server.u_password u = password /\
        Server.token r = {| Server.s_id := Server.u_id u; Server.s_name := Server.u_name u;
                            Server.s_role := Server.u_role u |} /\
        Server.systemLogs st' = Server.systemLogs st ++ [
          {| Server.l_userId := Server.u_id u; Server.l_userName := Server.u_name u;
             Server.l_action := "login"; Server.l_timestamp := now; Server.l_ip := ip |}] /\
        Server.outbounds st' = Server.outbounds st
  | (st', Server.Status code _) =>
      code = 401%Z /\ st' = st /\
      forall u, u ∈ Server.users ->
        ~ (Server.u_name u = name /\ Server.u_password u = password)
  end.
Proof.
  unfold Server.login.
  destruct (find _ Server.users) as [u|] eqn:Hfind.
  - apply find_some in Hfind as [Hin Hu].
    apply andb_true_iff in Hu as [Hn Hp].
    apply bool_decide_eq_true in Hn, Hp.
    exists u. split_and!; try done. by apply list_elem_of_In.
  - split_and!; try done. intros u Hin [Hn Hp].
    apply list_elem_of_In in Hin.
    pose proof (find_none _ _ Hfind u Hin) as Hu. cbn beta in Hu.
    by rewrite !bool_decide_true in Hu.
Qed.

(** The log is disclosed only to an admin: the log route answers with the
    view only when the Authorization header has a second, non-empty word
    that verifies to a session whose role is "admin"; in every other case it
    answers 401 or 403.  It never changes the state. *)
Theorem admin_logs_only_for_admin (verify : string -> option Server.session)
    (authorization : option string) (q : Server.query_limit) (st : Server.state) :
  (Server.admin_logs verify authorization q st).1 = st /\
  match (Server.admin_logs verify authorization q st).2 with
  | Server.Json view =>
      view = (Server.get_logs q st).2 /\
      exists header tok user,
        authorization = Some header /\
        Server.split_spaces EmptyString header !! 1%nat = Some tok /\ tok ≠ EmptyString /\
        verify tok = Some user /\ Server.s_role user = "admin"
  | Server.Status code _ => code = 401%Z \/ code = 403%Z
  end.
Proof.
  unfold Server.admin_logs, Server.authenticateToken, Server.requireAdmin.
  destruct authorization as [header|]; cbn [mbind option_bind]; [| split; [done | by left]].
  destruct (Server.split_spaces EmptyString header !! 1%nat) as [tok|] eqn:Htok;
    [| split; [done | by left]].
  case_bool_decide as Hne; [split; [done | by left] |].
  destruct (verify tok) as [user|] eqn:Hv; [| split; [done | by right]].
  case_bool_decide as Hrole; [split; [done | by right] |].
  unfold Server.get_logs. cbn [fst snd]. split; [done |].
  split; [done |]. by exists header, tok, user.
Qed.

Section ServerInvariant.

Import Server.
Local Open Scope Z_scope.

Lemma mark_returned_Forall (P : outbound -> Prop) id now l :
  Forall P l -> (forall o, P (returned_at now o)) -> Forall P (mark_returned id now l).
Proof.
  intros Hl Hret. induction Hl as [|o l Ho Hl IH]; cbn [mark_returned]; [done |].
  case_bool_decide; constructor; auto. apply (Hret o).
Qed.

Lemma splice_first_Forall (P : outbound -> Prop) id l :
  Forall P l -> Forall P (splice_first id l).
Proof.
  induction 1 as [|o l Ho Hl IH]; cbn [splice_first]; [done |].
  case_bool_decide; [done | by constructor].
Qed.

Lemma consistent_step r ip now st :
  Forall consistent (outbounds st) -> Forall consistent (outbounds (handle r ip now st)).
Proof.
  intros Hst. destruct r as [who location outTime ert|who id|who id]; cbn [handle].
  - cbn [post_outbounds fst outbounds]. apply Forall_app. split; [done |].
    constructor; [by left | done].
  - unfold put_return. destruct (find _ (outbounds st)); [|done].
    cbn [fst outbounds]. apply mark_returned_Forall; [done |].
    intros o'. right. cbn. eauto.
  - unfold delete_outbound. destruct (find _ (outbounds st)); [|done].
    cbn [fst outbounds]. by apply splice_first_Forall.
Qed.

(** A handler leaves the log as it is or adds one entry stamped [now]. *)
Lemma handle_log r ip now st :
  systemLogs (handle r ip now st) = systemLogs st \/
  exists e, systemLogs (handle r ip now st) = systemLogs st ++ [e] /\ l_timestamp e = now.
Proof.
  destruct r as [who location outTime ert|who id|who id]; cbn [handle].
  - right. eexists. split; reflexivity.
  - unfold put_return. destruct (find _ (outbounds st)); [|by left].
    right. eexists. split; reflexivity.
  - unfold delete_outbound. destruct (find _ (outbounds st)); [|by left].
    right. eexists. split; reflexivity.
Qed.

Lemma ascending_snoc l x :
  ascending l = true -> (forall y, last l = Some y -> y <= x) ->
  ascending (l ++ [x]) = true.
Proof.
  induction l as [|a [|b l] IH]; intros Hl Hlast.
  - done.
  - cbn. rewrite andb_true_r. apply Z.leb_le. by apply Hlast.
  - cbn [app ascending] in *. apply andb_true_iff in Hl as [Hab Hl].
    rewrite Hab. cbn [andb]. by apply IH.
Qed.

Lemma ascending_run (l : list (request * string * Z)) st :
  ascending (l_timestamp <$> systemLogs st) = true ->
  (forall y t, last (l_timestamp <$> systemLogs st) = Some y -> head (l.*2) = Some t -> y <= t) ->
  ascending (l.*2) = true ->
  ascending (l_timestamp <$> systemLogs (handle_all l st)) = true.
Proof.
  revert st. induction l as [|[[r ip] now] l IH]; intros st Hst Hlast Hl; [done |].
  change (handle_all (((r, ip), now) :: l) st) with (handle_all l (handle r ip now st)).
  rewrite fmap_cons in Hl, Hlast. cbn [snd head] in Hl, Hlast.
  assert (Hy : forall y, last (l_timestamp <$> systemLogs st) = Some y -> y <= now)
    by (intros y Hy; by apply (Hlast y now)).
  assert (Hnext : forall t, head (l.*2) = Some t -> now <= t).
  { intros t Ht. destruct (l.*2) as [|t' ts]; [done |]. injection Ht as ->.
    cbn [ascending] in Hl. apply andb_true_iff in Hl as [Hle _]. by apply Z.leb_le. }
  apply IH.
  - destruct (handle_log r ip now st) as [-> | (e & -> & He)]; [done |].
    rewrite fmap_app. change (l_timestamp <$> [e]) with [l_timestamp e].
    rewrite He. by apply ascending_snoc.
  - intros y t Hlasty Ht. specialize (Hnext t Ht).
    destruct (handle_log r ip now st) as [Heq | (e & Heq & He)]; rewrite Heq in Hlasty.
    + specialize (Hy y Hlasty). lia.
    + rewrite fmap_app in Hlasty.
      change (l_timestamp <$> [e]) with [l_timestamp e] in Hlasty.
      rewrite last_snoc in Hlasty. injection Hlasty as <-. lia.
  - by apply ascending_tail in Hl.
Qed.

End ServerInvariant.

(** The three handlers keep status and inTime in step: a record is
    "outbound" without an inTime or "returned" with one, after every
    sequence of requests on the empty server state. *)
Theorem outbounds_stay_consistent :
  (forall r ip now st,
     Forall Server.consistent (Server.outbounds st) ->
     Forall Server.consistent (Server.outbounds (Server.handle r ip now st))) /\
  (forall l, Forall Server.consistent (Server.outbounds (Server.handle_all l Server.start))).
Proof.
  split; [apply consistent_step |].
  intros l. unfold Server.handle_all.
  assert (H0 : Forall Server.consistent (Server.outbounds Server.start)) by apply Forall_nil_2.
  revert H0. generalize Server.start.
  induction l as [|[[r ip] now] l IH]; intros st Hst; [done |].
  cbn [foldl]. apply IH. by apply consistent_step.
Qed.

(** The log is append-only: a handler never removes or rewrites an entry.
    When the clock readings of the requests never go back, the entries lie
    in timestamp order, so every view of the log endpoint is latest
    first. *)
Theorem log_follows_the_clock (l : list (Server.request * string * Z)) :
  (forall r ip now st,
     Server.systemLogs st `prefix_of` Server.systemLogs (Server.handle r ip now st)) /\
  (Server.ascending (l.*2) = true ->
   Server.ascending (Server.l_timestamp <$> Server.systemLogs (Server.handle_all l Server.start))
     = true /\
   forall q, Server.descending
     (Server.l_timestamp <$> (Server.get_logs q (Server.handle_all l Server.start)).2) = true).
Proof.
  split.
  - intros r ip now st.
    destruct (handle_log r ip now st) as [-> | (e & -> & _)]; [done | by eexists].
  - intros Hl.
    assert (Hasc : Server.ascending
      (Server.l_timestamp <$> Server.systemLogs (Server.handle_all l Server.start)) = true)
      by (by apply ascending_run).
    split; [exact Hasc |].
    intros q. unfold Server.get_logs, Server.slice_from. cbn [snd].
    rewrite fmap_reverse, fmap_drop. by apply descending_reverse, ascending_drop.
Qed.

Lemma log_follows_the_clock_witness :
  let who := {| Server.s_id := 1; Server.s_name := "김민수"; Server.s_role := "employee" |} in
  let l := [(Server.PostOutbound who "Client HQ" (Some 900%Z) None, "::1", 1000%Z);
            (Server.PutReturn who 1000, "::1", 2000%Z)] in
  Server.ascending (l.*2) = true /\
  Server.ascending (Server.l_timestamp <$> Server.systemLogs (Server.handle_all l Server.start))
    = true.
Proof.
  intros who l. split; [reflexivity |].
  exact (proj1 (proj2 (log_follows_the_clock l) eq_refl)).
Defined.
